(** * kurate: maintenance and packaging scripts

    A shallow embedding of the four Python scripts of the repository:

    - [src/update_index.py] and [src/update_js.py], which splice a
      replacement snippet into [index.js] between two textual markers;
    - [build_chrome_extension.py] and [build_firefox_extension.py], which
      stage the extension tree, (for Firefox) rewrite the [background]
      section of [manifest.json], and write a ZIP archive.

    Python [str] values are lists of characters, Python [int]s are [Z]
    (so that the [-1] returned by [str.find] and negative slice bounds keep
    their meaning), files are explicit state, and [exit]/exceptions are
    explicit outcomes. *)

From Stdlib Require Import String Ascii ZArith Lia Bool Arith DecimalString List.
Import ListNotations.

Local Open Scope Z_scope.

(** ** Python strings *)

Definition str := list ascii.

(** String literals of the scripts. *)
Definition py (s : string) : str := list_ascii_of_string s.

Definition nl : ascii := "010"%char.

Fixpoint str_eqb (a b : str) : bool :=
  match a, b with
  | [], [] => true
  | x :: a', y :: b' => Ascii.eqb x y && str_eqb a' b'
  | _, _ => false
  end.

(** [s.startswith(m)] *)
Fixpoint startswith (s m : str) {struct m} : bool :=
  match m with
  | [] => true
  | c :: m' =>
      match s with
      | [] => false
      | d :: s' => Ascii.eqb d c && startswith s' m'
      end
  end.

(** [s.endswith(m)] *)
Definition endswith (s m : str) : bool := startswith (rev s) (rev m).

(** [s.find(m)]: the lowest index at which [m] occurs in [s], or [-1]. *)
Fixpoint find_at (k : nat) (s m : str) : Z :=
  if startswith s m then Z.of_nat k
  else match s with
       | [] => -1
       | _ :: s' => find_at (S k) s' m
       end.

Definition find (s m : str) : Z := find_at 0 s m.

(** Normalisation of a slice bound against a length, as Python does it:
    a negative bound counts from the end, and the result is clamped to
    [[0, len]]. *)
Definition norm_index (len : nat) (i : Z) : nat :=
  if i <? 0 then Z.to_nat (Z.max 0 (Z.of_nat len + i))
  else Z.to_nat (Z.min i (Z.of_nat len)).

(** [s[:i]] *)
Definition slice_to (s : str) (i : Z) : str :=
  firstn (norm_index (length s) i) s.

(** [s[j:]] *)
Definition slice_from (s : str) (j : Z) : str :=
  skipn (norm_index (length s) j) s.

(** [s[i:j]] *)
Definition slice (s : str) (i j : Z) : str :=
  firstn (norm_index (length s) j - norm_index (length s) i)
         (skipn (norm_index (length s) i) s).

(** [len(s)] *)
Definition len (s : str) : Z := Z.of_nat (length s).

(** ** The patch scripts

    Both scripts read [index.js] and a snippet file, locate two markers,
    and write the spliced buffer back to [index.js]. *)

Module Patch.

(** The three files the scripts touch, and what was printed. *)
Record world := mkWorld {
  index_js : option str;
  new_styles_snippet_js : option str;
  new_render_links_snippet_js : option str;
  stdout : list str
}.

Inductive outcome :=
| Raised (w : world)                (* [open] raised: uncaught exception *)
| Exited (code : Z) (w : world)     (* [exit(code)] *)
| Finished (w : world).             (* ran off the end of the script *)

Definition print (line : str) (w : world) : world :=
  mkWorld (index_js w) (new_styles_snippet_js w)
          (new_render_links_snippet_js w) (stdout w ++ [line]).

(** [with open(index_path, 'w') as f: f.write(new_content)] *)
Definition write_index (new_content : str) (w : world) : world :=
  mkWorld (Some new_content) (new_styles_snippet_js w)
          (new_render_links_snippet_js w) (stdout w).

(** [f"{b}"] for a Python [bool]. *)
Definition fmt_bool (b : bool) : str := if b then py "True" else py "False".

End Patch.

(** *** [src/update_index.py] *)

Module update_index.
Import Patch.

Definition start_marker : str := py "function getStylesCSS() {".
Definition end_marker : str := py "function getAppJS() {".
Definition separator : str := [nl; nl].

(** Line 24: [content[:start_idx] + new_css_func + "\n\n" + content[end_idx:]] *)
Definition new_content (content new_css_func : str) (start_idx end_idx : Z) : str :=
  slice_to content start_idx ++ new_css_func ++ separator ++ slice_from content end_idx.

Definition run (w : world) : outcome :=
  match index_js w with
  | None => Raised w
  | Some content =>
      match new_styles_snippet_js w with
      | None => Raised w
      | Some new_css_func =>
          let start_idx := find content start_marker in
          let end_idx := find content end_marker in
          if (start_idx =? -1) || (end_idx =? -1) then
            Exited 1 (print (py "Error: Could not find markers") w)
          else
            Finished
              (print (py "Successfully updated index.js")
                 (write_index (new_content content new_css_func start_idx end_idx) w))
      end
  end.

End update_index.

(** *** [src/update_js.py] *)

Module update_js.
Import Patch.

Definition start_marker : str := py "renderLinks() {".
Definition end_marker : str := py "async copyLink(url) {".
(** The marker assigned to [end_marker] on line 25. *)
Definition loose_end_marker : str := py "copyLink(url) {".
Definition separator : str := [nl; nl] ++ py "    ".

(** Line 32: [content[:start_idx] + new_func + "\n\n    " + content[end_idx:]] *)
Definition new_content (content new_func : str) (start_idx end_idx : Z) : str :=
  slice_to content start_idx ++ new_func ++ separator ++ slice_from content end_idx.

(** Lines 31-37, reached with the current values of [start_idx] and
    [end_idx]. *)
Definition splice_and_write (content new_func : str) (start_idx end_idx : Z)
    (w : world) : outcome :=
  Finished
    (print (py "Successfully updated renderLinks in index.js")
       (write_index (new_content content new_func start_idx end_idx) w)).

Definition run (w : world) : outcome :=
  match index_js w with
  | None => Raised w
  | Some content =>
      match new_render_links_snippet_js w with
      | None => Raised w
      | Some new_func =>
          let start_idx := find content start_marker in
          let end_idx := find content end_marker in
          if (start_idx =? -1) || (end_idx =? -1) then
            let w := print (py "Error: Could not find markers") w in
            let w := print (py "Start found: " ++ fmt_bool (negb (start_idx =? -1))) w in
            let w := print (py "End found: " ++ fmt_bool (negb (end_idx =? -1))) w in
            if end_idx =? -1 then
              let end_idx := find content loose_end_marker in
              if end_idx =? -1 then
                Exited 1 (print (py "Error: Could not find end marker strict or loose") w)
              else splice_and_write content new_func start_idx end_idx w
            else splice_and_write content new_func start_idx end_idx w
          else splice_and_write content new_func start_idx end_idx w
      end
  end.

End update_js.

(** ** Python dictionaries and JSON values

    A [dict] is insertion-ordered with unique keys; it is kept as an
    association list in insertion order.  The same structure serves for
    directory listings below. *)

Section Dict.
Context {V : Type}.

(** [d.get(k)] / [k in d] / [d[k]] *)
Fixpoint dict_get (d : list (str * V)) (k : str) : option V :=
  match d with
  | [] => None
  | (k', v) :: d' => if str_eqb k' k then Some v else dict_get d' k
  end.

(** [d[k] = v]: an existing key keeps its position, a new key goes last. *)
Fixpoint dict_set (d : list (str * V)) (k : str) (v : V) : list (str * V) :=
  match d with
  | [] => [(k, v)]
  | (k', v') :: d' =>
      if str_eqb k' k then (k', v) :: d' else (k', v') :: dict_set d' k v
  end.

(** [del d[k]]: keys being unique, this drops the binding of [k]. *)
Fixpoint dict_remove (d : list (str * V)) (k : str) : list (str * V) :=
  match d with
  | [] => []
  | (k', v') :: d' =>
      if str_eqb k' k then dict_remove d' k else (k', v') :: dict_remove d' k
  end.

(** [dict(pairs)] *)
Definition dict_of_pairs (pairs : list (str * V)) : list (str * V) :=
  fold_left (fun d kv => dict_set d (fst kv) (snd kv)) pairs [].
End Dict.

(** The values [json.load] produces.  Numbers are restricted to integers:
    floating-point numbers are outside this embedding. *)
#[warnings="-register-all"] Inductive json :=
| JNull
| JBool (b : bool)
| JInt (n : Z)
| JStr (s : str)
| JList (l : list json)
| JDict (d : list (str * json)).

Inductive exn :=
| OSError            (* FileNotFoundError, NotADirectoryError, PermissionError *)
| JSONDecodeError
| TypeError
| AttributeError
| KeyError
| Unmodelled.        (* input outside the modelled fragment of JSON *)

Definition result (A : Type) := (exn + A)%type.

Definition rbind {A B} (r : result A) (k : A -> result B) : result B :=
  match r with
  | inl e => inl e
  | inr a => k a
  end.

Declare Scope result_scope.
Delimit Scope result_scope with result.
Notation "x <- r ;; k" := (rbind r (fun x => k))
  (at level 100, r at next level, right associativity) : result_scope.
Notation "' pat <- r ;; k" := (rbind r (fun x => match x with pat => k end))
  (at level 100, pat pattern, r at next level, right associativity) : result_scope.

(** Python [==] on these values: [bool] is a subclass of [int]; lists
    compare element-wise, dicts key-wise regardless of order. *)
Fixpoint py_eq (a b : json) {struct a} : bool :=
  match a with
  | JNull => match b with JNull => true | _ => false end
  | JBool x =>
      match b with
      | JBool y => Bool.eqb x y
      | JInt n => n =? (if x then 1 else 0)
      | _ => false
      end
  | JInt n =>
      match b with
      | JBool y => n =? (if y then 1 else 0)
      | JInt m => n =? m
      | _ => false
      end
  | JStr s => match b with JStr t => str_eqb s t | _ => false end
  | JList l =>
      match b with
      | JList l' =>
          (fix all2 (l l' : list json) {struct l} : bool :=
             match l, l' with
             | [], [] => true
             | x :: l, y :: l' => py_eq x y && all2 l l'
             | _, _ => false
             end) l l'
      | _ => false
      end
  | JDict d =>
      match b with
      | JDict d' =>
          Nat.eqb (length d) (length d') &&
          (fix all (d : list (str * json)) : bool :=
             match d with
             | [] => true
             | (k, v) :: d =>
                 match dict_get d' k with
                 | Some v' => py_eq v v'
                 | None => false
                 end && all d
             end) d
      | _ => false
      end
  end.

(** [x in container] *)
Definition py_contains (container x : json) : result bool :=
  match container with
  | JDict d =>
      match x with
      | JStr k => inr (match dict_get d k with Some _ => true | None => false end)
      | JList _ | JDict _ => inl TypeError        (* unhashable *)
      | _ => inr false                            (* every key is a [str] *)
      end
  | JList l => inr (existsb (py_eq x) l)
  | JStr s =>
      match x with
      | JStr t => inr (negb (find s t =? -1))     (* substring test *)
      | _ => inl TypeError
      end
  | _ => inl TypeError                            (* not iterable *)
  end.

(** [container[k]] for a string key *)
Definition py_getitem (container : json) (k : str) : result json :=
  match container with
  | JDict d => match dict_get d k with Some v => inr v | None => inl KeyError end
  | _ => inl TypeError
  end.

(** [container[k] = v] for a string key *)
Definition py_setitem (container : json) (k : str) (v : json) : result json :=
  match container with
  | JDict d => inr (JDict (dict_set d k v))
  | _ => inl TypeError
  end.

(** [container.pop(k)] for a string key: the popped value and the
    container afterwards. *)
Definition py_pop (container : json) (k : str) : result (json * json) :=
  match container with
  | JDict d =>
      match dict_get d k with
      | Some v => inr (v, JDict (dict_remove d k))
      | None => inl KeyError
      end
  | JList _ => inl TypeError
  | _ => inl AttributeError
  end.

(** [container.append(v)] *)
Definition py_append (container v : json) : result json :=
  match container with
  | JList l => inr (JList (l ++ [v]))
  | _ => inl AttributeError
  end.

(** The keys the transformation names. *)
Definition background : str := py "background".
Definition service_worker : str := py "service_worker".
Definition scripts : str := py "scripts".

(** *** [build_firefox_extension.py], lines 26-33

    The script mutates [manifest['background']] in place; the manifest is
    a tree fresh from [json.load], so the mutation is the update of the
    [background] entry of [manifest]. *)
Definition fix_manifest (manifest : json) : result json :=
  (has_background <- py_contains manifest (JStr background) ;;
   if has_background : bool then
     bg <- py_getitem manifest background ;;
     has_sw <- py_contains bg (JStr service_worker) ;;
     if has_sw : bool then
       ' (sw, bg) <- py_pop bg service_worker ;;
       has_scripts <- py_contains bg (JStr scripts) ;;
       if negb has_scripts then
         bg <- py_setitem bg scripts (JList [sw]) ;;
         py_setitem manifest background bg
       else
         current <- py_getitem bg scripts ;;
         present <- py_contains current sw ;;
         if negb present then
           current <- py_append current sw ;;
           bg <- py_setitem bg scripts current ;;
           py_setitem manifest background bg
         else
           py_setitem manifest background bg
     else inr manifest
   else inr manifest)%result.

(** ** [json.dump(manifest, f, indent=4)]

    The text written by the encoder with [indent=4] and the defaults
    [ensure_ascii=True], [separators=(',', ': ')]. *)

Definition dquote : ascii := "034"%char.
Definition backslash : ascii := "092"%char.

Definition hex_digit (n : nat) : ascii := nth n (py "0123456789abcdef") "0"%char.

(** One character of [py_encode_basestring_ascii]. *)
Definition json_escape (c : ascii) : str :=
  let n := nat_of_ascii c in
  if (n =? 34)%nat then [backslash; dquote]
  else if (n =? 92)%nat then [backslash; backslash]
  else if (n =? 10)%nat then [backslash; "n"%char]
  else if (n =? 13)%nat then [backslash; "r"%char]
  else if (n =? 9)%nat then [backslash; "t"%char]
  else if (n =? 8)%nat then [backslash; "b"%char]
  else if (n =? 12)%nat then [backslash; "f"%char]
  else if (n <? 32)%nat || (126 <? n)%nat then
    [backslash; "u"%char; "0"%char; "0"%char; hex_digit (n / 16); hex_digit (n mod 16)]
  else [c].

Definition json_encode_str (s : str) : str :=
  [dquote] ++ flat_map json_escape s ++ [dquote].

(** [int.__repr__] *)
Definition repr_int (n : Z) : str := py (DecimalString.NilZero.string_of_int (Z.to_int n)).

Definition newline_indent (level : nat) : str := nl :: repeat " "%char (4 * level).

Fixpoint json_encode (level : nat) (v : json) {struct v} : str :=
  match v with
  | JNull => py "null"
  | JBool true => py "true"
  | JBool false => py "false"
  | JInt n => repr_int n
  | JStr s => json_encode_str s
  | JList [] => py "[]"
  | JList (x :: l) =>
      py "[" ++ newline_indent (S level) ++ json_encode (S level) x
      ++ (fix items (l : list json) : str :=
            match l with
            | [] => []
            | y :: l => py "," ++ newline_indent (S level) ++ json_encode (S level) y ++ items l
            end) l
      ++ newline_indent level ++ py "]"
  | JDict [] => py "{}"
  | JDict ((k, x) :: d) =>
      py "{" ++ newline_indent (S level)
      ++ json_encode_str k ++ py ": " ++ json_encode (S level) x
      ++ (fix items (d : list (str * json)) : str :=
            match d with
            | [] => []
            | (k, y) :: d =>
                py "," ++ newline_indent (S level)
                ++ json_encode_str k ++ py ": " ++ json_encode (S level) y ++ items d
            end) d
      ++ newline_indent level ++ py "}"
  end.

Definition json_dumps (v : json) : str := json_encode 0 v.

(** ** [json.load(f)]

    The decoder on the fragment of JSON this embedding covers: objects,
    arrays, strings, integers and the three literals.  Floating-point
    numbers, [NaN]/[Infinity] and escapes of characters above U+00FF are
    reported as [Unsupported]. *)

Inductive parsed (A : Type) :=
| Parsed (v : A) (rest : str)
| Invalid
| Unsupported.
Arguments Parsed {A} v rest.
Arguments Invalid {A}.
Arguments Unsupported {A}.

Definition pbind {A B} (r : parsed A) (k : A -> str -> parsed B) : parsed B :=
  match r with
  | Parsed v rest => k v rest
  | Invalid => Invalid
  | Unsupported => Unsupported
  end.

Definition is_ws (c : ascii) : bool :=
  let n := nat_of_ascii c in
  (n =? 32)%nat || (n =? 9)%nat || (n =? 10)%nat || (n =? 13)%nat.

Fixpoint skip_ws (s : str) : str :=
  match s with
  | c :: s' => if is_ws c then skip_ws s' else s
  | [] => []
  end.

Definition is_digit (c : ascii) : bool :=
  let n := nat_of_ascii c in (48 <=? n)%nat && (n <=? 57)%nat.

Definition digit_value (c : ascii) : Z := Z.of_nat (nat_of_ascii c - 48).

Definition hex_value (c : ascii) : option nat :=
  let n := nat_of_ascii c in
  if (48 <=? n)%nat && (n <=? 57)%nat then Some (n - 48)%nat
  else if (97 <=? n)%nat && (n <=? 102)%nat then Some (n - 87)%nat
  else if (65 <=? n)%nat && (n <=? 70)%nat then Some (n - 55)%nat
  else None.

Definition hex4 (a b c d : ascii) : option nat :=
  match hex_value a, hex_value b, hex_value c, hex_value d with
  | Some x, Some y, Some z, Some w => Some (((x * 16 + y) * 16 + z) * 16 + w)%nat
  | _, _, _, _ => None
  end.

Definition pcons (c : ascii) (r : parsed str) : parsed str :=
  pbind r (fun v rest => Parsed (c :: v) rest).

(** [scanstring], started after the opening quote. *)
Fixpoint scan_string (s : str) : parsed str :=
  match s with
  | [] => Invalid
  | c :: s' =>
      if Ascii.eqb c dquote then Parsed [] s'
      else if Ascii.eqb c backslash then
        match s' with
        | [] => Invalid
        | e :: s'' =>
            if Ascii.eqb e dquote then pcons dquote (scan_string s'')
            else if Ascii.eqb e backslash then pcons backslash (scan_string s'')
            else if Ascii.eqb e "/"%char then pcons "/"%char (scan_string s'')
            else if Ascii.eqb e "b"%char then pcons "008"%char (scan_string s'')
            else if Ascii.eqb e "f"%char then pcons "012"%char (scan_string s'')
            else if Ascii.eqb e "n"%char then pcons "010"%char (scan_string s'')
            else if Ascii.eqb e "r"%char then pcons "013"%char (scan_string s'')
            else if Ascii.eqb e "t"%char then pcons "009"%char (scan_string s'')
            else if Ascii.eqb e "u"%char then
              match s'' with
              | h1 :: h2 :: h3 :: h4 :: s5 =>
                  match hex4 h1 h2 h3 h4 with
                  | Some n =>
                      if (n <? 256)%nat then pcons (ascii_of_nat n) (scan_string s5)
                      else Unsupported
                  | None => Invalid
                  end
              | _ => Invalid
              end
            else Invalid
        end
      else if (nat_of_ascii c <? 32)%nat then Invalid
      else pcons c (scan_string s')
  end.

Fixpoint scan_digits (s : str) (acc : Z) : Z * str :=
  match s with
  | c :: s' => if is_digit c then scan_digits s' (acc * 10 + digit_value c) else (acc, s)
  | [] => (acc, [])
  end.

(** Whether the text after the integer part continues a float literal. *)
Definition float_follows (s : str) : bool :=
  match s with
  | c :: d :: s' =>
      (Ascii.eqb c "."%char && is_digit d)
      || ((Ascii.eqb c "e"%char || Ascii.eqb c "E"%char)
          && (is_digit d
              || ((Ascii.eqb d "+"%char || Ascii.eqb d "-"%char)
                  && match s' with x :: _ => is_digit x | [] => false end)))
  | _ => false
  end.

(** [NUMBER_RE], integers only. *)
Definition scan_number (s : str) : parsed json :=
  let '(neg, s1) := match s with
                    | c :: r => if Ascii.eqb c "-"%char then (true, r) else (false, s)
                    | [] => (false, s)
                    end in
  let finish (n : Z) (r : str) : parsed json :=
    if float_follows r then Unsupported
    else Parsed (JInt (if neg then - n else n)) r in
  match s1 with
  | c :: r =>
      if Ascii.eqb c "0"%char then finish 0 r
      else if is_digit c then let '(n, r') := scan_digits s1 0 in finish n r'
      else Invalid
  | [] => Invalid
  end.

(** [scan_once].  [depth] bounds the nesting of containers and [n] the
    number of items of one container; both are set from the length of the
    text, and running out of either is reported as [Unsupported]. *)
Fixpoint scan_value (depth : nat) (s : str) {struct depth} : parsed json :=
  match depth with
  | O => Unsupported
  | S depth =>
      match s with
      | [] => Invalid
      | c :: r =>
          if Ascii.eqb c dquote then pbind (scan_string r) (fun v rest => Parsed (JStr v) rest)
          else if Ascii.eqb c "{"%char then
            match skip_ws r with
            | [] => Invalid
            | c1 :: r1 =>
                if Ascii.eqb c1 "}"%char then Parsed (JDict []) r1
                else
                  (fix members (n : nat) (s : str) (pairs : list (str * json))
                     {struct n} : parsed json :=
                     match n with
                     | O => Unsupported
                     | S n =>
                         match s with
                         | [] => Invalid
                         | q :: s =>
                             if negb (Ascii.eqb q dquote) then Invalid
                             else
                               pbind (scan_string s) (fun key s =>
                               match skip_ws s with
                               | [] => Invalid
                               | colon :: s =>
                                   if negb (Ascii.eqb colon ":"%char) then Invalid
                                   else
                                     pbind (scan_value depth (skip_ws s)) (fun value s =>
                                     let pairs := pairs ++ [(key, value)] in
                                     match skip_ws s with
                                     | [] => Invalid
                                     | d :: s =>
                                         if Ascii.eqb d "}"%char
                                         then Parsed (JDict (dict_of_pairs pairs)) s
                                         else if Ascii.eqb d ","%char
                                         then members n (skip_ws s) pairs
                                         else Invalid
                                     end)
                               end)
                         end
                     end) (length r) (c1 :: r1) []
            end
          else if Ascii.eqb c "["%char then
            match skip_ws r with
            | [] => Invalid
            | c1 :: r1 =>
                if Ascii.eqb c1 "]"%char then Parsed (JList []) r1
                else
                  (fix elements (n : nat) (s : str) (values : list json)
                     {struct n} : parsed json :=
                     match n with
                     | O => Unsupported
                     | S n =>
                         pbind (scan_value depth s) (fun value s =>
                         let values := values ++ [value] in
                         match skip_ws s with
                         | [] => Invalid
                         | d :: s =>
                             if Ascii.eqb d "]"%char then Parsed (JList values) s
                             else if Ascii.eqb d ","%char
                             then elements n (skip_ws s) values
                             else Invalid
                         end)
                     end) (length r) (c1 :: r1) []
            end
          else if startswith s (py "null") then Parsed JNull (skipn 4 s)
          else if startswith s (py "true") then Parsed (JBool true) (skipn 4 s)
          else if startswith s (py "false") then Parsed (JBool false) (skipn 5 s)
          else if startswith s (py "NaN") || startswith s (py "Infinity")
                  || startswith s (py "-Infinity") then Unsupported
          else scan_number s
      end
  end.

(** [json.loads]: leading and trailing white space is allowed, anything
    else after the value is an error. *)
Definition json_loads (s : str) : result json :=
  let s := skip_ws s in
  match scan_value (S (length s)) s with
  | Parsed v rest =>
      match skip_ws rest with
      | [] => inr v
      | _ :: _ => inl JSONDecodeError
      end
  | Invalid => inl JSONDecodeError
  | Unsupported => inl Unmodelled
  end.

(** ** The file system of the build scripts

    The scripts name three paths, all children of the project directory:
    [src_dir] (the extension sources), [dist_dir] (the staging directory)
    and [zip_path] (the output archive).  A directory lists its entries in
    the order [os.scandir] reports them.  Paths below [dist_dir] are kept
    as lists of components relative to it. *)

#[warnings="-register-all"] Inductive node :=
| File (data : str)
| Dir (entries : list (str * node)).

(** What can exist at [zip_path]. *)
Inductive zip_node :=
| ZipArchive (members : list (str * str))   (* (arcname, data), in write order *)
| OtherFile
| OtherDir.

Record fs := mkFs {
  src_dir : option node;
  dist_dir : option node;
  zip_path : option zip_node;
  stdout : list str
}.

Definition set_dist_dir (d : option node) (s : fs) : fs :=
  mkFs (src_dir s) d (zip_path s) (stdout s).

Definition set_zip_path (z : option zip_node) (s : fs) : fs :=
  mkFs (src_dir s) (dist_dir s) z (stdout s).

Definition is_dir (n : node) : bool :=
  match n with Dir _ => true | File _ => false end.

Definition dirs_of (entries : list (str * node)) : list str :=
  map fst (filter (fun e => is_dir (snd e)) entries).

Definition files_of (entries : list (str * node)) : list str :=
  map fst (filter (fun e => negb (is_dir (snd e))) entries).

(** Resolution of a relative path. *)
Fixpoint lookup_path (n : node) (p : list str) : option node :=
  match p with
  | [] => Some n
  | name :: p' =>
      match n with
      | Dir entries =>
          match dict_get entries name with
          | Some child => lookup_path child p'
          | None => None
          end
      | File _ => None
      end
  end.

(** [os.walk(top)], top-down: each directory yields
    [(root, dirs, files)] and is followed by the walks of its
    sub-directories. *)
Fixpoint walk (top : list str) (n : node) {struct n}
  : list (list str * list str * list str) :=
  match n with
  | File _ => []
  | Dir entries =>
      (top, dirs_of entries, files_of entries)
      :: flat_map (fun '(name, child) => walk (top ++ [name]) child) entries
  end.

(** [os.path.sep] on the platform of the hard-coded paths. *)
Definition os_path_sep : ascii := backslash.

Fixpoint join (sep : str) (parts : list str) : str :=
  match parts with
  | [] => []
  | [x] => x
  | x :: rest => x ++ sep ++ join sep rest
  end.

(** [os.path.relpath(os.path.join(root, file), dist_dir)] on component
    lists. *)
Definition relpath (file_path : list str) : str := join [os_path_sep] file_path.

(** [s.replace(old, new)] for one-character [old] and [new]. *)
Definition replace (s : str) (old new : ascii) : str :=
  map (fun c => if Ascii.eqb c old then new else c) s.

(** *** Exceptions and state *)

Definition M (A : Type) : Type := fs -> result A * fs.

Definition ret {A} (a : A) : M A := fun s => (inr a, s).

Definition raise {A} (e : exn) : M A := fun s => (inl e, s).

Definition bind {A B} (m : M A) (k : A -> M B) : M B :=
  fun s =>
    match m s with
    | (inr a, s') => k a s'
    | (inl e, s') => (inl e, s')
    end.

Declare Scope fs_scope.
Delimit Scope fs_scope with fs.
Notation "x <- m ;; k" := (bind m (fun x => k))
  (at level 100, m at next level, right associativity) : fs_scope.
Notation "m ;; k" := (bind m (fun _ => k))
  (at level 100, right associativity) : fs_scope.

Fixpoint for_each {A} (l : list A) (body : A -> M unit) : M unit :=
  match l with
  | [] => ret tt
  | x :: l' => (body x ;; for_each l' body)%fs
  end.

Definition lift {A} (r : result A) : M A := fun s => (r, s).

(** *** File-system calls of the scripts *)

(** [os.path.exists(dist_dir)] *)
Definition exists_dist_dir : M bool :=
  fun s => (inr (match dist_dir s with Some _ => true | None => false end), s).

(** [shutil.rmtree(dist_dir)] *)
Definition rmtree_dist_dir : M unit :=
  fun s =>
    match dist_dir s with
    | Some (Dir _) => (inr tt, set_dist_dir None s)
    | _ => (inl OSError, s)
    end.

(** [os.path.exists(zip_path)] *)
Definition exists_zip_path : M bool :=
  fun s => (inr (match zip_path s with Some _ => true | None => false end), s).

(** [os.remove(zip_path)] *)
Definition remove_zip_path : M unit :=
  fun s =>
    match zip_path s with
    | Some (ZipArchive _) | Some OtherFile => (inr tt, set_zip_path None s)
    | _ => (inl OSError, s)
    end.

(** [shutil.copytree(src_dir, dist_dir)] *)
Definition copytree : M unit :=
  fun s =>
    match src_dir s, dist_dir s with
    | Some (Dir entries), None => (inr tt, set_dist_dir (Some (Dir entries)) s)
    | _, _ => (inl OSError, s)
    end.

Definition manifest_json : str := py "manifest.json".

(** [with open(manifest_path, 'r', encoding='utf-8') as f: json.load(f)] *)
Definition load_manifest : M json :=
  fun s =>
    match dist_dir s with
    | Some (Dir entries) =>
        match dict_get entries manifest_json with
        | Some (File text) => (json_loads text, s)
        | _ => (inl OSError, s)
        end
    | _ => (inl OSError, s)
    end.

(** [with open(manifest_path, 'w', encoding='utf-8') as f:
       json.dump(manifest, f, indent=4)] *)
Definition dump_manifest (manifest : json) : M unit :=
  fun s =>
    match dist_dir s with
    | Some (Dir entries) =>
        match dict_get entries manifest_json with
        | Some (Dir _) => (inl OSError, s)
        | _ =>
            (inr tt,
             set_dist_dir
               (Some (Dir (dict_set entries manifest_json (File (json_dumps manifest))))) s)
        end
    | _ => (inl OSError, s)
    end.

(** [zipfile.ZipFile(zip_path, 'w', zipfile.ZIP_DEFLATED)] *)
Definition zip_open : M unit :=
  fun s =>
    match zip_path s with
    | Some OtherDir => (inl OSError, s)
    | _ => (inr tt, set_zip_path (Some (ZipArchive [])) s)
    end.

(** [os.walk(dist_dir)] *)
Definition walk_dist_dir : M (list (list str * list str * list str)) :=
  fun s =>
    (inr (match dist_dir s with Some n => walk [] n | None => [] end), s).

(** [zipf.write(file_path, arcname)]: a regular file is stored under
    [arcname] with its data, a directory as an empty member whose name
    ends in a slash. *)
Definition zip_write (file_path : list str) (arcname : str) : M unit :=
  fun s =>
    match zip_path s with
    | Some (ZipArchive members) =>
        match dist_dir s with
        | Some n =>
            match lookup_path n file_path with
            | Some (File data) =>
                (inr tt, set_zip_path (Some (ZipArchive (members ++ [(arcname, data)]))) s)
            | Some (Dir _) =>
                (inr tt,
                 set_zip_path (Some (ZipArchive (members ++ [(arcname ++ py "/", [])]))) s)
            | None => (inl OSError, s)
            end
        | None => (inl OSError, s)
        end
    | _ => (inl OSError, s)
    end.

Definition print (line : str) : M unit :=
  fun s => (inr tt, mkFs (src_dir s) (dist_dir s) (zip_path s) (stdout s ++ [line])).

(** *** Blocks shared by the two build scripts *)

(** [# Clean up] *)
Definition clean_up : M unit :=
  (stale <- exists_dist_dir ;;
   (if stale : bool then rmtree_dist_dir else ret tt) ;;
   stale <- exists_zip_path ;;
   (if stale : bool then remove_zip_path else ret tt))%fs.

(** [# Copy files] *)
Definition copy_files : M unit := copytree.

(** [# Create ZIP with forward slashes]; [skip file] is the test guarding
    [continue] in the loop body. *)
Definition create_zip (skip : str -> bool) : M unit :=
  (zip_open ;;
   triples <- walk_dist_dir ;;
   for_each triples (fun '(root, dirs, files) =>
     for_each files (fun file =>
       if skip file then ret tt
       else
         let file_path := root ++ [file] in
         let arcname := replace (relpath file_path) os_path_sep "/"%char in
         zip_write file_path arcname)))%fs.

(** [# Final cleanup] *)
Definition final_cleanup : M unit := rmtree_dist_dir.

(** *** [build_chrome_extension.py] *)

Module build_chrome_extension.

Definition zip_path_text : str :=
  py "c:\Users\nrame\OneDrive\Desktop\Link Sharing App\kurate-chrome.zip".

(** Line 28: [file.endswith('.md')] *)
Definition skip (file : str) : bool := endswith file (py ".md").

Definition build_chrome_zip : M unit :=
  (clean_up ;;
   copy_files ;;
   create_zip skip ;;
   final_cleanup ;;
   print (py "Successfully created " ++ zip_path_text))%fs.

End build_chrome_extension.

(** *** [build_firefox_extension.py] *)

Module build_firefox_extension.

Definition zip_path_text : str :=
  py "c:\Users\nrame\OneDrive\Desktop\Link Sharing App\kurate-firefox.zip".

(** The loop body has no [continue]. *)
Definition skip (file : str) : bool := false.

(** [# Fix manifest.json for Firefox], lines 20-40 *)
Definition fix_manifest_json : M unit :=
  (manifest <- load_manifest ;;
   manifest <- lift (fix_manifest manifest) ;;
   dump_manifest manifest)%fs.

Definition build_firefox_zip : M unit :=
  (clean_up ;;
   copy_files ;;
   fix_manifest_json ;;
   create_zip skip ;;
   final_cleanup ;;
   print (py "Successfully created " ++ zip_path_text))%fs.

End build_firefox_extension.

(** ** Vocabulary of the statements *)

(** File names as the platform allows them: non-empty and free of both
    separators. *)
Definition name_ok (name : str) : bool :=
  match name with
  | [] => false
  | _ :: _ =>
      forallb (fun c => negb (Ascii.eqb c "/"%char) && negb (Ascii.eqb c os_path_sep)) name
  end.

Fixpoint distinct (names : list str) : bool :=
  match names with
  | [] => true
  | x :: rest => negb (existsb (str_eqb x) rest) && distinct rest
  end.

(** A directory tree whose listings have admissible, pairwise distinct
    names. *)
Fixpoint wf_node (n : node) : bool :=
  match n with
  | File _ => true
  | Dir entries =>
      forallb name_ok (map fst entries) && distinct (map fst entries)
      && forallb (fun '(_, child) => wf_node child) entries
  end.

(** The archive-relative name of the specification: the components of
    the path joined by forward slashes. *)
Definition slash_name (p : list str) : str := join (py "/") p.

(** The members of the archive at [zip_path]. *)
Definition archive_members (s : fs) : option (list (str * str)) :=
  match zip_path s with
  | Some (ZipArchive members) => Some members
  | _ => None
  end.

(** The transformation of the manifest [JDict d] succeeds and leaves a
    [background] object without [service_worker] whose [scripts] is the
    list [l]. *)
Definition transforms_to_scripts (d : list (str * json)) (l : list json) : Prop :=
  exists d' bg',
    fix_manifest (JDict d) = inr (JDict d')
    /\ dict_get d' background = Some (JDict bg')
    /\ dict_get bg' service_worker = None
    /\ dict_get bg' scripts = Some (JList l).

(** The name the scripts compute for a staged file (their [arcname]). *)
Definition arcname (file_path : list str) : str :=
  replace (relpath file_path) os_path_sep "/"%char.

(** The regular files below a directory, as relative paths with their
    data: first the files of the directory itself, then those of each
    sub-directory. *)
Fixpoint rel_files (n : node) : list (list str * str) :=
  match n with
  | File _ => []
  | Dir entries =>
      flat_map (fun '(name, child) =>
                  match child with
                  | File data => [([name], data)]
                  | Dir _ => []
                  end) entries
      ++ flat_map (fun '(name, child) =>
                     map (fun qd => (name :: fst qd, snd qd)) (rel_files child)) entries
  end.

(** A member named [name] occurs exactly once. *)
Definition exactly_one (name : str) (members : list (str * str)) : Prop :=
  length (filter (fun m => str_eqb (fst m) name) members) = 1%nat.

(** The archive [members] holds exactly the regular files of [tree] that
    [skip] does not exclude, each once, under its slash-separated relative
    path and with its data. *)
Definition archive_of (skip : str -> bool) (tree : node) (members : list (str * str)) : Prop :=
  (forall p data,
      lookup_path tree p = Some (File data) ->
      if skip (last p [])
      then ~ In (slash_name p) (map fst members)
      else In (slash_name p, data) members /\ exactly_one (slash_name p) members)
  /\ (forall name data,
         In (name, data) members ->
         exists p, lookup_path tree p = Some (File data)
                   /\ name = slash_name p /\ skip (last p []) = false).

(** Characters other than the two separators. *)
Definition plain (c : ascii) : Prop := c <> "/"%char /\ c <> os_path_sep.

(** The files the archive loop keeps. *)
Definition keep (skip : str -> bool) (qd : list str * str) : bool :=
  negb (skip (last (fst qd) [])).

(** The members the archive loop writes for the staging tree [n]. *)
Definition members_of (skip : str -> bool) (n : node) : list (str * str) :=
  map (fun qd => (arcname (fst qd), snd qd)) (filter (keep skip) (rel_files n)).

(** The body of the outer loop of [create_zip]. *)
Definition zip_body (skip : str -> bool) : list str * list str * list str -> M unit :=
  fun '(root, dirs, files) =>
    for_each files (fun file =>
      if skip file then ret tt
      else zip_write (root ++ [file]) (arcname (root ++ [file]))).

(** A computation keeps an invariant of the file system, whether it
    returns or raises. *)
Definition preserves {A} (I : fs -> Prop) (m : M A) : Prop :=
  forall s r s', I s -> m s = (r, s') -> I s'.

(** The tree stager of the specification: the first two blocks of either
    build script. *)
Definition stage : M unit := (clean_up ;; copy_files)%fs.

(** The frame of the manifest transformation on the top-level entries:
    same keys in the same order, same values except under [background]. *)
Definition same_but_background (d d' : list (str * json)) : Prop :=
  Forall2 (fun e e' => fst e' = fst e /\ (fst e <> background -> snd e' = snd e)) d d'.

(** ... and inside [background]: every key other than [service_worker]
    and [scripts] keeps its value. *)
Definition same_background_rest (d d' : list (str * json)) : Prop :=
  forall bg bg' k,
    dict_get d background = Some (JDict bg) ->
    dict_get d' background = Some (JDict bg') ->
    k <> service_worker -> k <> scripts ->
    dict_get bg' k = dict_get bg k.

(** Leftovers of an earlier build that [# Clean up] can remove: a staging
    directory (not a file of that name) and an archive or other file (not
    a directory) at [zip_path]. *)
Definition removable_leftovers (s : fs) : bool :=
  match dist_dir s with Some (File _) => false | _ => true end
  && match zip_path s with Some OtherDir => false | _ => true end.


(** ** Further vocabulary *)

(** The world a run of a patch script leaves behind. *)
Definition outcome_world (o : Patch.outcome) : Patch.world :=
  match o with
  | Patch.Raised w => w
  | Patch.Exited _ w => w
  | Patch.Finished w => w
  end.

(** The value of [end_idx] on line 32 of [update_js.py]: the offset of
    the strict end marker, or of the loose one when the strict one is not
    found. *)
Definition found_end_idx (content : str) : Z :=
  if find content update_js.end_marker =? -1
  then find content update_js.loose_end_marker
  else find content update_js.end_marker.

(** A manifest of the shape extension manifests have where the
    transformation looks: an object whose [background], if present, is an
    object whose [scripts], if present, is a list. *)
Definition well_shaped (m : json) : bool :=
  match m with
  | JDict d =>
      match dict_get d background with
      | None => true
      | Some (JDict bg) =>
          match dict_get bg scripts with
          | None | Some (JList _) => true
          | Some _ => false
          end
      | Some _ => false
      end
  | _ => false
  end.

(** Values all of whose objects have pairwise distinct keys, as every
    value built by [json.load] has. *)
Fixpoint unique_keys (v : json) : bool :=
  match v with
  | JList l => forallb unique_keys l
  | JDict d => distinct (map fst d) && forallb (fun '(_, x) => unique_keys x) d
  | _ => true
  end.

(** The number of items of a list that Python's [==] equates with [x]. *)
Definition py_count (x : json) (l : list json) : nat := length (filter (py_eq x) l).

(** The file system once [# Clean up] has removed the leftovers. *)
Definition cleaned (s : fs) : fs := mkFs (src_dir s) None None (stdout s).

(** The line either build script prints on success. *)
Definition chrome_done : str :=
  py "Successfully created " ++ build_chrome_extension.zip_path_text.
Definition firefox_done : str :=
  py "Successfully created " ++ build_firefox_extension.zip_path_text.

(** A computation leaves the sources and the printed lines alone, whether
    it returns or raises. *)
Definition keeps_sources_and_output {A} (m : M A) : Prop :=
  forall s r s', m s = (r, s') -> src_dir s' = src_dir s /\ stdout s' = stdout s.

(** A computation leaves the sources alone and prints [line], once, when
    and only when it returns. *)
Definition prints_on_success {A} (line : str) (m : M A) : Prop :=
  forall s r s',
    m s = (r, s') ->
    src_dir s' = src_dir s
    /\ stdout s' = stdout s ++ match r with inr _ => [line] | inl _ => [] end.

(** The sources are not a directory. *)
Definition no_source_dir (s : fs) : bool :=
  match src_dir s with Some (Dir _) => false | _ => true end.

(** ** Concrete inputs used by the examples below *)

Module Fixtures.
Import Patch.

(** The usual snippets: each begins with the start marker of its
    script. *)
Definition styles_snippet : str := py "function getStylesCSS() { return css; }".
Definition links_snippet : str := py "renderLinks() { draw(); }".

(** An [index.js] with neither marker of either script. *)
Definition w_no_markers : world :=
  mkWorld (Some (py "const app = 1;")) (Some styles_snippet) (Some links_snippet) [].

(** An [index.js] whose [copyLink] method is not [async]. *)
Definition index_loose_end : str := py "renderLinks() { old(); } copyLink(url) { }".
Definition w_loose_end : world :=
  mkWorld (Some index_loose_end) None (Some links_snippet) [].

(** An [index.js] with the [async copyLink] method. *)
Definition index_strict_end : str :=
  py "renderLinks() { old(); } async copyLink(url) { }".
Definition w_strict_end : world :=
  mkWorld (Some index_strict_end) None (Some links_snippet) [].

(** An [index.js] without [renderLinks]. *)
Definition index_no_start : str := py "class App { async copyLink(url) { } }".
Definition w_no_start : world :=
  mkWorld (Some index_no_start) None (Some links_snippet) [].

(** An [index.js] with both functions of [update_index.py]. *)
Definition index_styles : str :=
  py "// app" ++ [nl] ++ py "function getStylesCSS() { return old; }" ++ [nl]
  ++ py "function getAppJS() { return js; }".
Definition w_styles : world :=
  mkWorld (Some index_styles) (Some styles_snippet) None [].

(** The same [index.js] with a snippet that itself mentions the end
    marker. *)
Definition w_styles_end_in_snippet : world :=
  mkWorld (Some index_styles)
          (Some (py "function getStylesCSS() { /* before function getAppJS() { */ }"))
          None [].

(** The end-to-end scenario of the specification. *)
Definition fs_three_files : fs :=
  mkFs (Some (Dir [(manifest_json, File (py "{}"));
                   (py "icon.png", File (py "PNG"));
                   (py "README.md", File (py "# kurate"))])) None None [].

(** Manifests for the transformation. *)
Definition manifest_plain : list (str * json) :=
  [(py "manifest_version", JInt 3); (py "name", JStr (py "kurate"))].

Definition manifest_sw_only : list (str * json) :=
  [(py "manifest_version", JInt 3);
   (background, JDict [(service_worker, JStr (py "bg.js")); (py "type", JStr (py "module"))]);
   (py "name", JStr (py "kurate"))].

Definition manifest_sw_only_fixed : list (str * json) :=
  [(py "manifest_version", JInt 3);
   (background, JDict [(py "type", JStr (py "module")); (scripts, JList [JStr (py "bg.js")])]);
   (py "name", JStr (py "kurate"))].

Definition manifest_sw_and_other : list (str * json) :=
  [(background, JDict [(service_worker, JStr (py "bg.js"));
                       (scripts, JList [JStr (py "other.js")])])].

Definition manifest_sw_listed : list (str * json) :=
  [(background, JDict [(service_worker, JStr (py "bg.js"));
                       (scripts, JList [JStr (py "bg.js"); JStr (py "other.js")])])].

Definition manifest_scripts_only : list (str * json) :=
  [(background, JDict [(scripts, JList [JStr (py "bg.js")])])].

(** JSON text written with apostrophes for the double quotes. *)
Definition json_text (s : string) : str := replace (py s) "'"%char dquote.

(** A compactly written manifest. *)
Definition compact_manifest : str :=
  json_text "{'name':'kurate','background':{'service_worker':'bg.js'}}".

Definition compact_manifest_parsed : list (str * json) :=
  [(py "name", JStr (py "kurate"));
   (background, JDict [(service_worker, JStr (py "bg.js"))])].

Definition compact_manifest_fixed : list (str * json) :=
  [(py "name", JStr (py "kurate"));
   (background, JDict [(scripts, JList [JStr (py "bg.js")])])].

(** A source tree with documentation, a nested asset and an empty
    directory; nothing is staged and no archive exists. *)
Definition extension_tree : list (str * node) :=
  [(manifest_json, File compact_manifest);
   (py "icon.png", File (py "PNG"));
   (py "README.md", File (py "# kurate"));
   (py "lib", Dir [(py "bg.js", File (py "run();")); (py "notes.md", File (py "todo"))]);
   (py "empty", Dir [])].

Definition fs_fresh : fs := mkFs (Some (Dir extension_tree)) None None [].

(** The same sources after an earlier build: a stale staging directory
    and a stale archive are present. *)
Definition fs_stale : fs :=
  mkFs (Some (Dir extension_tree)) (Some (Dir [(py "old", File [])]))
       (Some (ZipArchive [(py "old", [])])) [].

(** Sources whose manifest is not JSON. *)
Definition fs_bad_manifest : fs :=
  mkFs (Some (Dir [(manifest_json, File (py "{"))])) None
       (Some (ZipArchive [(py "old", [])])) [].

End Fixtures.


Module MoreFixtures.
Import Patch.

(** An [index.js] in which [getAppJS] is defined before [getStylesCSS]. *)
Definition index_reversed : str :=
py "function getAppJS() { return js; }" ++ [nl]
++ py "function getStylesCSS() { return old; }".
Definition w_reversed : world :=
mkWorld (Some index_reversed) (Some Fixtures.styles_snippet) None [].

(** A manifest whose [service_worker] is an object. *)
Definition manifest_sw_object : list (str * json) :=
[(background, JDict [(service_worker, JDict [(py "file", JStr (py "bg.js"))]);
                     (scripts, JList [JDict [(py "file", JStr (py "bg.js"))]])])].

(** No sources at all, with the results of an earlier build around. *)
Definition fs_no_sources : fs :=
mkFs None (Some (Dir [(py "old", File [])])) (Some (ZipArchive [(py "old", [])])) [].

(** A regular file where the staging directory should be. *)
Definition fs_dist_is_file : fs :=
mkFs (Some (Dir Fixtures.extension_tree)) (Some (File (py "x")))
     (Some (ZipArchive [(py "old", [])])) [].

(** A directory where the archive should be. *)
Definition fs_zip_is_dir : fs :=
mkFs (Some (Dir Fixtures.extension_tree)) (Some (Dir [(py "old", File [])]))
     (Some OtherDir) [].

(** Sources without a manifest. *)
Definition fs_no_manifest : fs :=
mkFs (Some (Dir [(py "icon.png", File (py "PNG"))])) None None [].

End MoreFixtures.

(** ** Facts about strings *)

Section StringFacts.

Lemma str_eqb_eq (a b : str) : str_eqb a b = true <-> a = b.
Proof.
  revert b; induction a as [|x a IH]; intros [|y b]; simpl; split;
    try discriminate; try reflexivity.
  - intros H. apply andb_true_iff in H as [Hx Hab].
    apply Ascii.eqb_eq in Hx. apply IH in Hab. now subst.
  - intros H. injection H as -> ->. rewrite Ascii.eqb_refl. simpl. now apply IH.
Qed.

Lemma str_eqb_refl (a : str) : str_eqb a a = true.
Proof. now apply str_eqb_eq. Qed.

Lemma str_eqb_neq (a b : str) : str_eqb a b = false <-> a <> b.
Proof.
  split.
  - intros H E. apply str_eqb_eq in E. congruence.
  - intros H. destruct (str_eqb a b) eqn:E; [|reflexivity].
    apply str_eqb_eq in E. contradiction.
Qed.

Lemma startswith_app (m t : str) : startswith (m ++ t) m = true.
Proof. induction m as [|c m IH]; simpl; [reflexivity|]. now rewrite Ascii.eqb_refl. Qed.

Lemma startswith_spec (s m : str) :
  startswith s m = true <-> exists t, s = m ++ t.
Proof.
  split.
  - revert s; induction m as [|c m IH]; intros s H; simpl in *.
    + now exists s.
    + destruct s as [|d s]; [discriminate|].
      apply andb_true_iff in H as [Hd Hs]. apply Ascii.eqb_eq in Hd. subst d.
      destruct (IH _ Hs) as [t ->]. now exists t.
  - intros [t ->]. apply startswith_app.
Qed.

(** [startswith] reads no further than the length of the marker. *)
Lemma startswith_app_l (x y m : str) :
  (length m <= length x)%nat -> startswith (x ++ y) m = startswith x m.
Proof.
  revert x; induction m as [|c m IH]; intros x H; simpl; [reflexivity|].
  destruct x as [|d x]; simpl in *; [lia|].
  rewrite IH by lia. reflexivity.
Qed.

Lemma startswith_nil_l (m : str) : m <> [] -> startswith [] m = false.
Proof. destruct m; [congruence|reflexivity]. Qed.

(** What [find_at] returns: [-1] when the marker occurs nowhere, and
    otherwise the offset of its first occurrence. *)
Lemma find_at_spec (s m : str) (k : nat) :
  (find_at k s m = -1 /\ forall j, startswith (skipn j s) m = false)
  \/ (exists j, find_at k s m = Z.of_nat (k + j) /\ (j <= length s)%nat
                /\ startswith (skipn j s) m = true
                /\ forall j', (j' < j)%nat -> startswith (skipn j' s) m = false).
Proof.
  revert k; induction s as [|c s IH]; intros k.
  - simpl. destruct (startswith [] m) eqn:E.
    + right. exists 0%nat. rewrite Nat.add_0_r. simpl. repeat split; auto. lia.
    + left. split; [reflexivity|]. intros j. now destruct j.
  - cbn [find_at]. destruct (startswith (c :: s) m) eqn:E.
    + right. exists 0%nat. rewrite Nat.add_0_r. simpl. repeat split; auto; lia.
    + destruct (IH (S k)) as [[Hf Hall]|[j (Hf & Hj & Hs & Hmin)]].
      * left. split; [assumption|]. intros [|j]; simpl; auto.
      * right. exists (S j). rewrite Hf. simpl length. repeat split.
        -- f_equal. lia.
        -- lia.
        -- exact Hs.
        -- intros [|j'] Hlt; simpl; [assumption|]. apply Hmin. lia.
Qed.

Lemma find_spec (s m : str) :
  (find s m = -1 /\ forall j, startswith (skipn j s) m = false)
  \/ (exists j, find s m = Z.of_nat j /\ (j <= length s)%nat
                /\ startswith (skipn j s) m = true
                /\ forall j', (j' < j)%nat -> startswith (skipn j' s) m = false).
Proof. exact (find_at_spec s m 0). Qed.

Lemma find_range (s m : str) : -1 <= find s m <= len s.
Proof.
  unfold len. destruct (find_spec s m) as [[H _]|[j (H & Hj & _)]]; rewrite H; lia.
Qed.

(** A found marker: the offset as a natural number. *)
Lemma find_found (s m : str) :
  find s m <> -1 ->
  exists j, find s m = Z.of_nat j /\ (j <= length s)%nat
            /\ startswith (skipn j s) m = true
            /\ forall j', (j' < j)%nat -> startswith (skipn j' s) m = false.
Proof. destruct (find_spec s m) as [[H _]|H]; [congruence|intros _; exact H]. Qed.

Lemma find_none (s m : str) :
  find s m = -1 <-> forall j, startswith (skipn j s) m = false.
Proof.
  split.
  - intros H. destruct (find_spec s m) as [[_ Hall]|[j (Hf & _)]]; [assumption|lia].
  - intros Hall. destruct (find_spec s m) as [[H _]|[j (_ & _ & Hs & _)]]; [assumption|].
    rewrite Hall in Hs. discriminate.
Qed.

(** The first occurrence determines the result of [find]. *)
Lemma find_first (s m : str) (j : nat) :
  startswith (skipn j s) m = true ->
  (forall j', (j' < j)%nat -> startswith (skipn j' s) m = false) ->
  find s m = Z.of_nat j.
Proof.
  intros Hs Hmin.
  destruct (find_spec s m) as [[_ Hall]|[i (Hf & _ & Hi & Himin)]].
  - rewrite Hall in Hs. discriminate.
  - rewrite Hf. f_equal.
    destruct (Nat.lt_trichotomy i j) as [Hlt|[->|Hgt]]; [|reflexivity|].
    + rewrite (Hmin _ Hlt) in Hi. discriminate.
    + rewrite (Himin _ Hgt) in Hs. discriminate.
Qed.

(** An occurrence anywhere rules out [-1]. *)
Lemma find_occurs (x m y : str) : find (x ++ m ++ y) m <> -1.
Proof.
  intros H. rewrite find_none in H. specialize (H (length x)).
  rewrite skipn_app, skipn_all, Nat.sub_diag in H. simpl in H.
  rewrite startswith_app in H. discriminate.
Qed.

Lemma norm_index_nonneg (n : nat) (i : nat) :
  norm_index n (Z.of_nat i) = Nat.min i n.
Proof.
  unfold norm_index. destruct (Z.ltb_spec (Z.of_nat i) 0); lia.
Qed.

Lemma slice_to_nat (s : str) (i : nat) : slice_to s (Z.of_nat i) = firstn i s.
Proof.
  unfold slice_to. rewrite norm_index_nonneg.
  destruct (Nat.le_ge_cases i (length s)).
  - now rewrite Nat.min_l.
  - rewrite Nat.min_r by assumption. now rewrite !firstn_all2 by lia.
Qed.

Lemma slice_from_nat (s : str) (i : nat) : slice_from s (Z.of_nat i) = skipn i s.
Proof.
  unfold slice_from. rewrite norm_index_nonneg.
  destruct (Nat.le_ge_cases i (length s)).
  - now rewrite Nat.min_l.
  - rewrite Nat.min_r by assumption. now rewrite !skipn_all2 by lia.
Qed.

Lemma slice_nat (s : str) (i j : nat) :
  slice s (Z.of_nat i) (Z.of_nat j) = firstn (j - i) (skipn i s).
Proof.
  unfold slice. rewrite !norm_index_nonneg.
  destruct (Nat.le_ge_cases i (length s)) as [Hi|Hi].
  - rewrite (Nat.min_l i) by assumption.
    destruct (Nat.le_ge_cases j (length s)) as [Hj|Hj].
    + now rewrite Nat.min_l.
    + rewrite Nat.min_r by assumption.
      rewrite !firstn_all2; try reflexivity; rewrite length_skipn; lia.
  - rewrite (Nat.min_r i) by assumption. rewrite !skipn_all2 by lia.
    now rewrite !firstn_nil.
Qed.

(** The slice at a found marker begins with the marker. *)
Lemma slice_from_find (s m : str) :
  find s m <> -1 -> exists rest, slice_from s (find s m) = m ++ rest.
Proof.
  intros H. destruct (find_found s m H) as [j (Hf & _ & Hs & _)].
  rewrite Hf, slice_from_nat. now apply startswith_spec.
Qed.

(** The shape of a splice at natural offsets: the kept prefix, the
    replacement, the separator and the kept suffix can be read back. *)
Lemma splice_shape (B R sep : str) (i j : nat) :
  (i <= length B)%nat ->
  let N := firstn i B ++ R ++ sep ++ skipn j B in
  firstn i N = firstn i B
  /\ firstn (length R) (skipn i N) = R
  /\ skipn (i + length R + length sep) N = skipn j B.
Proof.
  intros Hi N. subst N.
  assert (Hl : length (firstn i B) = i) by (rewrite length_firstn; lia).
  repeat split.
  - rewrite firstn_app, Hl, Nat.sub_diag. simpl. rewrite app_nil_r.
    rewrite firstn_all2; [reflexivity|lia].
  - rewrite skipn_app, Hl, Nat.sub_diag. simpl.
    rewrite skipn_all2 by lia. simpl.
    rewrite firstn_app, Nat.sub_diag. simpl. rewrite app_nil_r.
    now rewrite firstn_all.
  - rewrite !app_assoc. rewrite skipn_app.
    assert (E : length ((firstn i B ++ R) ++ sep) = (i + length R + length sep)%nat)
      by (rewrite !length_app; lia).
    rewrite <- E. rewrite skipn_all, Nat.sub_diag. reflexivity.
Qed.

End StringFacts.

(** ** The patch scripts *)

Section PatchFacts.
Import Patch.

(** The three slices of a splice, at natural offsets and for any
    separator. *)
Lemma splice_slices (B R sep : str) (a b : nat) :
  (a <= length B)%nat ->
  let i := Z.of_nat a in
  let N := slice_to B i ++ R ++ sep ++ slice_from B (Z.of_nat b) in
  slice_to N i = slice_to B i
  /\ slice N i (i + len R) = R
  /\ slice_from N (i + len R + len sep) = slice_from B (Z.of_nat b).
Proof.
  intros Ha i N. subst i N. unfold len.
  replace (Z.of_nat a + Z.of_nat (length R)) with (Z.of_nat (a + length R)) by lia.
  replace (Z.of_nat (a + length R) + Z.of_nat (length sep))
    with (Z.of_nat (a + length R + length sep)) by lia.
  rewrite !slice_to_nat, !slice_from_nat, slice_nat.
  replace (a + length R - a)%nat with (length R) by lia.
  exact (splice_shape B R sep a b Ha).
Qed.

End PatchFacts.

(** C3: a splice keeps the buffer before the start marker, then holds the
    replacement, and after the separator holds the buffer from the end
    marker on; this is so at both call sites, each with its own
    separator. *)
Theorem splice_prefix_replacement_suffix (B R start_marker end_marker : str) (i j : Z) :
  find B start_marker = i -> find B end_marker = j ->
  i <> -1 -> j <> -1 -> i <= j ->
  (let N := update_index.new_content B R i j in
   slice_to N i = slice_to B i
   /\ slice N i (i + len R) = R
   /\ slice_from N (i + len R + len update_index.separator) = slice_from B j)
  /\
  (let N := update_js.new_content B R i j in
   slice_to N i = slice_to B i
   /\ slice N i (i + len R) = R
   /\ slice_from N (i + len R + len update_js.separator) = slice_from B j).
Proof.
  intros Hi Hj Hi1 Hj1 _. subst i j.
  destruct (find_found _ _ Hi1) as [a (Ea & Ha & _)].
  destruct (find_found _ _ Hj1) as [b (Eb & _)].
  rewrite Ea, Eb.
  split.
  - exact (splice_slices B R update_index.separator a b Ha).
  - exact (splice_slices B R update_js.separator a b Ha).
Qed.

Lemma splice_prefix_replacement_suffix_witness :
  slice_to (update_js.new_content Fixtures.index_strict_end Fixtures.links_snippet 0 25) 0
  = slice_to Fixtures.index_strict_end 0
  /\ slice (update_js.new_content Fixtures.index_strict_end Fixtures.links_snippet 0 25)
         0 (0 + len Fixtures.links_snippet)
     = Fixtures.links_snippet
  /\ slice_from (update_js.new_content Fixtures.index_strict_end Fixtures.links_snippet 0 25)
         (0 + len Fixtures.links_snippet + len update_js.separator)
     = slice_from Fixtures.index_strict_end 25.
Proof.
  exact (proj2 (splice_prefix_replacement_suffix Fixtures.index_strict_end
                  Fixtures.links_snippet update_js.start_marker update_js.end_marker
                  0 25 eq_refl eq_refl
                  ltac:(discriminate) ltac:(discriminate) ltac:(lia))).
Defined.

(** C1, as the scripts implement it: [update_index.py] stops with status
    1 and without writing when either marker is missing; [update_js.py]
    does so when the end marker is missing in both its strict and its
    loose form, and goes on to write when only the strict form is missing. *)
Theorem missing_marker_exits (w : Patch.world) (content css new_func : str) :
  Patch.index_js w = Some content ->
  Patch.new_styles_snippet_js w = Some css ->
  Patch.new_render_links_snippet_js w = Some new_func ->
  (find content update_index.start_marker = -1
   \/ find content update_index.end_marker = -1 ->
   exists w', update_index.run w = Patch.Exited 1 w'
              /\ Patch.index_js w' = Patch.index_js w
              /\ Patch.stdout w' = Patch.stdout w ++ [py "Error: Could not find markers"])
  /\
  (find content update_js.end_marker = -1 ->
   find content update_js.loose_end_marker = -1 ->
   exists w', update_js.run w = Patch.Exited 1 w'
              /\ Patch.index_js w' = Patch.index_js w
              /\ In (py "Error: Could not find end marker strict or loose") (Patch.stdout w'))
  /\
  (find content update_js.start_marker <> -1 ->
   find content update_js.end_marker = -1 ->
   find content update_js.loose_end_marker <> -1 ->
   exists w', update_js.run w = Patch.Finished w'
              /\ Patch.index_js w'
                 = Some (update_js.new_content content new_func
                           (find content update_js.start_marker)
                           (find content update_js.loose_end_marker))).
Proof.
  intros Hc Hcss Hnew. repeat split.
  - intros Hmiss. unfold update_index.run. rewrite Hc, Hcss.
    assert (E : (find content update_index.start_marker =? -1)
                || (find content update_index.end_marker =? -1) = true).
    { apply orb_true_iff. destruct Hmiss as [H|H]; rewrite H; auto. }
    cbv zeta. rewrite E. eexists. split; [reflexivity|]. split; [exact Hc|reflexivity].
  - intros He Hl. unfold update_js.run. rewrite Hc, Hnew. cbv zeta.
    rewrite He, Hl. rewrite orb_true_r. simpl (-1 =? -1).
    cbv iota. eexists. split; [reflexivity|]. split; [exact Hc|].
    simpl. apply in_or_app. right. now left.
  - intros Hs He Hl. unfold update_js.run. rewrite Hc, Hnew. cbv zeta.
    rewrite He. rewrite orb_true_r. simpl (-1 =? -1). cbv iota.
    apply Z.eqb_neq in Hl. rewrite Hl.
    unfold update_js.splice_and_write. eexists. split; reflexivity.
Qed.

Lemma missing_marker_exits_witness :
  (exists w', update_index.run Fixtures.w_no_markers = Patch.Exited 1 w'
              /\ Patch.index_js w' = Patch.index_js Fixtures.w_no_markers
              /\ Patch.stdout w' = [py "Error: Could not find markers"])
  /\
  (exists w', update_js.run Fixtures.w_no_markers = Patch.Exited 1 w'
              /\ Patch.index_js w' = Patch.index_js Fixtures.w_no_markers
              /\ In (py "Error: Could not find end marker strict or loose") (Patch.stdout w')).
Proof.
  destruct (missing_marker_exits Fixtures.w_no_markers _ _ _ eq_refl eq_refl eq_refl)
    as (Hindex & Hjs & _).
  split.
  - apply Hindex. left. reflexivity.
  - apply Hjs; reflexivity.
Defined.

(** C1 as stated fails for [update_js.py]: with the end marker
    ['async copyLink(url) {'] absent the script still rewrites [index.js]
    when the loose marker is found. *)
Lemma missing_end_marker_still_written :
  find Fixtures.index_loose_end update_js.end_marker = -1
  /\ exists w',
       update_js.run Fixtures.w_loose_end = Patch.Finished w'
       /\ Patch.index_js w'
          = Some (py "renderLinks() { draw(); }" ++ [nl; nl] ++ py "    copyLink(url) { }")
       /\ Patch.index_js w' <> Patch.index_js Fixtures.w_loose_end.
Proof.
  split; [reflexivity|]. eexists. split; [reflexivity|]. split; [reflexivity|].
  discriminate.
Qed.

(** When only the start marker is missing, [update_js.py] reports the
    error and then splices at offset [-1], dropping the last character of
    the kept prefix. *)
Example missing_start_marker_still_written :
  find Fixtures.index_no_start update_js.start_marker = -1
  /\ exists w',
       update_js.run Fixtures.w_no_start = Patch.Finished w'
       /\ Patch.index_js w'
          = Some (py "class App { async copyLink(url) { } "
                  ++ py "renderLinks() { draw(); }" ++ [nl; nl]
                  ++ py "    async copyLink(url) { } }")
       /\ In (py "Error: Could not find markers") (Patch.stdout w').
Proof.
  split; [reflexivity|]. eexists. split; [reflexivity|]. split; [reflexivity|].
  simpl. auto.
Qed.

(** C9: the fallback of [update_js.py].  The script exits, with status
    1, exactly when the strict and the loose end marker are both absent;
    otherwise it writes a splice whose tail is the buffer from the marker
    it found, that marker included. *)
Theorem end_marker_fallback (w : Patch.world) (content new_func : str) :
  Patch.index_js w = Some content ->
  Patch.new_render_links_snippet_js w = Some new_func ->
  let start_idx := find content update_js.start_marker in
  (forall code w', update_js.run w = Patch.Exited code w' ->
     code = 1 /\ find content update_js.end_marker = -1
     /\ find content update_js.loose_end_marker = -1)
  /\
  (find content update_js.end_marker = -1 ->
   find content update_js.loose_end_marker = -1 ->
   exists w', update_js.run w = Patch.Exited 1 w')
  /\
  (find content update_js.end_marker = -1 ->
   find content update_js.loose_end_marker <> -1 ->
   exists w' rest,
     update_js.run w = Patch.Finished w'
     /\ slice_from content (find content update_js.loose_end_marker)
        = update_js.loose_end_marker ++ rest
     /\ Patch.index_js w'
        = Some (slice_to content start_idx ++ new_func ++ update_js.separator
                ++ update_js.loose_end_marker ++ rest))
  /\
  (find content update_js.end_marker <> -1 ->
   exists w' rest,
     update_js.run w = Patch.Finished w'
     /\ slice_from content (find content update_js.end_marker)
        = update_js.end_marker ++ rest
     /\ Patch.index_js w'
        = Some (slice_to content start_idx ++ new_func ++ update_js.separator
                ++ update_js.end_marker ++ rest)).
Proof.
  intros Hc Hnew start_idx. subst start_idx.
  unfold update_js.run. rewrite Hc, Hnew. cbv zeta.
  destruct (Z.eqb_spec (find content update_js.end_marker) (-1)) as [He|He];
    destruct (Z.eqb_spec (find content update_js.loose_end_marker) (-1)) as [Hl|Hl];
    rewrite ?orb_true_r, ?orb_false_r; cbv iota.
  - split; [|split; [|split]].
    + intros code w' H. now injection H as <- _.
    + intros _ _. eexists. reflexivity.
    + intros _ H. contradiction.
    + intros H. contradiction.
  - split; [|split; [|split]].
    + intros code w' H. discriminate H.
    + intros _ H. contradiction.
    + intros _ _. destruct (slice_from_find _ _ Hl) as [rest Hrest].
      eexists. exists rest. split; [reflexivity|]. split; [assumption|].
      simpl. unfold update_js.new_content. now rewrite Hrest.
    + intros H. contradiction.
  - split; [|split; [|split]].
    + intros code w' H.
      destruct (find content update_js.start_marker =? -1); discriminate H.
    + intros H. contradiction.
    + intros H. contradiction.
    + intros _. destruct (slice_from_find _ _ He) as [rest Hrest].
      destruct (find content update_js.start_marker =? -1);
        eexists; exists rest; (split; [reflexivity|]); (split; [assumption|]);
        simpl; unfold update_js.new_content; now rewrite Hrest.
  - split; [|split; [|split]].
    + intros code w' H.
      destruct (find content update_js.start_marker =? -1); discriminate H.
    + intros H. contradiction.
    + intros H. contradiction.
    + intros _. destruct (slice_from_find _ _ He) as [rest Hrest].
      destruct (find content update_js.start_marker =? -1);
        eexists; exists rest; (split; [reflexivity|]); (split; [assumption|]);
        simpl; unfold update_js.new_content; now rewrite Hrest.
Qed.

Lemma end_marker_fallback_witness :
  exists w' rest,
    update_js.run Fixtures.w_loose_end = Patch.Finished w'
    /\ slice_from Fixtures.index_loose_end
         (find Fixtures.index_loose_end update_js.loose_end_marker)
       = update_js.loose_end_marker ++ rest
    /\ Patch.index_js w'
       = Some (slice_to Fixtures.index_loose_end
                 (find Fixtures.index_loose_end update_js.start_marker)
               ++ Fixtures.links_snippet ++ update_js.separator
               ++ update_js.loose_end_marker ++ rest).
Proof.
  destruct (end_marker_fallback Fixtures.w_loose_end _ _ eq_refl eq_refl)
    as (_ & _ & Hloose & _).
  apply Hloose; [reflexivity|discriminate].
Defined.

Section SecondRun.
Import Patch.

(** A finished run of [update_index.py] found both markers and wrote
    the splice. *)
Lemma update_index_finished (w w1 : world) (content R : str) :
  index_js w = Some content ->
  new_styles_snippet_js w = Some R ->
  update_index.run w = Finished w1 ->
  find content update_index.start_marker <> -1
  /\ find content update_index.end_marker <> -1
  /\ index_js w1 = Some (update_index.new_content content R
                           (find content update_index.start_marker)
                           (find content update_index.end_marker))
  /\ new_styles_snippet_js w1 = Some R.
Proof.
  intros Hc HR. unfold update_index.run. rewrite Hc, HR. cbv zeta.
  destruct (Z.eqb_spec (find content update_index.start_marker) (-1)) as [Hs|Hs];
    [discriminate|].
  destruct (Z.eqb_spec (find content update_index.end_marker) (-1)) as [He|He];
    [discriminate|].
  simpl. intros H. injection H as <-. simpl. auto.
Qed.

(** A replacement that begins with the start marker leaves the first
    occurrence of the start marker where it was. *)
Lemma find_start_after_splice (B R tail m : str) (a : nat) :
  find B m = Z.of_nat a ->
  startswith R m = true ->
  find (firstn a B ++ R ++ tail) m = Z.of_nat a.
Proof.
  intros Hf HR.
  assert (Hne : find B m <> -1) by lia.
  destruct (find_found B m Hne) as [a' (Ea & Ha & Hs & Hmin)].
  assert (a' = a) by lia. subst a'.
  assert (Hl : length (firstn a B) = a) by (rewrite length_firstn; lia).
  apply startswith_spec in HR as [R' ->].
  apply startswith_spec in Hs as [restB HB].
  apply find_first.
  - rewrite skipn_app, Hl, Nat.sub_diag. rewrite skipn_all2 by lia. simpl.
    rewrite <- app_assoc. apply startswith_app.
  - intros j' Hlt. specialize (Hmin j' Hlt).
    rewrite <- (firstn_skipn a B) in Hmin. rewrite HB in Hmin.
    rewrite skipn_app in Hmin. rewrite skipn_app.
    rewrite Hl in *. replace (j' - a)%nat with 0%nat in * by lia.
    simpl skipn in *.
    rewrite <- app_assoc.
    rewrite (app_assoc (skipn j' (firstn a B)) m) in Hmin |- *.
    rewrite startswith_app_l in Hmin |- * by (rewrite length_app; lia).
    exact Hmin.
Qed.

(** Splicing a spliced buffer again.  [P] is the buffer after a first
    splice of [B] at the first occurrence [a] of the marker [s]; [tail]
    begins with the end marker [e].  When the first character of [s]
    occurs nowhere else in [s], a second splice at the first occurrences
    [a'] of [s] and [b'] of [e] in [P] gives [P] back only if these are
    the offsets of the first splice. *)
Lemma resplice_same_offsets (B R sep s e tail : str) (a a' b' : nat) :
  (a <= length B)%nat ->
  sep <> [] ->
  (forall j, (j < a)%nat -> startswith (skipn j B) s = false) ->
  startswith tail e = true ->
  existsb (Ascii.eqb (hd " "%char s)) (tl s) = false ->
  find (firstn a B ++ R ++ sep ++ tail) s = Z.of_nat a' ->
  find (firstn a B ++ R ++ sep ++ tail) e = Z.of_nat b' ->
  firstn a' (firstn a B ++ R ++ sep ++ tail) ++ R ++ sep
    ++ skipn b' (firstn a B ++ R ++ sep ++ tail)
  = firstn a B ++ R ++ sep ++ tail ->
  a' = a /\ b' = (a + length R + length sep)%nat.
Proof.
  intros Ha Hsep Hmin Htail Hhead Hfs Hfe Hsame.
  set (pre := firstn a B) in *.
  assert (Hl : length pre = a) by (unfold pre; rewrite length_firstn; lia).
  set (P := pre ++ R ++ sep ++ tail) in *.
  assert (HlP : length P = (a + length R + length sep + length tail)%nat)
    by (unfold P; rewrite !length_app; lia).
  destruct (find_found P s) as [a1 (E1 & Ha1 & Hs1 & _)]; [lia|].
  assert (a1 = a') by lia. subst a1. clear E1.
  destruct (find_found P e) as [b1 (E1 & Hb1 & _ & Hmin1)]; [lia|].
  assert (b1 = b') by lia. subst b1. clear E1.
  assert (Hlen : b' = (a' + length R + length sep)%nat).
  { apply (f_equal (@length ascii)) in Hsame.
    rewrite !length_app, length_firstn, length_skipn in Hsame. lia. }
  assert (Hle : (b' <= a + length R + length sep)%nat).
  { destruct (Nat.le_gt_cases b' (a + length R + length sep)) as [H|H]; [exact H|].
    specialize (Hmin1 _ H). exfalso.
    assert (E : skipn (a + length R + length sep) P = tail).
    { unfold P. rewrite !app_assoc. rewrite skipn_app.
      rewrite skipn_all2 by (rewrite !length_app; lia).
      rewrite !length_app, Hl, Nat.sub_diag. reflexivity. }
    rewrite E, Htail in Hmin1. discriminate. }
  assert (Heq : a' = a); [|split; lia].
  destruct (Nat.eq_dec a' a) as [E|Hne]; [exact E|]. exfalso.
  assert (Hlt : (a' < a)%nat) by lia. clear Hne.
  assert (Ea' : skipn a' P = skipn a' pre ++ R ++ sep ++ tail).
  { unfold P. rewrite skipn_app. replace (a' - length pre)%nat with 0%nat by lia.
    reflexivity. }
  destruct (Nat.le_gt_cases (length s) (a - a')) as [Hk|Hk].
  - (* the occurrence lies within the kept prefix of [B] *)
    assert (EB : skipn a' B = skipn a' pre ++ skipn a B).
    { rewrite <- (firstn_skipn a B) at 1. fold pre. rewrite skipn_app.
      replace (a' - length pre)%nat with 0%nat by lia. reflexivity. }
    specialize (Hmin _ Hlt).
    rewrite EB, startswith_app_l in Hmin by (rewrite length_skipn; lia).
    rewrite Ea', startswith_app_l in Hs1 by (rewrite length_skipn; lia).
    congruence.
  - (* the occurrence runs into the replacement *)
    apply startswith_spec in Hs1 as [r1 Hr1].
    assert (Etop : skipn a' P = R ++ sep ++ skipn b' P).
    { rewrite <- Hsame at 1. rewrite skipn_app.
      rewrite skipn_all2 by (rewrite length_firstn; lia).
      rewrite length_firstn. replace (a' - Nat.min a' (length P))%nat with 0%nat by lia.
      reflexivity. }
    assert (Ea : skipn a P = R ++ sep ++ tail).
    { unfold P. rewrite skipn_app, Hl, Nat.sub_diag.
      rewrite skipn_all2 by lia. reflexivity. }
    assert (Ek : skipn a P = skipn (a - a') s ++ r1).
    { replace a with ((a - a') + a')%nat at 1 by lia.
      rewrite <- skipn_skipn, Hr1, skipn_app.
      replace (a - a' - length s)%nat with 0%nat by lia. reflexivity. }
    destruct s as [|c0 s']; [simpl in Hk; lia|].
    cbn [hd tl] in Hhead.
    assert (Hu : exists U', R ++ sep = c0 :: U').
    { rewrite Etop, app_assoc in Hr1.
      destruct (R ++ sep) as [|u0 U'] eqn:EU.
      - apply app_eq_nil in EU as [_ EU]. contradiction.
      - injection Hr1 as -> _. now exists U'. }
    destruct Hu as [U' EU].
    rewrite Ek, app_assoc, EU in Ea.
    destruct (a - a')%nat as [|k] eqn:Ekk; [lia|].
    cbn [skipn] in Ea.
    destruct (skipn k s') as [|d s''] eqn:Es.
    + apply (f_equal (@length ascii)) in Es. rewrite length_skipn in Es.
      simpl in Es, Hk. lia.
    + injection Ea as -> _.
      assert (Hin : In c0 s').
      { rewrite <- (firstn_skipn k s'), Es. apply in_or_app. right. now left. }
      assert (Hex : existsb (Ascii.eqb c0) s' = true).
      { apply existsb_exists. exists c0. split; [exact Hin|apply Ascii.eqb_refl]. }
      congruence.
Qed.

End SecondRun.

(** C6, as the script behaves: after a first run of [update_index.py] has
    written the buffer [P], the splice of the old buffer, a second run
    never misses the end marker; it stops with the missing-marker error,
    leaving [P] as it is, exactly when the start marker no longer occurs
    in [P]; it rewrites [P] to itself when both markers are
    first found at the offsets of the first splice, and a replacement
    beginning with the start marker keeps the start offset; in every
    other case it finishes and writes the splice of [P] at the offsets it
    finds, a buffer different from [P]. *)
Theorem second_patch_run (w w1 : Patch.world) (content R : str) :
  Patch.index_js w = Some content ->
  Patch.new_styles_snippet_js w = Some R ->
  update_index.run w = Patch.Finished w1 ->
  exists P,
    Patch.index_js w1 = Some P
    /\ P = slice_to content (find content update_index.start_marker) ++ R
           ++ update_index.separator
           ++ slice_from content (find content update_index.end_marker)
    /\ find P update_index.end_marker <> -1
    /\ ((exists w2, update_index.run w1 = Patch.Exited 1 w2 /\ Patch.index_js w2 = Some P)
        <-> find P update_index.start_marker = -1)
    /\ (find P update_index.start_marker = find content update_index.start_marker ->
        find P update_index.end_marker
        = find content update_index.start_marker + len R + len update_index.separator ->
        exists w2, update_index.run w1 = Patch.Finished w2 /\ Patch.index_js w2 = Some P)
    /\ (startswith R update_index.start_marker = true ->
        find P update_index.start_marker = find content update_index.start_marker)
    /\ (find P update_index.start_marker <> -1 ->
        exists w2 P2,
          update_index.run w1 = Patch.Finished w2
          /\ Patch.index_js w2 = Some P2
          /\ P2 = slice_to P (find P update_index.start_marker) ++ R
                  ++ update_index.separator
                  ++ slice_from P (find P update_index.end_marker)
          /\ (P2 = P
              <-> find P update_index.start_marker
                  = find content update_index.start_marker
                  /\ find P update_index.end_marker
                     = find content update_index.start_marker + len R
                       + len update_index.separator)).
Proof.
  intros Hc HR Hrun.
  destruct (update_index_finished w w1 content R Hc HR Hrun) as (Hs & He & HP & HR1).
  destruct (find_found _ _ Hs) as [a (Ea & Ha & _ & Hamin)].
  destruct (find_found _ _ He) as [b (Eb & _ & Hb & _)].
  pose proof Hb as Hbe.
  apply startswith_spec in Hb as [rest Hrest].
  set (P := update_index.new_content content R
              (find content update_index.start_marker)
              (find content update_index.end_marker)) in *.
  assert (EP : P = firstn a content ++ R ++ update_index.separator ++ skipn b content).
  { unfold P, update_index.new_content. now rewrite Ea, Eb, slice_to_nat, slice_from_nat. }
  assert (HeP : find P update_index.end_marker <> -1).
  { rewrite EP, Hrest.
    rewrite (app_assoc R), (app_assoc (firstn a content)). apply find_occurs. }
  assert (Hsame : find P update_index.start_marker = find content update_index.start_marker ->
                  find P update_index.end_marker
                  = find content update_index.start_marker + len R
                    + len update_index.separator ->
                  update_index.new_content P R (find P update_index.start_marker)
                    (find P update_index.end_marker) = P).
  { intros Es Ee. rewrite Es, Ee, Ea.
    assert (EP' : P = slice_to content (Z.of_nat a) ++ R ++ update_index.separator
                      ++ slice_from content (Z.of_nat b)).
    { unfold P, update_index.new_content. now rewrite Ea, Eb. }
    destruct (splice_slices content R update_index.separator a b Ha) as (H1 & _ & H3).
    cbv zeta in H1, H3. rewrite <- EP' in H1, H3.
    unfold update_index.new_content. rewrite H1, H3. now rewrite EP'. }
  exists P. split; [exact HP|]. split; [reflexivity|]. split; [exact HeP|].
  pose proof HeP as HeP0.
  apply Z.eqb_neq in HeP.
  split; [|split; [|split]].
  - unfold update_index.run. rewrite HP, HR1. cbv zeta. rewrite HeP, orb_false_r.
    destruct (Z.eqb_spec (find P update_index.start_marker) (-1)) as [E|E].
    + split; [intros _; exact E|]. intros _. eexists. split; [reflexivity|exact HP].
    + split; [|contradiction]. intros [w2 [H _]]. discriminate H.
  - intros Es Ee. unfold update_index.run. rewrite HP, HR1. cbv zeta.
    rewrite HeP, orb_false_r.
    apply Z.eqb_neq in Hs. rewrite Es, Hs.
    eexists. split; [reflexivity|]. simpl. f_equal.
    rewrite Ee, Ea.
    assert (EP' : P = slice_to content (Z.of_nat a) ++ R ++ update_index.separator
                      ++ slice_from content (Z.of_nat b)).
    { unfold P, update_index.new_content. now rewrite Ea, Eb. }
    destruct (splice_slices content R update_index.separator a b Ha) as (H1 & _ & H3).
    cbv zeta in H1, H3. rewrite <- EP' in H1, H3.
    unfold update_index.new_content. rewrite H1, H3. now rewrite EP'.
  - intros HRs. rewrite EP, Ea. now apply find_start_after_splice.
  - intros HsP. unfold update_index.run. rewrite HP, HR1. cbv zeta.
    rewrite HeP, orb_false_r.
    pose proof HsP as HsP0. apply Z.eqb_neq in HsP. rewrite HsP.
    eexists. eexists. split; [reflexivity|]. split; [reflexivity|].
    split; [reflexivity|].
    fold (update_index.new_content P R (find P update_index.start_marker)
            (find P update_index.end_marker)).
    split; [|intros [Es Ee]; now apply Hsame].
    intros H2.
    destruct (find_found _ _ HsP0) as [a' (Ea' & _)].
    destruct (find_found _ _ HeP0) as [b' (Eb' & _)].
    unfold update_index.new_content in H2.
    rewrite Ea', Eb', slice_to_nat, slice_from_nat in H2.
    rewrite EP in Ea', Eb', H2.
    destruct (resplice_same_offsets content R update_index.separator
                update_index.start_marker update_index.end_marker (skipn b content)
                a a' b' Ha ltac:(discriminate) Hamin Hbe eq_refl Ea' Eb' H2)
      as [-> ->].
    rewrite <- EP in Ea', Eb'. rewrite Ea', Eb', Ea. unfold len.
    split; [reflexivity|lia].
Qed.

Lemma second_patch_run_witness :
  exists P,
    Patch.index_js
      (Patch.print (py "Successfully updated index.js")
         (Patch.write_index
            (update_index.new_content Fixtures.index_styles Fixtures.styles_snippet 7 47)
            Fixtures.w_styles)) = Some P
    /\ find P update_index.end_marker <> -1
    /\ find P update_index.start_marker = find Fixtures.index_styles update_index.start_marker.
Proof.
  destruct (second_patch_run Fixtures.w_styles _ _ _ eq_refl eq_refl eq_refl)
    as [P (HP & _ & He & _ & _ & Hstart & _)].
  exists P. split; [assumption|]. split; [assumption|]. apply Hstart. reflexivity.
Defined.

(** C6 as stated fails: a second run can succeed with a different
    buffer.  Here the snippet mentions the end marker, so the second run
    cuts at that earlier occurrence. *)
Lemma repatch_changes_buffer :
  exists w1 w2,
    update_index.run Fixtures.w_styles_end_in_snippet = Patch.Finished w1
    /\ update_index.run w1 = Patch.Finished w2
    /\ Patch.index_js w2 <> Patch.index_js w1.
Proof.
  eexists. eexists. split; [reflexivity|]. split; [vm_compute; reflexivity|].
  vm_compute. discriminate.
Qed.

(** The usual snippet: the second run reproduces the buffer. *)
Example repatch_usual_snippet_same :
  exists w1 w2,
    update_index.run Fixtures.w_styles = Patch.Finished w1
    /\ update_index.run w1 = Patch.Finished w2
    /\ Patch.index_js w2 = Patch.index_js w1.
Proof.
  eexists. eexists. split; [reflexivity|]. split; vm_compute; reflexivity.
Qed.

(** ** Dictionaries *)

Section DictFacts.
Context {V : Type}.
Implicit Types (d : list (str * V)) (k : str) (v : V).

Lemma dict_get_set_same d k v : dict_get (dict_set d k v) k = Some v.
Proof.
  induction d as [|[k' v'] d IH]; simpl.
  - now rewrite str_eqb_refl.
  - destruct (str_eqb k' k) eqn:E; simpl; now rewrite E.
Qed.

Lemma dict_get_set_other d k k' v :
  k <> k' -> dict_get (dict_set d k v) k' = dict_get d k'.
Proof.
  intros Hne. induction d as [|[k0 v0] d IH]; simpl.
  - apply str_eqb_neq in Hne. now rewrite Hne.
  - destruct (str_eqb k0 k) eqn:E; simpl.
    + apply str_eqb_eq in E. subst k0.
      apply str_eqb_neq in Hne. now rewrite Hne.
    + now rewrite IH.
Qed.

Lemma dict_get_remove_same d k : dict_get (dict_remove d k) k = None.
Proof.
  induction d as [|[k' v'] d IH]; simpl; [reflexivity|].
  destruct (str_eqb k' k) eqn:E; simpl; [assumption|]. now rewrite E.
Qed.

Lemma dict_get_remove_other d k k' :
  k <> k' -> dict_get (dict_remove d k) k' = dict_get d k'.
Proof.
  intros Hne. induction d as [|[k0 v0] d IH]; simpl; [reflexivity|].
  destruct (str_eqb k0 k) eqn:E; simpl.
  - apply str_eqb_eq in E. subst k0.
    apply str_eqb_neq in Hne. now rewrite Hne.
  - now rewrite IH.
Qed.

(** Assigning to a key leaves every other entry in place: same keys in
    the same order, same values except under the key. *)
Lemma dict_set_frame d k v :
  dict_get d k <> None ->
  Forall2 (fun e e' => fst e' = fst e /\ (fst e <> k -> snd e' = snd e))
          d (dict_set d k v).
Proof.
  induction d as [|[k' v'] d IH]; simpl; intros H; [congruence|].
  destruct (str_eqb k' k) eqn:E.
  - constructor.
    + simpl. split; [reflexivity|]. apply str_eqb_eq in E. congruence.
    + clear. induction d; constructor; auto.
  - constructor; auto.
Qed.

Lemma Forall2_frame_refl d k :
  Forall2 (fun e e' : str * V => fst e' = fst e /\ (fst e <> k -> snd e' = snd e)) d d.
Proof. induction d; constructor; auto. Qed.

End DictFacts.

(** ** The manifest transformation *)

Section ManifestFacts.

Lemma service_worker_neq_scripts : service_worker <> scripts.
Proof. discriminate. Qed.

Ltac unfold_fix :=
  cbv beta iota delta [fix_manifest rbind py_contains py_getitem py_pop
                         py_setitem py_append].

(** No [background] key: nothing to do. *)
Lemma fix_manifest_no_background (d : list (str * json)) :
  dict_get d background = None -> fix_manifest (JDict d) = inr (JDict d).
Proof. intros H. unfold_fix. now rewrite H. Qed.

(** A [background] object without [service_worker]: nothing to do. *)
Lemma fix_manifest_no_service_worker (d bg : list (str * json)) :
  dict_get d background = Some (JDict bg) ->
  dict_get bg service_worker = None ->
  fix_manifest (JDict d) = inr (JDict d).
Proof. intros H1 H2. unfold_fix. now rewrite H1, H2. Qed.

(** The transformation when [background] is an object holding
    [service_worker] and [scripts] is absent or a list. *)
Lemma fix_manifest_moves (d bg : list (str * json)) (sw : json) :
  dict_get d background = Some (JDict bg) ->
  dict_get bg service_worker = Some sw ->
  let bg1 := dict_remove bg service_worker in
  (dict_get bg scripts = None ->
   fix_manifest (JDict d)
   = inr (JDict (dict_set d background (JDict (dict_set bg1 scripts (JList [sw]))))))
  /\ (forall l, dict_get bg scripts = Some (JList l) ->
      fix_manifest (JDict d)
      = inr (JDict (dict_set d background
                      (JDict (if existsb (py_eq sw) l then bg1
                              else dict_set bg1 scripts (JList (l ++ [sw]))))))).
Proof.
  intros H1 H2 bg1. subst bg1. split.
  - intros H3. unfold_fix. rewrite H1, H2.
    rewrite (dict_get_remove_other _ _ _ service_worker_neq_scripts), H3.
    reflexivity.
  - intros l H3. unfold_fix. rewrite H1, H2.
    rewrite (dict_get_remove_other _ _ _ service_worker_neq_scripts), H3.
    cbn [negb]. cbv iota. now destruct (existsb (py_eq sw) l).
Qed.

(** Whatever the manifest, a successful transformation returns either
    the manifest itself or the manifest with a new [background] object:
    one without [service_worker] that agrees with the old one on every
    key other than [service_worker] and [scripts]. *)
Lemma fix_manifest_cases (m m' : json) :
  fix_manifest m = inr m' ->
  m' = m
  \/ exists d bg bg',
       m = JDict d
       /\ dict_get d background = Some (JDict bg)
       /\ m' = JDict (dict_set d background (JDict bg'))
       /\ dict_get bg' service_worker = None
       /\ (forall k, k <> service_worker -> k <> scripts ->
                     dict_get bg' k = dict_get bg k).
Proof.
  unfold_fix. intros H.
  destruct m as [| | | s | l | d]; try discriminate H.
  - destruct (negb (find s background =? -1)); [discriminate H|].
    left. congruence.
  - destruct (existsb (py_eq (JStr background)) l); [discriminate H|].
    left. congruence.
  - destruct (dict_get d background) as [bgv|] eqn:Hbg; [|left; congruence].
    destruct bgv as [| | | s | l | bg]; try discriminate H.
    + destruct (negb (find s service_worker =? -1)); [discriminate H|].
      left. congruence.
    + destruct (existsb (py_eq (JStr service_worker)) l); [discriminate H|].
      left. congruence.
    + destruct (dict_get bg service_worker) as [sw|] eqn:Hsw; [|left; congruence].
      right. exists d, bg.
      pose proof (dict_get_remove_same bg service_worker) as Hrm.
      assert (Hfr : forall k, k <> service_worker -> k <> scripts ->
                      dict_get (dict_remove bg service_worker) k = dict_get bg k).
      { intros k Hk _. apply dict_get_remove_other. congruence. }
      assert (Hset : forall v, dict_get (dict_set (dict_remove bg service_worker) scripts v)
                                 service_worker = None).
      { intros v. rewrite dict_get_set_other; [assumption|].
        intros E. symmetry in E. revert E. apply service_worker_neq_scripts. }
      assert (Hfs : forall v k, k <> service_worker -> k <> scripts ->
                      dict_get (dict_set (dict_remove bg service_worker) scripts v) k
                      = dict_get bg k).
      { intros v k Hk Hk'. rewrite dict_get_set_other by congruence. now apply Hfr. }
      destruct (dict_get (dict_remove bg service_worker) scripts) as [sc|] eqn:Hsc;
        cbn [negb] in H; cbv iota in H.
      * destruct sc as [| | | s | l | sd]; try discriminate H.
        -- destruct sw; try discriminate H.
           destruct (negb (find s s0 =? -1)); cbn [negb] in H; cbv iota in H;
             [|discriminate H].
           injection H as <-. eexists. repeat split; eauto.
        -- destruct (existsb (py_eq sw) l); cbn [negb] in H; cbv iota in H;
             injection H as <-; eexists; repeat split; eauto.
        -- destruct sw; try discriminate H; cbn [negb] in H; cbv iota in H;
             try discriminate H.
           destruct (dict_get sd s); cbn [negb] in H; cbv iota in H;
             [|discriminate H].
           injection H as <-. eexists. repeat split; eauto.
      * injection H as <-. eexists. repeat split; eauto.
Qed.

(** The transformation touches the [background] entry only: the keys of
    the manifest keep their order and every other key its value. *)
Lemma fix_manifest_frame (d : list (str * json)) (m' : json) :
  fix_manifest (JDict d) = inr m' ->
  exists d', m' = JDict d'
             /\ Forall2 (fun e e' => fst e' = fst e
                                     /\ (fst e <> background -> snd e' = snd e)) d d'.
Proof.
  intros H. destruct (fix_manifest_cases _ _ H) as [->|(d0 & bg & bg' & E & Hbg & -> & _)].
  - exists d. split; [reflexivity|]. apply Forall2_frame_refl.
  - injection E as <-. eexists. split; [reflexivity|].
    apply dict_set_frame. congruence.
Qed.

End ManifestFacts.

(** C4: with a [background] object that holds [service_worker], the
    transformation removes that key and merges its value into [scripts]:
    a fresh one-element list when [scripts] is absent, the list with the
    value appended when the list lacks it, the list unchanged when the
    value is already in it. *)
Theorem service_worker_merged_into_scripts (d bg : list (str * json)) (sw : json) :
  dict_get d background = Some (JDict bg) ->
  dict_get bg service_worker = Some sw ->
  (dict_get bg scripts = None -> transforms_to_scripts d [sw])
  /\ (forall l, dict_get bg scripts = Some (JList l) ->
                existsb (py_eq sw) l = false -> transforms_to_scripts d (l ++ [sw]))
  /\ (forall l, dict_get bg scripts = Some (JList l) ->
                existsb (py_eq sw) l = true -> transforms_to_scripts d l).
Proof.
  intros Hbg Hsw.
  destruct (fix_manifest_moves d bg sw Hbg Hsw) as [Habsent Hlist].
  pose proof (dict_get_remove_same bg service_worker) as Hrm.
  assert (Hno : forall v, dict_get (dict_set (dict_remove bg service_worker) scripts v)
                            service_worker = None).
  { intros v. rewrite dict_get_set_other; [assumption|].
    intros E. symmetry in E. revert E. apply service_worker_neq_scripts. }
  unfold transforms_to_scripts. split; [|split].
  - intros Hsc. eexists. eexists. split; [exact (Habsent Hsc)|].
    rewrite dict_get_set_same. split; [reflexivity|]. split; [apply Hno|].
    apply dict_get_set_same.
  - intros l Hsc Hin. eexists. eexists. split; [exact (Hlist l Hsc)|].
    rewrite dict_get_set_same, Hin. split; [reflexivity|]. split; [apply Hno|].
    apply dict_get_set_same.
  - intros l Hsc Hin. eexists. eexists. split; [exact (Hlist l Hsc)|].
    rewrite dict_get_set_same, Hin. split; [reflexivity|]. split; [assumption|].
    rewrite dict_get_remove_other; [assumption|apply service_worker_neq_scripts].
Qed.

Lemma service_worker_merged_into_scripts_witness :
  transforms_to_scripts Fixtures.manifest_sw_only [JStr (py "bg.js")]
  /\ transforms_to_scripts Fixtures.manifest_sw_and_other
       [JStr (py "other.js"); JStr (py "bg.js")]
  /\ transforms_to_scripts Fixtures.manifest_sw_listed
       [JStr (py "bg.js"); JStr (py "other.js")].
Proof.
  split; [|split].
  - exact (proj1 (service_worker_merged_into_scripts Fixtures.manifest_sw_only _ _
                    eq_refl eq_refl) eq_refl).
  - exact (proj1 (proj2 (service_worker_merged_into_scripts Fixtures.manifest_sw_and_other
                           _ _ eq_refl eq_refl)) _ eq_refl eq_refl).
  - exact (proj2 (proj2 (service_worker_merged_into_scripts Fixtures.manifest_sw_listed
                           _ _ eq_refl eq_refl)) _ eq_refl eq_refl).
Defined.

(** Shapes that no extension manifest has make the script raise: a
    [background] that is a number, a [scripts] that is a string. *)
Example fix_manifest_background_number :
  fix_manifest (JDict [(background, JInt 5)]) = inl TypeError.
Proof. reflexivity. Qed.

Example fix_manifest_scripts_string :
  fix_manifest (JDict [(background, JDict [(service_worker, JStr (py "bg.js"));
                                           (scripts, JStr (py "other.js"))])])
  = inl AttributeError.
Proof. reflexivity. Qed.

(** C7: a manifest without [background], or whose [background] object
    has no [service_worker], is returned as it is; hence transforming the
    result of a transformation changes nothing. *)
Theorem fix_manifest_idempotent :
  (forall d, dict_get d background = None -> fix_manifest (JDict d) = inr (JDict d))
  /\ (forall d bg, dict_get d background = Some (JDict bg) ->
                   dict_get bg service_worker = None ->
                   fix_manifest (JDict d) = inr (JDict d))
  /\ (forall m m', fix_manifest m = inr m' -> fix_manifest m' = inr m').
Proof.
  split; [exact fix_manifest_no_background|].
  split; [exact fix_manifest_no_service_worker|].
  intros m m' H.
  destruct (fix_manifest_cases _ _ H) as [->|(d & bg & bg' & _ & Hbg & -> & Hsw & _)].
  - exact H.
  - apply (fix_manifest_no_service_worker _ bg'); [|exact Hsw].
    apply dict_get_set_same.
Qed.

Lemma fix_manifest_idempotent_witness :
  fix_manifest (JDict Fixtures.manifest_plain) = inr (JDict Fixtures.manifest_plain)
  /\ fix_manifest (JDict Fixtures.manifest_scripts_only)
     = inr (JDict Fixtures.manifest_scripts_only)
  /\ fix_manifest (JDict Fixtures.manifest_sw_only_fixed)
     = inr (JDict Fixtures.manifest_sw_only_fixed).
Proof.
  destruct fix_manifest_idempotent as (Hnone & Hnosw & Hidem).
  split; [|split].
  - apply Hnone. reflexivity.
  - apply (Hnosw _ [(scripts, JList [JStr (py "bg.js")])]); reflexivity.
  - apply (Hidem (JDict Fixtures.manifest_sw_only)). reflexivity.
Defined.

(** ** Directory trees *)

Section TreeFacts.

(** Induction over a tree together with the children of a directory. *)
Lemma node_ind_nested (P : node -> Prop) :
  (forall data, P (File data)) ->
  (forall es, Forall (fun e => P (snd e)) es -> P (Dir es)) ->
  forall n, P n.
Proof.
  intros HF HD. fix IH 1. intros [data|es]; [apply HF|].
  apply HD. induction es as [|[name child] es IHes]; constructor;
    [apply IH|assumption].
Qed.

Lemma distinct_NoDup (l : list str) : distinct l = true -> NoDup l.
Proof.
  induction l as [|x l IH]; simpl; intros H; constructor.
  - apply andb_true_iff in H as [H _]. apply negb_true_iff in H.
    intros Hin. assert (existsb (str_eqb x) l = true); [|congruence].
    apply existsb_exists. exists x. split; [assumption|apply str_eqb_refl].
  - apply IH. now apply andb_true_iff in H.
Qed.

Lemma wf_Dir (es : list (str * node)) :
  wf_node (Dir es) = true ->
  Forall (fun name => name_ok name = true) (map fst es)
  /\ NoDup (map fst es)
  /\ Forall (fun e => wf_node (snd e) = true) es.
Proof.
  simpl. intros H. apply andb_true_iff in H as [H H3].
  apply andb_true_iff in H as [H1 H2].
  split; [apply Forall_forall; rewrite forallb_forall in H1; exact H1|].
  split; [now apply distinct_NoDup|].
  apply Forall_forall. intros [name child] Hin.
  rewrite forallb_forall in H3. exact (H3 _ Hin).
Qed.

Lemma dict_get_In {V} (es : list (str * V)) (k : str) (v : V) :
  dict_get es k = Some v -> In (k, v) es.
Proof.
  induction es as [|[k' v'] es IH]; simpl; [discriminate|].
  destruct (str_eqb k' k) eqn:E.
  - apply str_eqb_eq in E. intros H. injection H as ->. subst. now left.
  - intros H. right. now apply IH.
Qed.

Lemma In_dict_get {V} (es : list (str * V)) (k : str) (v : V) :
  NoDup (map fst es) -> In (k, v) es -> dict_get es k = Some v.
Proof.
  induction es as [|[k' v'] es IH]; simpl; intros Hnd Hin; [contradiction|].
  inversion Hnd as [|? ? Hnotin Hnd']; subst.
  destruct Hin as [E|Hin].
  - injection E as -> ->. now rewrite str_eqb_refl.
  - destruct (str_eqb k' k) eqn:E.
    + apply str_eqb_eq in E. subst k'. exfalso. apply Hnotin.
      apply in_map_iff. now exists (k, v).
    + now apply IH.
Qed.

Lemma lookup_path_app (n : node) (p q : list str) :
  lookup_path n (p ++ q)
  = match lookup_path n p with
    | Some c => lookup_path c q
    | None => None
    end.
Proof.
  revert n; induction p as [|name p IH]; intros n; simpl; [reflexivity|].
  destruct n as [data|es]; [reflexivity|].
  destruct (dict_get es name); [apply IH|reflexivity].
Qed.

(** Every path of [rel_files] names something. *)
Lemma rel_files_nonempty (n : node) (q : list str) (data : str) :
  In (q, data) (rel_files n) -> q <> [].
Proof.
  destruct n as [d|es]; simpl; [contradiction|].
  intros H. apply in_app_or in H as [H|H]; apply in_flat_map in H as [[name child] [_ H]].
  - destruct child; [|contradiction]. destruct H as [H|[]]. congruence.
  - apply in_map_iff in H as [qd [E _]]. congruence.
Qed.

(** A regular file that a path resolves to is listed by [rel_files]. *)
Lemma lookup_rel_files (n : node) :
  forall p data, lookup_path n p = Some (File data) -> p <> [] ->
                 In (p, data) (rel_files n).
Proof.
  induction n as [d|es IH] using node_ind_nested; intros p data H Hp.
  - destruct p; [congruence|discriminate H].
  - destruct p as [|name p]; [congruence|]. simpl in H.
    destruct (dict_get es name) as [child|] eqn:Hget; [|discriminate H].
    apply dict_get_In in Hget. simpl. apply in_or_app.
    destruct p as [|name' p].
    + left. simpl in H. injection H as ->.
      apply in_flat_map. exists (name, File data). split; [assumption|now left].
    + right. apply in_flat_map. exists (name, child). split; [assumption|].
      apply in_map_iff. exists (name' :: p, data). split; [reflexivity|].
      rewrite Forall_forall in IH. apply (IH _ Hget); [assumption|discriminate].
Qed.

(** In a well-formed tree, what [rel_files] lists is a regular file at
    that path, with that data. *)
Lemma rel_files_lookup (n : node) :
  wf_node n = true ->
  forall p data, In (p, data) (rel_files n) -> lookup_path n p = Some (File data).
Proof.
  induction n as [d|es IH] using node_ind_nested; intros Hwf p data H.
  - contradiction.
  - destruct (wf_Dir es Hwf) as (_ & Hnd & Hch).
    simpl in H. apply in_app_or in H as [H|H];
      apply in_flat_map in H as [[name child] [Hin H]].
    + destruct child as [d|]; [|contradiction]. destruct H as [H|[]].
      injection H as <- <-. simpl. now rewrite (In_dict_get _ _ _ Hnd Hin).
    + apply in_map_iff in H as [[q d] [E Hq]]. simpl in E. injection E as <- <-.
      simpl. rewrite (In_dict_get _ _ _ Hnd Hin).
      rewrite Forall_forall in IH, Hch.
      exact (IH _ Hin (Hch _ Hin) _ _ Hq).
Qed.

Lemma NoDup_map_inj {A B} (f : A -> B) (l : list A) :
  (forall x y, In x l -> In y l -> f x = f y -> x = y) ->
  NoDup l -> NoDup (map f l).
Proof.
  induction l as [|a l IH]; simpl; intros Hinj Hnd; constructor.
  - inversion Hnd as [|? ? Hnotin _]; subst. intros Hin.
    apply in_map_iff in Hin as [b [E Hb]]. apply Hnotin.
    assert (b = a) by (apply Hinj; auto). now subst.
  - inversion Hnd; subst. apply IH; auto.
Qed.

Lemma NoDup_app_intro {A} (l1 l2 : list A) :
  NoDup l1 -> NoDup l2 -> (forall x, In x l1 -> ~ In x l2) -> NoDup (l1 ++ l2).
Proof.
  induction l1 as [|a l1 IH]; simpl; intros H1 H2 Hd; [assumption|].
  inversion H1; subst. constructor.
  - intros Hin. apply in_app_or in Hin as [Hin|Hin]; [contradiction|].
    now apply (Hd a); [left|].
  - apply IH; auto.
Qed.

(** In a well-formed tree no path is listed twice. *)
Lemma rel_files_NoDup (n : node) :
  wf_node n = true -> NoDup (map fst (rel_files n)).
Proof.
  induction n as [d|es IH] using node_ind_nested; intros Hwf; [constructor|].
  destruct (wf_Dir es Hwf) as (_ & Hnd & Hch). clear Hwf.
  simpl. rewrite map_app. apply NoDup_app_intro.
  - clear IH Hch. induction es as [|[name child] es IHes]; simpl; [constructor|].
    inversion Hnd as [|? ? Hnotin Hnd']; subst. rewrite map_app.
    apply NoDup_app_intro; [destruct child; repeat constructor; simpl; tauto|now apply IHes|].
    intros q Hq Hq'. destruct child as [d|]; [|contradiction].
    destruct Hq as [<-|[]]. apply Hnotin.
    apply in_map_iff in Hq' as [[q d'] [E Hq']]. simpl in E. subst q.
    apply in_flat_map in Hq' as [[name' child'] [Hin Hq']].
    destruct child' as [d0|]; [|contradiction]. destruct Hq' as [E|[]].
    injection E as -> _. apply in_map_iff. now exists (name, File d0).
  - induction es as [|[name child] es IHes]; simpl; [constructor|].
    inversion Hnd as [|? ? Hnotin Hnd']; subst.
    inversion IH as [|? ? IHc IH']; subst. inversion Hch as [|? ? Hc Hch']; subst.
    rewrite map_app. apply NoDup_app_intro.
    + rewrite map_map. simpl.
      rewrite <- (map_map fst (cons name)).
      apply NoDup_map_inj; [intros x y _ _ E; now injection E|].
      now apply IHc.
    + now apply IHes.
    + intros q Hq Hq'.
      apply in_map_iff in Hq as [[q1 d1] [E1 Hq1]]. simpl in E1. subst q.
      apply in_map_iff in Hq1 as [[q2 d2] [E2 _]]. simpl in E2. injection E2 as <- <-.
      apply in_map_iff in Hq' as [[q3 d3] [E3 Hq3]]. simpl in E3. subst q3.
      apply in_flat_map in Hq3 as [[name' child'] [Hin Hq3]].
      apply in_map_iff in Hq3 as [[q4 d4] [E4 _]]. simpl in E4. injection E4 as <- _ _.
      apply Hnotin. apply in_map_iff. now exists (name', child').
  - intros q Hq Hq'.
    apply in_map_iff in Hq as [[q1 d1] [E1 Hq1]]. simpl in E1. subst q1.
    apply in_flat_map in Hq1 as [[name child] [_ Hq1]].
    destruct child; [|contradiction]. destruct Hq1 as [E|[]]. injection E as <- _.
    apply in_map_iff in Hq' as [[q2 d2] [E2 Hq2]]. simpl in E2. subst q2.
    apply in_flat_map in Hq2 as [[name' child'] [_ Hq2]].
    apply in_map_iff in Hq2 as [[q3 d3] [E3 Hq3]]. simpl in E3.
    injection E3 as _ E3. apply rel_files_nonempty in Hq3. congruence.
Qed.

(** The components of a path that resolves in a well-formed tree are
    admissible names. *)
Lemma lookup_path_names_ok (n : node) :
  wf_node n = true ->
  forall p c, lookup_path n p = Some c -> Forall (fun name => name_ok name = true) p.
Proof.
  induction n as [d|es IH] using node_ind_nested; intros Hwf p c H.
  - destruct p; [constructor|discriminate H].
  - destruct p as [|name p]; [constructor|]. simpl in H.
    destruct (dict_get es name) as [child|] eqn:Hget; [|discriminate H].
    apply dict_get_In in Hget.
    destruct (wf_Dir es Hwf) as (Hok & _ & Hch).
    rewrite Forall_forall in IH, Hch, Hok. constructor.
    + apply Hok. apply in_map_iff. now exists (name, child).
    + exact (IH _ Hget (Hch _ Hget) _ _ H).
Qed.

End TreeFacts.

(** ** Archive names *)

Section NameFacts.

Lemma name_ok_spec (name : str) :
  name_ok name = true -> name <> [] /\ Forall plain name.
Proof.
  destruct name as [|c name]; [discriminate|]. unfold name_ok.
  intros H. split; [discriminate|].
  rewrite forallb_forall in H. apply Forall_forall. intros x Hx.
  specialize (H x Hx). apply andb_true_iff in H as [H1 H2].
  apply negb_true_iff in H1, H2. apply Ascii.eqb_neq in H1, H2. now split.
Qed.

Lemma join_cons (sep x : str) (rest : list str) :
  join sep (x :: rest)
  = x ++ match rest with [] => [] | _ :: _ => sep ++ join sep rest end.
Proof. destruct rest; simpl; [now rewrite app_nil_r|reflexivity]. Qed.

Lemma replace_plain (name : str) :
  Forall plain name -> replace name os_path_sep "/"%char = name.
Proof.
  unfold replace. induction 1 as [|c name [_ Hc] _ IH]; simpl; [reflexivity|].
  apply Ascii.eqb_neq in Hc. now rewrite Hc, IH.
Qed.

(** With admissible names, replacing the separator in the relative
    path gives the components joined by forward slashes. *)
Lemma arcname_slash_name (p : list str) :
  Forall (fun name => name_ok name = true) p -> arcname p = slash_name p.
Proof.
  unfold arcname, relpath, slash_name.
  induction 1 as [|x rest Hx _ IH]; [reflexivity|].
  rewrite !join_cons. unfold replace in *. rewrite map_app.
  apply name_ok_spec in Hx as [_ Hx].
  pose proof (replace_plain x Hx) as Ex. unfold replace in Ex. rewrite Ex.
  f_equal. destruct rest as [|y rest]; [reflexivity|].
  rewrite map_app. change (map (fun c : ascii => if Ascii.eqb c os_path_sep then "/"%char else c)
                             [os_path_sep]) with (py "/").
  f_equal. exact IH.
Qed.

Lemma plain_prefix_unique (a b x y : str) :
  Forall plain a -> Forall plain b ->
  (x = [] \/ exists x', x = "/"%char :: x') ->
  (y = [] \/ exists y', y = "/"%char :: y') ->
  a ++ x = b ++ y -> a = b /\ x = y.
Proof.
  intros Ha. revert b. induction Ha as [|c a [Hc _] _ IH]; intros b Hb Hx Hy E.
  - destruct Hb as [|d b [Hd _] _]; [now split|]. simpl in E.
    destruct Hx as [->|[x' ->]]; [discriminate|]. injection E as E _. congruence.
  - destruct Hb as [|d b Hd Hb]; simpl in E.
    + destruct Hy as [->|[y' ->]]; [discriminate|]. injection E as E _. congruence.
    + injection E as -> E. destruct (IH b Hb Hx Hy E) as [-> ->]. now split.
Qed.

(** Distinct paths of admissible names have distinct slash names. *)
Lemma slash_name_inj (p q : list str) :
  Forall (fun name => name_ok name = true) p ->
  Forall (fun name => name_ok name = true) q ->
  slash_name p = slash_name q -> p = q.
Proof.
  unfold slash_name. intros Hp. revert q.
  induction Hp as [|x p Hx _ IH]; intros q Hq E.
  - destruct Hq as [|y q Hy _]; [reflexivity|].
    rewrite join_cons in E. apply name_ok_spec in Hy as [Hy _].
    destruct y; [congruence|discriminate E].
  - destruct Hq as [|y q Hy Hq].
    + rewrite join_cons in E. apply name_ok_spec in Hx as [Hx _].
      destruct x; [congruence|discriminate E].
    + rewrite !join_cons in E.
      apply name_ok_spec in Hx as [_ Hx]. apply name_ok_spec in Hy as [_ Hy].
      apply plain_prefix_unique in E as [-> E]; try assumption;
        try (destruct p; [now left|right; eexists; reflexivity]);
        try (destruct q; [now left|right; eexists; reflexivity]).
      f_equal. destruct p as [|x' p], q as [|y' q]; try reflexivity;
        try discriminate E.
      injection E as E. apply IH; assumption.
Qed.

(** A slash name ends with the last character of a name, never with a
    slash. *)
Lemma slash_name_last (p : list str) :
  p <> [] -> Forall (fun name => name_ok name = true) p ->
  exists s c, slash_name p = s ++ [c] /\ c <> "/"%char.
Proof.
  unfold slash_name. intros Hp Hok. induction Hok as [|x p Hx Hok IH]; [congruence|].
  rewrite join_cons. destruct p as [|y p].
  - apply name_ok_spec in Hx as [Hne Hx]. rewrite app_nil_r.
    destruct (exists_last Hne) as [s [c ->]].
    exists s, c. split; [reflexivity|].
    rewrite Forall_forall in Hx. apply (Hx c). apply in_or_app. right. now left.
  - destruct IH as [s [c [E Hc]]]; [discriminate|].
    exists (x ++ py "/" ++ s), c. split; [|assumption].
    rewrite E. now rewrite <- !app_assoc.
Qed.

Lemma slash_name_not_dir (p q : list str) :
  q <> [] -> Forall (fun name => name_ok name = true) q ->
  slash_name q <> slash_name p ++ py "/".
Proof.
  intros Hq Hok E. destruct (slash_name_last q Hq Hok) as [s [c [Es Hc]]].
  rewrite Es in E. apply app_inj_tail in E as [_ E]. congruence.
Qed.

Lemma slash_name_not_endswith_slash (q : list str) :
  q <> [] -> Forall (fun name => name_ok name = true) q ->
  endswith (slash_name q) (py "/") = false.
Proof.
  intros Hq Hok. destruct (slash_name_last q Hq Hok) as [s [c [-> Hc]]].
  unfold endswith. rewrite rev_app_distr. simpl.
  apply Ascii.eqb_neq in Hc. now rewrite Hc.
Qed.

(** A slash name that continues another one after a slash belongs to a
    longer path. *)
Lemma slash_name_prefix (p q : list str) :
  p <> [] ->
  Forall (fun name => name_ok name = true) p ->
  Forall (fun name => name_ok name = true) q ->
  startswith (slash_name q) (slash_name p ++ py "/") = true ->
  exists r, r <> [] /\ q = p ++ r.
Proof.
  unfold slash_name. intros Hp Hpo. revert q.
  induction Hpo as [|x p Hx Hpo IH]; [congruence|]. intros q Hqo H.
  apply startswith_spec in H as [t E].
  destruct Hqo as [|y q Hy Hqo].
  - rewrite join_cons in E. apply name_ok_spec in Hx as [Hx _].
    destruct x; [congruence|discriminate E].
  - rewrite !join_cons in E.
    pose proof (name_ok_spec _ Hx) as [_ Hxp].
    pose proof (name_ok_spec _ Hy) as [_ Hyp].
    destruct p as [|x' p].
    + rewrite app_nil_r in E. rewrite <- app_assoc in E.
      apply plain_prefix_unique in E as [-> E]; try assumption;
        [|destruct q; [now left|right; eexists; reflexivity]
         |right; eexists; reflexivity].
      exists q. split; [|reflexivity]. destruct q; [discriminate E|discriminate].
    + rewrite <- !app_assoc in E.
      apply plain_prefix_unique in E as [-> E]; try assumption;
        [|destruct q; [now left|right; eexists; reflexivity]
         |right; eexists; reflexivity].
      destruct q as [|y' q]; [discriminate E|].
      apply (app_inv_head (py "/")) in E.
      destruct (IH ltac:(discriminate) (y' :: q) Hqo) as [r [Hr Eq]].
      { apply startswith_spec. exists t. rewrite E. now rewrite <- !app_assoc. }
      exists r. split; [assumption|]. simpl. now rewrite Eq.
Qed.

Lemma exactly_one_intro (name data : str) (members : list (str * str)) :
  NoDup (map fst members) -> In (name, data) members -> exactly_one name members.
Proof.
  unfold exactly_one. induction members as [|[n d] ms IH]; simpl; intros Hnd Hin;
    [contradiction|].
  inversion Hnd as [|? ? Hnotin Hnd']; subst.
  destruct Hin as [E|Hin].
  - injection E as -> ->. rewrite str_eqb_refl. simpl. f_equal.
    assert (Hnone : forall l, ~ In name (map fst l) ->
              length (filter (fun m : str * str => str_eqb (fst m) name) l) = 0%nat).
    { clear. induction l as [|[n d] l IHl]; simpl; intros H; [reflexivity|].
      destruct (str_eqb n name) eqn:E.
      - apply str_eqb_eq in E. subst. tauto.
      - apply IHl. tauto. }
    now apply Hnone.
  - destruct (str_eqb n name) eqn:E.
    + apply str_eqb_eq in E. subst n. exfalso. apply Hnotin.
      apply in_map_iff. now exists (name, data).
    + now apply IH.
Qed.

End NameFacts.

(** ** The archive loop *)

Section MonadFacts.

Lemma bind_inr {A B} (m : M A) (k : A -> M B) (s s' : fs) (b : B) :
  bind m k s = (inr b, s') ->
  exists a s1, m s = (inr a, s1) /\ k a s1 = (inr b, s').
Proof.
  unfold bind. destruct (m s) as [[e|a] s1]; [discriminate|].
  intros H. now exists a, s1.
Qed.

Lemma bind_inl {A B} (m : M A) (k : A -> M B) (s s' : fs) (e : exn) :
  bind m k s = (inl e, s') ->
  m s = (inl e, s') \/ exists a s1, m s = (inr a, s1) /\ k a s1 = (inl e, s').
Proof.
  unfold bind. destruct (m s) as [[e'|a] s1].
  - intros H. injection H as -> ->. now left.
  - intros H. right. now exists a, s1.
Qed.

Lemma bind_step {A B} (m : M A) (k : A -> M B) (s s1 : fs) (a : A) :
  m s = (inr a, s1) -> bind m k s = k a s1.
Proof. unfold bind. now intros ->. Qed.

Lemma bind_fail {A B} (m : M A) (k : A -> M B) (s s1 : fs) (e : exn) :
  m s = (inl e, s1) -> bind m k s = (inl e, s1).
Proof. unfold bind. now intros ->. Qed.

Lemma for_each_app {A} (l1 l2 : list A) (body : A -> M unit) (s s1 : fs) :
  for_each l1 body s = (inr tt, s1) ->
  for_each (l1 ++ l2) body s = for_each l2 body s1.
Proof.
  revert s. induction l1 as [|x l1 IH]; simpl; intros s H.
  - unfold ret in H. now injection H as ->.
  - apply bind_inr in H as (u & s0 & Hx & Hl).
    rewrite (bind_step _ _ _ _ _ Hx). now apply IH.
Qed.

Lemma preserves_ret {A} (I : fs -> Prop) (a : A) : preserves I (ret a).
Proof. intros s r s' HI H. unfold ret in H. now injection H as _ <-. Qed.

Lemma preserves_bind {A B} (I : fs -> Prop) (m : M A) (k : A -> M B) :
  preserves I m -> (forall a, preserves I (k a)) -> preserves I (bind m k).
Proof.
  intros Hm Hk s r s' HI H. unfold bind in H.
  destruct (m s) as [[e|a] s1] eqn:E.
  - injection H as _ <-. exact (Hm _ _ _ HI E).
  - exact (Hk a _ _ _ (Hm _ _ _ HI E) H).
Qed.

Lemma preserves_for_each {A} (I : fs -> Prop) (l : list A) (body : A -> M unit) :
  (forall x, preserves I (body x)) -> preserves I (for_each l body).
Proof.
  intros Hb. induction l as [|x l IH]; simpl.
  - apply preserves_ret.
  - apply preserves_bind; [apply Hb|intros _; exact IH].
Qed.

End MonadFacts.

Section ZipLoop.
Variable skip : str -> bool.
Variable n : node.

Local Abbreviation with_members ms s := (set_zip_path (Some (ZipArchive ms)) s).

Lemma zip_write_file (s : fs) (ms : list (str * str)) (p : list str) (a data : str) :
  dist_dir s = Some n ->
  lookup_path n p = Some (File data) ->
  zip_write p a (with_members ms s) = (inr tt, with_members (ms ++ [(a, data)]) s).
Proof. intros Hd Hl. unfold zip_write. simpl. now rewrite Hd, Hl. Qed.

(** The inner loop over the files of one directory. *)
Lemma files_loop (top : list str) (es : list (str * node)) :
  (forall name child, In (name, child) es -> lookup_path n (top ++ [name]) = Some child) ->
  forall ms s, dist_dir s = Some n ->
  zip_body skip (top, dirs_of es, files_of es) (with_members ms s)
  = (inr tt,
     with_members
       (ms ++ map (fun qd => (arcname (top ++ fst qd), snd qd))
                (filter (keep skip)
                   (flat_map (fun '(name, child) =>
                                match child with
                                | File data => [([name], data)]
                                | Dir _ => []
                                end) es))) s).
Proof.
  unfold zip_body, files_of.
  induction es as [|[name child] es IH]; intros Hl ms s Hd; simpl.
  - now rewrite app_nil_r.
  - destruct child as [data|sub]; simpl.
    + unfold keep at 1. simpl. destruct (skip name) eqn:Hs; simpl.
      * rewrite (bind_step (ret tt) _ _ _ tt eq_refl).
        apply IH; [|assumption]. intros. apply Hl. now right.
      * rewrite (bind_step _ _ _ _ _
                   (zip_write_file s ms _ _ data Hd (Hl _ _ (or_introl eq_refl)))).
        rewrite IH; [|intros; apply Hl; now right|assumption].
        now rewrite <- app_assoc.
    + apply IH; [|assumption]. intros. apply Hl. now right.
Qed.

Lemma keep_cons (name : str) (qd : list str * str) :
  fst qd <> [] -> keep skip (name :: fst qd, snd qd) = keep skip qd.
Proof. unfold keep. simpl. destruct (fst qd); [congruence|reflexivity]. Qed.

Lemma filter_keep_cons (name : str) (c : node) :
  filter (keep skip) (map (fun qd => (name :: fst qd, snd qd)) (rel_files c))
  = map (fun qd => (name :: fst qd, snd qd)) (filter (keep skip) (rel_files c)).
Proof.
  assert (H : forall qd, In qd (rel_files c) -> fst qd <> []).
  { intros [q d] Hin. simpl. exact (rel_files_nonempty _ _ _ Hin). }
  induction (rel_files c) as [|qd l IH]; simpl; [reflexivity|].
  rewrite keep_cons by (apply H; now left).
  destruct (keep skip qd); simpl; rewrite IH; auto; intros; apply H; now right.
Qed.

(** The whole walk below a directory of the staging tree. *)
Lemma walk_loop (c : node) :
  wf_node c = true ->
  forall top, lookup_path n top = Some c ->
  forall ms s, dist_dir s = Some n ->
  for_each (walk top c) (zip_body skip) (with_members ms s)
  = (inr tt,
     with_members
       (ms ++ map (fun qd => (arcname (top ++ fst qd), snd qd))
                (filter (keep skip) (rel_files c))) s).
Proof.
  induction c as [d|es IH] using node_ind_nested; intros Hwf top Htop ms s Hd.
  - simpl. now rewrite app_nil_r.
  - destruct (wf_Dir es Hwf) as (_ & Hnd & Hch).
    assert (Hl : forall name child, In (name, child) es ->
                   lookup_path n (top ++ [name]) = Some child).
    { intros name child Hin. rewrite lookup_path_app, Htop. simpl.
      now rewrite (In_dict_get _ _ _ Hnd Hin). }
    cbn [walk for_each]. rewrite (bind_step _ _ _ _ _ (files_loop top es Hl ms s Hd)).
    cbn [rel_files]. rewrite filter_app, map_app, app_assoc.
    generalize (ms ++ map (fun qd => (arcname (top ++ fst qd), snd qd))
                  (filter (keep skip)
                     (flat_map (fun '(name, child) =>
                                  match child with
                                  | File data => [([name], data)]
                                  | Dir _ => []
                                  end) es))).
    clear Hnd Hwf Htop. induction es as [|[name child] es IHes]; intros ms'; simpl.
    + now rewrite app_nil_r.
    + inversion IH as [|? ? IHc IH']; subst. inversion Hch as [|? ? Hc Hch']; subst.
      simpl in IHc, Hc.
      rewrite (for_each_app _ _ _ _ _
                 (IHc Hc (top ++ [name]) (Hl _ _ (or_introl eq_refl)) ms' s Hd)).
      rewrite IHes; try assumption; [|intros; apply Hl; now right].
      rewrite filter_app, map_app, app_assoc.
      rewrite filter_keep_cons, !map_map. simpl.
      rewrite (map_ext (fun qd : list str * str =>
                          (arcname ((top ++ [name]) ++ fst qd), snd qd))
                 (fun qd => (arcname (top ++ name :: fst qd), snd qd)))
        by (intros; now rewrite <- app_assoc).
      reflexivity.
Qed.

(** [create_zip] on a well-formed staging tree. *)
Lemma create_zip_members (s : fs) :
  dist_dir s = Some n -> wf_node n = true -> zip_path s <> Some OtherDir ->
  create_zip skip s = (inr tt, with_members (members_of skip n) s).
Proof.
  intros Hd Hwf Hz.
  assert (Hopen : zip_open s = (inr tt, with_members [] s)).
  { unfold zip_open. destruct (zip_path s) as [[| |]|]; try reflexivity. congruence. }
  unfold create_zip. rewrite (bind_step _ _ _ _ _ Hopen).
  assert (Hwalk : walk_dist_dir (with_members [] s) = (inr (walk [] n), with_members [] s)).
  { unfold walk_dist_dir. simpl. now rewrite Hd. }
  rewrite (bind_step _ _ _ _ _ Hwalk).
  change (for_each (walk [] n) (zip_body skip) (with_members [] s)
          = (inr tt, with_members (members_of skip n) s)).
  rewrite (walk_loop n Hwf [] eq_refl [] s Hd). reflexivity.
Qed.

End ZipLoop.

Section Members.
Variable skip : str -> bool.

Lemma NoDup_map_filter {A B} (f : A -> B) (g : A -> bool) (l : list A) :
  NoDup (map f l) -> NoDup (map f (filter g l)).
Proof.
  induction l as [|a l IH]; simpl; intros H; [constructor|].
  inversion H as [|? ? Hnotin Hnd]; subst.
  destruct (g a); simpl; [constructor|]; auto.
  intros Hin. apply Hnotin. apply in_map_iff in Hin as [b [E Hb]].
  apply filter_In in Hb as [Hb _]. apply in_map_iff. now exists b.
Qed.

Lemma members_of_In (n : node) (name data : str) :
  In (name, data) (members_of skip n) <->
  exists q, In (q, data) (rel_files n) /\ skip (last q []) = false /\ name = arcname q.
Proof.
  unfold members_of. rewrite in_map_iff. split.
  - intros [[q d] [E Hin]]. simpl in E. injection E as <- <-.
    apply filter_In in Hin as [Hin Hk]. unfold keep in Hk. simpl in Hk.
    apply negb_true_iff in Hk. now exists q.
  - intros [q (Hin & Hk & ->)]. exists (q, data). split; [reflexivity|].
    apply filter_In. split; [assumption|]. unfold keep. simpl. now rewrite Hk.
Qed.

Lemma rel_files_names_ok (n : node) (q : list str) (data : str) :
  wf_node n = true -> In (q, data) (rel_files n) ->
  Forall (fun name => name_ok name = true) q.
Proof.
  intros Hwf Hin. apply (lookup_path_names_ok n Hwf q (File data)).
  now apply rel_files_lookup.
Qed.

Lemma members_of_NoDup (n : node) :
  wf_node n = true -> NoDup (map fst (members_of skip n)).
Proof.
  intros Hwf. unfold members_of. rewrite map_map. simpl.
  rewrite <- (map_map fst arcname). apply NoDup_map_inj.
  - intros p q Hp Hq E.
    apply in_map_iff in Hp as [[p' dp] [<- Hp]]. apply filter_In in Hp as [Hp _].
    apply in_map_iff in Hq as [[q' dq] [<- Hq]]. apply filter_In in Hq as [Hq _].
    simpl in *.
    pose proof (rel_files_names_ok n _ _ Hwf Hp) as Hpo.
    pose proof (rel_files_names_ok n _ _ Hwf Hq) as Hqo.
    rewrite !arcname_slash_name in E by assumption.
    now apply slash_name_inj.
  - apply NoDup_map_filter. now apply rel_files_NoDup.
Qed.

(** What the archive loop writes for a well-formed staging directory. *)
Lemma members_of_archive (es : list (str * node)) :
  wf_node (Dir es) = true -> archive_of skip (Dir es) (members_of skip (Dir es)).
Proof.
  intros Hwf. set (n := Dir es) in *. split.
  - intros p data Hl.
    assert (Hp : p <> []) by (intros ->; discriminate Hl).
    pose proof (lookup_rel_files n p data Hl Hp) as Hin.
    pose proof (lookup_path_names_ok n Hwf p _ Hl) as Hok.
    destruct (skip (last p [])) eqn:Hs.
    + intros Hm. apply in_map_iff in Hm as [[name d] [E Hm]]. simpl in E. subst name.
      apply members_of_In in Hm as [q (Hq & Hk & E)].
      rewrite arcname_slash_name in E by exact (rel_files_names_ok n _ _ Hwf Hq).
      apply slash_name_inj in E;
        [|assumption|exact (rel_files_names_ok n _ _ Hwf Hq)].
      subst q. congruence.
    + assert (Hm : In (slash_name p, data) (members_of skip n)).
      { apply members_of_In. exists p. rewrite arcname_slash_name by assumption. auto. }
      split; [assumption|].
      exact (exactly_one_intro _ _ _ (members_of_NoDup n Hwf) Hm).
  - intros name data Hm. apply members_of_In in Hm as [q (Hq & Hk & ->)].
    exists q. split; [now apply rel_files_lookup|].
    split; [|assumption].
    apply arcname_slash_name. exact (rel_files_names_ok n _ _ Hwf Hq).
Qed.

(** Directories are not members. *)
Lemma members_of_no_dir (es : list (str * node)) (p : list str) (sub : list (str * node)) :
  wf_node (Dir es) = true ->
  lookup_path (Dir es) p = Some (Dir sub) ->
  ~ In (slash_name p) (map fst (members_of skip (Dir es)))
  /\ ~ In (slash_name p ++ py "/") (map fst (members_of skip (Dir es))).
Proof.
  intros Hwf Hl. set (n := Dir es) in *.
  pose proof (lookup_path_names_ok n Hwf p _ Hl) as Hok.
  split; intros Hm; apply in_map_iff in Hm as [[name d] [E Hm]]; simpl in E; subst name;
    apply members_of_In in Hm as [q (Hq & _ & E)];
    pose proof (rel_files_names_ok n _ _ Hwf Hq) as Hqo;
    rewrite arcname_slash_name in E by assumption.
  - apply slash_name_inj in E; [|assumption|assumption]. subst q.
    apply rel_files_lookup in Hq; [|assumption]. congruence.
  - symmetry in E. revert E. apply slash_name_not_dir; [|assumption].
    exact (rel_files_nonempty _ _ _ Hq).
Qed.

(** Nothing in the archive lies below an empty directory, and no
    member name has the form of a directory entry. *)
Lemma members_of_empty_dir (es : list (str * node)) (p : list str) (name : str) :
  wf_node (Dir es) = true ->
  lookup_path (Dir es) p = Some (Dir []) ->
  In name (map fst (members_of skip (Dir es))) ->
  startswith name (slash_name p ++ py "/") = false.
Proof.
  intros Hwf Hl Hm. set (n := Dir es) in *.
  pose proof (lookup_path_names_ok n Hwf p _ Hl) as Hok.
  apply in_map_iff in Hm as [[name' d] [E Hm]]. simpl in E. subst name'.
  apply members_of_In in Hm as [q (Hq & _ & ->)].
  pose proof (rel_files_names_ok n _ _ Hwf Hq) as Hqo.
  rewrite arcname_slash_name by assumption.
  destruct (startswith (slash_name q) (slash_name p ++ py "/")) eqn:Hs; [|reflexivity].
  exfalso. apply rel_files_lookup in Hq; [|assumption].
  destruct p as [|x p].
  - subst n. simpl in Hl. injection Hl as ->. destruct q; discriminate Hq.
  - destruct (slash_name_prefix (x :: p) q ltac:(discriminate) Hok Hqo Hs) as [r [Hr ->]].
    rewrite lookup_path_app, Hl in Hq. destruct r; [congruence|discriminate Hq].
Qed.

Lemma members_of_not_dir_entry (es : list (str * node)) (name : str) :
  wf_node (Dir es) = true ->
  In name (map fst (members_of skip (Dir es))) ->
  endswith name (py "/") = false.
Proof.
  intros Hwf Hm. apply in_map_iff in Hm as [[name' d] [E Hm]]. simpl in E. subst name'.
  apply members_of_In in Hm as [q (Hq & _ & ->)].
  pose proof (rel_files_names_ok (Dir es) _ _ Hwf Hq) as Hqo.
  rewrite arcname_slash_name by assumption.
  apply slash_name_not_endswith_slash; [|assumption].
  exact (rel_files_nonempty _ _ _ Hq).
Qed.

End Members.

(** ** The build scripts *)

Section Pipelines.

Lemma clean_up_ok (s s1 : fs) :
  clean_up s = (inr tt, s1) -> s1 = mkFs (src_dir s) None None (stdout s).
Proof.
  unfold clean_up, bind, exists_dist_dir, exists_zip_path, rmtree_dist_dir,
    remove_zip_path, ret.
  destruct s as [sr d z out]. simpl.
  destruct d as [[data|es]|]; simpl; try discriminate;
    destruct z as [[ms| |]|]; simpl; try discriminate;
    intros H; now injection H as <-.
Qed.

Lemma copy_files_ok (s s1 : fs) :
  copy_files s = (inr tt, s1) ->
  exists es, src_dir s = Some (Dir es) /\ s1 = set_dist_dir (Some (Dir es)) s.
Proof.
  unfold copy_files, copytree.
  destruct (src_dir s) as [[data|es]|]; try discriminate.
  destruct (dist_dir s); [discriminate|].
  intros H. injection H as <-. now exists es.
Qed.

(** The state after [# Clean up] and [# Copy files]. *)
Lemma staged (s s1 : fs) :
  bind clean_up (fun _ => copy_files) s = (inr tt, s1) ->
  exists es, src_dir s = Some (Dir es)
             /\ s1 = mkFs (Some (Dir es)) (Some (Dir es)) None (stdout s).
Proof.
  intros H. apply bind_inr in H as ([] & s0 & Hc & Hcp).
  apply clean_up_ok in Hc. subst s0.
  apply copy_files_ok in Hcp as [es [Hsrc ->]]. simpl in Hsrc.
  exists es. split; [assumption|]. unfold set_dist_dir. simpl. now rewrite Hsrc.
Qed.

Lemma fix_manifest_json_ok (s s1 : fs) :
  build_firefox_extension.fix_manifest_json s = (inr tt, s1) ->
  exists es text manifest manifest',
    dist_dir s = Some (Dir es)
    /\ dict_get es manifest_json = Some (File text)
    /\ json_loads text = inr manifest
    /\ fix_manifest manifest = inr manifest'
    /\ s1 = set_dist_dir
              (Some (Dir (dict_set es manifest_json (File (json_dumps manifest'))))) s.
Proof.
  unfold build_firefox_extension.fix_manifest_json, bind, load_manifest, lift,
    dump_manifest.
  destruct (dist_dir s) as [[data|es]|] eqn:Hd; try discriminate.
  destruct (dict_get es manifest_json) as [[text|sub]|] eqn:Hg; try discriminate.
  destruct (json_loads text) as [e|manifest] eqn:Hj; [discriminate|].
  destruct (fix_manifest manifest) as [e|manifest'] eqn:Hf; [discriminate|].
  rewrite Hd, Hg. intros H. injection H as <-.
  now exists es, text, manifest, manifest'.
Qed.

(** A failing manifest step leaves the file system as it found it. *)
Lemma fix_manifest_json_err (s s1 : fs) (e : exn) :
  build_firefox_extension.fix_manifest_json s = (inl e, s1) -> s1 = s.
Proof.
  unfold build_firefox_extension.fix_manifest_json, bind, load_manifest, lift,
    dump_manifest.
  destruct (dist_dir s) as [[data|es]|] eqn:Hd;
    try (intros H; now injection H as _ <-).
  destruct (dict_get es manifest_json) as [[text|sub]|] eqn:Hg;
    try (intros H; now injection H as _ <-).
  destruct (json_loads text) as [e'|manifest] eqn:Hj;
    [intros H; now injection H as _ <-|].
  destruct (fix_manifest manifest) as [e'|manifest'] eqn:Hf;
    [intros H; now injection H as _ <-|].
  rewrite Hd, Hg. discriminate.
Qed.

(** Rewriting [manifest.json] keeps the tree well formed and its
    directories in place. *)
Lemma wf_dict_set_file (es : list (str * node)) (name text data : str) :
  dict_get es name = Some (File text) ->
  wf_node (Dir es) = true ->
  wf_node (Dir (dict_set es name (File data))) = true.
Proof.
  intros Hg. cbn [wf_node].
  assert (E0 : dict_get es name <> None) by congruence. clear Hg.
  assert (E : map fst (dict_set es name (File data)) = map fst es).
  { induction es as [|[k v] es IH]; simpl in *; [congruence|].
    destruct (str_eqb k name); simpl; [reflexivity|now rewrite IH]. }
  intros H. apply andb_true_iff in H as [H H3]. rewrite E, H. simpl.
  clear H E. induction es as [|[k v] es IH]; simpl in *; [congruence|].
  apply andb_true_iff in H3 as [Hv H3].
  destruct (str_eqb k name); simpl.
  - exact H3.
  - rewrite Hv. simpl. now apply IH.
Qed.

End Pipelines.

Section Runs.

Lemma bind_assoc {A B C} (m : M A) (k : A -> M B) (h : B -> M C) (s : fs) :
  bind (bind m k) h s = bind m (fun a => bind (k a) h) s.
Proof. unfold bind. now destruct (m s) as [[e|a] s1]. Qed.

Lemma stage_ok (s s1 : fs) :
  stage s = (inr tt, s1) ->
  exists es, src_dir s = Some (Dir es)
             /\ s1 = mkFs (Some (Dir es)) (Some (Dir es)) None (stdout s).
Proof. exact (staged s s1). Qed.

(** [zipf.write] never touches the trees and keeps the archive an
    archive. *)
Lemma zip_write_preserves (sr d : option node) (p : list str) (a : str) :
  preserves (fun st => src_dir st = sr /\ dist_dir st = d
                       /\ exists ms, zip_path st = Some (ZipArchive ms))
            (zip_write p a).
Proof.
  intros s r s' (Hs & Hd & [ms Hz]) H. unfold zip_write in H. rewrite Hz in H.
  destruct (dist_dir s) as [n|] eqn:En; [|injection H as _ <-; rewrite En; eauto].
  destruct (lookup_path n p) as [[data|sub]|]; injection H as _ <-; simpl;
    rewrite ?En; (split; [assumption|]); (split; [assumption|]); eauto.
Qed.

Lemma create_zip_inv (skip : str -> bool) (s s' : fs) :
  create_zip skip s = (inr tt, s') ->
  src_dir s' = src_dir s /\ dist_dir s' = dist_dir s
  /\ stdout s' = stdout s
  /\ exists ms, zip_path s' = Some (ZipArchive ms).
Proof.
  unfold create_zip. intros H.
  apply bind_inr in H as ([] & s0 & Hopen & H).
  apply bind_inr in H as (triples & s0' & Hwalk & H).
  assert (E0 : s0 = set_zip_path (Some (ZipArchive [])) s).
  { unfold zip_open in Hopen. destruct (zip_path s) as [[| |]|];
      try discriminate; now injection Hopen as <-. }
  assert (E0' : s0' = s0) by (unfold walk_dist_dir in Hwalk; now injection Hwalk as _ <-).
  subst s0' s0.
  assert (Hout : stdout s' = stdout s).
  { revert H. apply (preserves_for_each (fun st => stdout st = stdout s)); [|reflexivity].
    intros [[root dirs] files]. apply preserves_for_each. intros file.
    destruct (skip file); [apply preserves_ret|].
    intros st r st' Hst Hw. unfold zip_write in Hw.
    destruct (zip_path st) as [[ms| |]|]; try (injection Hw as _ <-; assumption).
    destruct (dist_dir st) as [n|]; [|injection Hw as _ <-; assumption].
    destruct (lookup_path n (root ++ [file])) as [[data|sub]|];
      injection Hw as _ <-; assumption. }
  assert (HI : src_dir s' = src_dir s /\ dist_dir s' = dist_dir s
               /\ exists ms, zip_path s' = Some (ZipArchive ms)).
  { revert H.
    apply (preserves_for_each
             (fun st => src_dir st = src_dir s /\ dist_dir st = dist_dir s
                        /\ exists ms, zip_path st = Some (ZipArchive ms)));
      [|simpl; eauto].
    intros [[root dirs] files]. apply preserves_for_each. intros file.
    destruct (skip file); [apply preserves_ret|apply zip_write_preserves]. }
  tauto.
Qed.

Lemma final_cleanup_print (msg : str) (s s' : fs) :
  bind final_cleanup (fun _ => print msg) s = (inr tt, s') ->
  s' = mkFs (src_dir s) None (zip_path s) (stdout s ++ [msg]).
Proof.
  unfold bind, final_cleanup, rmtree_dist_dir, print.
  destruct (dist_dir s) as [[data|sub]|]; try discriminate.
  simpl. intros H. now injection H as <-.
Qed.

(** The archive and the staging directory after the last three blocks,
    run on a well-formed staging directory. *)
Lemma archive_after (skip : str -> bool) (msg : str) (es : list (str * node)) (s1 s' : fs) :
  dist_dir s1 = Some (Dir es) -> wf_node (Dir es) = true -> zip_path s1 = None ->
  bind (create_zip skip) (fun _ => bind final_cleanup (fun _ => print msg)) s1
  = (inr tt, s') ->
  archive_members s' = Some (members_of skip (Dir es)).
Proof.
  intros Hd Hwf Hz H.
  rewrite (bind_step _ _ _ _ _
             (create_zip_members skip (Dir es) s1 Hd Hwf ltac:(congruence))) in H.
  apply final_cleanup_print in H. subst s'. reflexivity.
Qed.

(** A successful run of the Chrome script, block by block. *)
Lemma chrome_run (s s' : fs) :
  build_chrome_extension.build_chrome_zip s = (inr tt, s') ->
  exists es s1,
    src_dir s = Some (Dir es)
    /\ stage s = (inr tt, s1)
    /\ s1 = mkFs (Some (Dir es)) (Some (Dir es)) None (stdout s)
    /\ bind (create_zip build_chrome_extension.skip)
            (fun _ => bind final_cleanup
                        (fun _ => print (py "Successfully created "
                                         ++ build_chrome_extension.zip_path_text))) s1
       = (inr tt, s').
Proof.
  unfold build_chrome_extension.build_chrome_zip. intros H.
  rewrite <- (bind_assoc clean_up (fun _ => copy_files)) in H.
  fold stage in H. apply bind_inr in H as ([] & s1 & Hst & H).
  destruct (stage_ok _ _ Hst) as [es [Hsrc E]].
  exists es, s1. auto.
Qed.

(** A successful run of the Firefox script, block by block. *)
Lemma firefox_run (s s' : fs) :
  build_firefox_extension.build_firefox_zip s = (inr tt, s') ->
  exists es text manifest manifest' s2,
    src_dir s = Some (Dir es)
    /\ dict_get es manifest_json = Some (File text)
    /\ json_loads text = inr manifest
    /\ fix_manifest manifest = inr manifest'
    /\ bind stage (fun _ => build_firefox_extension.fix_manifest_json) s = (inr tt, s2)
    /\ s2 = mkFs (Some (Dir es))
                 (Some (Dir (dict_set es manifest_json (File (json_dumps manifest')))))
                 None (stdout s)
    /\ bind (create_zip build_firefox_extension.skip)
            (fun _ => bind final_cleanup
                        (fun _ => print (py "Successfully created "
                                         ++ build_firefox_extension.zip_path_text))) s2
       = (inr tt, s').
Proof.
  unfold build_firefox_extension.build_firefox_zip. intros H.
  rewrite <- (bind_assoc clean_up (fun _ => copy_files)) in H.
  fold stage in H. apply bind_inr in H as ([] & s1 & Hst & H).
  destruct (stage_ok _ _ Hst) as [es [Hsrc E]].
  apply bind_inr in H as ([] & s2 & Hfix & H).
  destruct (fix_manifest_json_ok _ _ Hfix) as (es' & text & m & m' & Hd & Hg & Hj & Hf & E2).
  subst s1. simpl in Hd. injection Hd as <-.
  exists es, text, m, m', s2. repeat (split; [assumption|]).
  split; [|split; [|assumption]].
  - rewrite (bind_step _ _ _ _ _ Hst). exact Hfix.
  - subst s2. reflexivity.
Qed.

(** Rewriting a file of the top directory changes neither which paths
    are regular files nor which are directories. *)
Lemma lookup_dict_set_file (es : list (str * node)) (name text data : str) (p : list str) :
  dict_get es name = Some (File text) ->
  (forall d, lookup_path (Dir (dict_set es name (File data))) p = Some (File d) ->
             exists d0, lookup_path (Dir es) p = Some (File d0))
  /\ (forall sub, lookup_path (Dir es) p = Some (Dir sub) ->
                  exists sub', lookup_path (Dir (dict_set es name (File data))) p
                               = Some (Dir sub')).
Proof.
  intros Hg. destruct p as [|x p]; simpl.
  - split; [discriminate|]. intros sub _. eauto.
  - destruct (list_eq_dec ascii_dec name x) as [->|Hne].
    + rewrite dict_get_set_same, Hg. destruct p; simpl; split; eauto; discriminate.
    + rewrite (dict_get_set_other _ _ _ _ Hne). split; eauto.
Qed.

Lemma lookup_dict_set_dir (es : list (str * node)) (name text data : str)
    (p : list str) (sub : list (str * node)) :
  dict_get es name = Some (File text) ->
  lookup_path (Dir es) p = Some (Dir sub) ->
  p = [] \/ lookup_path (Dir (dict_set es name (File data))) p = Some (Dir sub).
Proof.
  intros Hg. destruct p as [|x p]; [now left|]. right. simpl in *.
  destruct (list_eq_dec ascii_dec name x) as [->|Hne].
  - rewrite Hg in H. destruct p; discriminate H.
  - now rewrite (dict_get_set_other _ _ _ _ Hne).
Qed.

(** Conversely, the scripts run to completion whenever the sources are
    a directory, the leftovers are removable and (for Firefox) the
    manifest can be read and transformed. *)
Lemma stage_succeeds (s : fs) (es : list (str * node)) :
  src_dir s = Some (Dir es) -> removable_leftovers s = true ->
  stage s = (inr tt, mkFs (Some (Dir es)) (Some (Dir es)) None (stdout s)).
Proof.
  unfold removable_leftovers, stage, clean_up, copy_files, copytree, bind,
    exists_dist_dir, exists_zip_path, rmtree_dist_dir, remove_zip_path, ret.
  destruct s as [sr d z out]. simpl. intros -> H.
  destruct d as [[data|sub]|]; simpl in *; try discriminate;
    destruct z as [[ms| |]|]; simpl in *; try discriminate; reflexivity.
Qed.

Lemma chrome_succeeds (s : fs) (es : list (str * node)) :
  src_dir s = Some (Dir es) -> wf_node (Dir es) = true ->
  removable_leftovers s = true ->
  build_chrome_extension.build_chrome_zip s
  = (inr tt,
     mkFs (Some (Dir es)) None
          (Some (ZipArchive (members_of build_chrome_extension.skip (Dir es))))
          (stdout s ++ [py "Successfully created "
                        ++ build_chrome_extension.zip_path_text])).
Proof.
  intros Hsrc Hwf Hl. unfold build_chrome_extension.build_chrome_zip.
  rewrite <- (bind_assoc clean_up (fun _ => copy_files)). fold stage.
  rewrite (bind_step _ _ _ _ _ (stage_succeeds s es Hsrc Hl)).
  rewrite (bind_step _ _ _ _ _
             (create_zip_members build_chrome_extension.skip (Dir es)
                (mkFs (Some (Dir es)) (Some (Dir es)) None (stdout s))
                eq_refl Hwf ltac:(simpl; discriminate))).
  reflexivity.
Qed.

Lemma firefox_succeeds (s : fs) (es : list (str * node)) (text : str)
    (manifest manifest' : json) :
  src_dir s = Some (Dir es) -> wf_node (Dir es) = true ->
  removable_leftovers s = true ->
  dict_get es manifest_json = Some (File text) ->
  json_loads text = inr manifest ->
  fix_manifest manifest = inr manifest' ->
  build_firefox_extension.build_firefox_zip s
  = (inr tt,
     mkFs (Some (Dir es)) None
          (Some (ZipArchive
                   (members_of build_firefox_extension.skip
                      (Dir (dict_set es manifest_json (File (json_dumps manifest')))))))
          (stdout s ++ [py "Successfully created "
                        ++ build_firefox_extension.zip_path_text])).
Proof.
  intros Hsrc Hwf Hl Hg Hj Hf. unfold build_firefox_extension.build_firefox_zip.
  rewrite <- (bind_assoc clean_up (fun _ => copy_files)). fold stage.
  rewrite (bind_step _ _ _ _ _ (stage_succeeds s es Hsrc Hl)).
  assert (Hfix : build_firefox_extension.fix_manifest_json
                   (mkFs (Some (Dir es)) (Some (Dir es)) None (stdout s))
                 = (inr tt,
                    mkFs (Some (Dir es))
                         (Some (Dir (dict_set es manifest_json
                                       (File (json_dumps manifest')))))
                         None (stdout s))).
  { unfold build_firefox_extension.fix_manifest_json, bind, load_manifest, lift,
      dump_manifest.
    cbn [dist_dir]. rewrite Hg, Hj, Hf. cbn [dist_dir]. now rewrite Hg. }
  rewrite (bind_step _ _ _ _ _ Hfix).
  pose proof (wf_dict_set_file es manifest_json text (json_dumps manifest') Hg Hwf) as Hwf'.
  rewrite (bind_step _ _ _ _ _
             (create_zip_members build_firefox_extension.skip _
                (mkFs (Some (Dir es))
                      (Some (Dir (dict_set es manifest_json
                                    (File (json_dumps manifest')))))
                      None (stdout s))
                eq_refl Hwf' ltac:(simpl; discriminate))).
  reflexivity.
Qed.

End Runs.

(** C5: for every source tree (whose copy is the staging tree) each
    script produces an archive with exactly one member for every staged
    regular file that the script does not skip, named by the
    slash-separated path relative to the staging directory, and with no
    member for a skipped file.  The Chrome script skips the names ending
    in [.md]; the Firefox script skips nothing and archives the staging
    tree with its rewritten manifest. *)
Theorem archive_one_entry_per_kept_file (s : fs) (es : list (str * node)) :
  src_dir s = Some (Dir es) ->
  wf_node (Dir es) = true ->
  removable_leftovers s = true ->
  (exists s' members,
     build_chrome_extension.build_chrome_zip s = (inr tt, s')
     /\ archive_members s' = Some members
     /\ archive_of (fun file => endswith file (py ".md")) (Dir es) members)
  /\
  (forall text manifest manifest',
     dict_get es manifest_json = Some (File text) ->
     json_loads text = inr manifest ->
     fix_manifest manifest = inr manifest' ->
     exists s' members,
       build_firefox_extension.build_firefox_zip s = (inr tt, s')
       /\ archive_members s' = Some members
       /\ archive_of (fun _ => false)
            (Dir (dict_set es manifest_json (File (json_dumps manifest')))) members).
Proof.
  intros Hsrc Hwf Hl. split.
  - eexists. eexists. split; [exact (chrome_succeeds s es Hsrc Hwf Hl)|].
    split; [reflexivity|].
    exact (members_of_archive build_chrome_extension.skip es Hwf).
  - intros text m m' Hg Hj Hf.
    eexists. eexists.
    split; [exact (firefox_succeeds s es text m m' Hsrc Hwf Hl Hg Hj Hf)|].
    split; [reflexivity|].
    apply (members_of_archive build_firefox_extension.skip).
    exact (wf_dict_set_file es manifest_json text (json_dumps m') Hg Hwf).
Qed.

Lemma archive_one_entry_per_kept_file_witness :
  (exists s' members,
     build_chrome_extension.build_chrome_zip Fixtures.fs_stale = (inr tt, s')
     /\ archive_members s' = Some members
     /\ archive_of (fun file => endswith file (py ".md"))
          (Dir Fixtures.extension_tree) members)
  /\
  (exists s' members,
     build_firefox_extension.build_firefox_zip Fixtures.fs_stale = (inr tt, s')
     /\ archive_members s' = Some members
     /\ archive_of (fun _ => false)
          (Dir (dict_set Fixtures.extension_tree manifest_json
                  (File (json_dumps (JDict Fixtures.compact_manifest_fixed))))) members).
Proof.
  destruct (archive_one_entry_per_kept_file Fixtures.fs_stale Fixtures.extension_tree
              eq_refl eq_refl eq_refl) as [Hchrome Hfirefox].
  split; [exact Hchrome|].
  apply (Hfirefox Fixtures.compact_manifest (JDict Fixtures.compact_manifest_parsed));
    vm_compute; reflexivity.
Defined.

(** The end-to-end scenario of the specification. *)
Example chrome_archive_of_three_files :
  archive_members (snd (build_chrome_extension.build_chrome_zip Fixtures.fs_three_files))
  = Some [(manifest_json, py "{}"); (py "icon.png", py "PNG")].
Proof. vm_compute. reflexivity. Qed.

(** C10: every member of the archive is a regular file of the source
    tree and its name does not end in a slash (the form of a directory
    member); no directory of the source tree has a member, neither under
    its own name nor under its name followed by a slash; and no member
    lies below an empty directory. *)
Theorem archive_has_no_directories (s s' : fs) (es : list (str * node)) :
  src_dir s = Some (Dir es) ->
  wf_node (Dir es) = true ->
  build_chrome_extension.build_chrome_zip s = (inr tt, s')
  \/ build_firefox_extension.build_firefox_zip s = (inr tt, s') ->
  exists members,
    archive_members s' = Some members
    /\ (forall name data,
           In (name, data) members ->
           endswith name (py "/") = false
           /\ exists p data0, lookup_path (Dir es) p = Some (File data0)
                              /\ name = slash_name p)
    /\ (forall p sub,
           lookup_path (Dir es) p = Some (Dir sub) ->
           ~ In (slash_name p) (map fst members)
           /\ ~ In (slash_name p ++ py "/") (map fst members))
    /\ (forall p name,
           lookup_path (Dir es) p = Some (Dir []) ->
           In name (map fst members) ->
           startswith name (slash_name p ++ py "/") = false).
Proof.
  intros Hsrc Hwf [H|H].
  - destruct (chrome_run _ _ H) as (es' & s1 & Hsrc' & Hst & E & Hrest).
    rewrite Hsrc in Hsrc'. injection Hsrc' as <-.
    exists (members_of build_chrome_extension.skip (Dir es)).
    split; [refine (archive_after _ _ es s1 s' _ Hwf _ Hrest); now subst s1|].
    split; [|split].
    + intros name data Hin. split.
      * apply (members_of_not_dir_entry build_chrome_extension.skip es name Hwf).
        apply in_map_iff. now exists (name, data).
      * destruct (proj2 (members_of_archive build_chrome_extension.skip es Hwf) _ _ Hin)
          as [p (Hl & E' & _)].
        now exists p, data.
    + intros p sub Hl.
      exact (members_of_no_dir build_chrome_extension.skip es p sub Hwf Hl).
    + intros p name Hl Hin.
      exact (members_of_empty_dir build_chrome_extension.skip es p name Hwf Hl Hin).
  - destruct (firefox_run _ _ H) as (es' & text & m & m' & s2 & Hsrc' & Hg & Hj & Hf & Hst & E & Hrest).
    rewrite Hsrc in Hsrc'. injection Hsrc' as <-.
    pose proof (wf_dict_set_file es manifest_json text (json_dumps m') Hg Hwf) as Hwf'.
    set (es2 := dict_set es manifest_json (File (json_dumps m'))) in *.
    exists (members_of build_firefox_extension.skip (Dir es2)).
    split; [refine (archive_after _ _ es2 s2 s' _ Hwf' _ Hrest); now subst s2|].
    split; [|split].
    + intros name data Hin. split.
      * apply (members_of_not_dir_entry build_firefox_extension.skip es2 name Hwf').
        apply in_map_iff. now exists (name, data).
      * destruct (proj2 (members_of_archive build_firefox_extension.skip es2 Hwf') _ _ Hin)
          as [p (Hl & E' & _)].
        destruct (proj1 (lookup_dict_set_file es manifest_json text (json_dumps m') p Hg)
                    _ Hl) as [data0 Hl0].
        now exists p, data0.
    + intros p sub Hl.
      destruct (proj2 (lookup_dict_set_file es manifest_json text (json_dumps m') p Hg)
                  _ Hl) as [sub' Hl'].
      exact (members_of_no_dir build_firefox_extension.skip es2 p sub' Hwf' Hl').
    + intros p name Hl Hin.
      apply (members_of_empty_dir build_firefox_extension.skip es2 p name Hwf'); [|exact Hin].
      destruct (lookup_dict_set_dir es manifest_json text (json_dumps m') p [] Hg Hl)
        as [->|Hl']; [|exact Hl'].
      simpl in Hl. injection Hl as ->. discriminate Hg.
Qed.

Lemma archive_has_no_directories_witness :
  exists members,
    archive_members (snd (build_firefox_extension.build_firefox_zip Fixtures.fs_stale))
    = Some members
    /\ ~ In (py "empty") (map fst members)
    /\ ~ In (py "empty/") (map fst members)
    /\ (forall name, In name (map fst members) -> startswith name (py "empty/") = false).
Proof.
  assert (Hrun : build_firefox_extension.build_firefox_zip Fixtures.fs_stale
                 = (inr tt, snd (build_firefox_extension.build_firefox_zip Fixtures.fs_stale)))
    by (vm_compute; reflexivity).
  destruct (archive_has_no_directories Fixtures.fs_stale _
              Fixtures.extension_tree eq_refl eq_refl (or_intror Hrun))
    as [members (Hm & _ & Hdir & Hempty)].
  exists members. split; [exact Hm|].
  split; [exact (proj1 (Hdir [py "empty"] [] eq_refl))|].
  split; [exact (proj2 (Hdir [py "empty"] [] eq_refl))|].
  intros name Hin. exact (Hempty [py "empty"] name eq_refl Hin).
Defined.

(** C8: after a successful run of either script the staging directory is
    gone, the archive exists and the sources are as they were; when the
    Firefox script fails in its manifest step, the staging directory is
    still there and no archive exists. *)
Theorem cleanup_after_run :
  (forall s s',
      build_chrome_extension.build_chrome_zip s = (inr tt, s')
      \/ build_firefox_extension.build_firefox_zip s = (inr tt, s') ->
      dist_dir s' = None
      /\ (exists members, zip_path s' = Some (ZipArchive members))
      /\ src_dir s' = src_dir s)
  /\
  (forall s s1 e s2,
      stage s = (inr tt, s1) ->
      build_firefox_extension.fix_manifest_json s1 = (inl e, s2) ->
      build_firefox_extension.build_firefox_zip s = (inl e, s2)
      /\ zip_path s2 = None
      /\ dist_dir s2 = src_dir s
      /\ dist_dir s2 <> None).
Proof.
  split.
  - intros s s' [H|H].
    + destruct (chrome_run _ _ H) as (es & s1 & Hsrc & _ & E & Hrest).
      apply bind_inr in Hrest as ([] & s2 & Hzip & Hfin).
      apply create_zip_inv in Hzip as (Hs & Hd & _ & [ms Hz]).
      apply final_cleanup_print in Hfin. subst s' s1. simpl in *.
      rewrite Hs, Hz, Hsrc. eauto.
    + destruct (firefox_run _ _ H)
        as (es & text & m & m' & s2 & Hsrc & _ & _ & _ & _ & E & Hrest).
      apply bind_inr in Hrest as ([] & s3 & Hzip & Hfin).
      apply create_zip_inv in Hzip as (Hs & Hd & _ & [ms Hz]).
      apply final_cleanup_print in Hfin. subst s' s2. simpl in *.
      rewrite Hs, Hz, Hsrc. eauto.
  - intros s s1 e s2 Hst Hfix.
    pose proof (fix_manifest_json_err _ _ _ Hfix) as ->.
    destruct (stage_ok _ _ Hst) as [es [Hsrc ->]].
    split.
    + unfold build_firefox_extension.build_firefox_zip.
      rewrite <- (bind_assoc clean_up (fun _ => copy_files)). fold stage.
      rewrite (bind_step _ _ _ _ _ Hst). now rewrite (bind_fail _ _ _ _ _ Hfix).
    + simpl. rewrite Hsrc. repeat split. discriminate.
Qed.

Lemma cleanup_after_run_witness :
  (dist_dir (snd (build_chrome_extension.build_chrome_zip Fixtures.fs_stale)) = None
   /\ (exists members,
          zip_path (snd (build_chrome_extension.build_chrome_zip Fixtures.fs_stale))
          = Some (ZipArchive members))
   /\ src_dir (snd (build_chrome_extension.build_chrome_zip Fixtures.fs_stale))
      = src_dir Fixtures.fs_stale)
  /\
  (build_firefox_extension.build_firefox_zip Fixtures.fs_bad_manifest
   = (inl JSONDecodeError, snd (stage Fixtures.fs_bad_manifest))
   /\ zip_path (snd (stage Fixtures.fs_bad_manifest)) = None
   /\ dist_dir (snd (stage Fixtures.fs_bad_manifest)) = src_dir Fixtures.fs_bad_manifest
   /\ dist_dir (snd (stage Fixtures.fs_bad_manifest)) <> None).
Proof.
  destruct cleanup_after_run as [Hok Hfail]. split.
  - apply Hok. left. vm_compute. reflexivity.
  - apply (Hfail _ (snd (stage Fixtures.fs_bad_manifest))); vm_compute; reflexivity.
Defined.

(** C2, as the script behaves: the archived [manifest.json] is the
    transformed manifest in the encoder's own layout.  Its top-level
    entries are those parsed from the source, in the same order and with
    the same values except under [background], and inside [background]
    every key other than [service_worker] and [scripts] keeps its
    value. *)
Theorem archived_manifest_is_reserialized
    (s s' : fs) (es : list (str * node)) (text : str) (d : list (str * json)) :
  src_dir s = Some (Dir es) ->
  wf_node (Dir es) = true ->
  dict_get es manifest_json = Some (File text) ->
  json_loads text = inr (JDict d) ->
  build_firefox_extension.build_firefox_zip s = (inr tt, s') ->
  exists d' members,
    archive_members s' = Some members
    /\ In (manifest_json, json_dumps (JDict d')) members
    /\ exactly_one manifest_json members
    /\ fix_manifest (JDict d) = inr (JDict d')
    /\ same_but_background d d'
    /\ same_background_rest d d'.
Proof.
  intros Hsrc Hwf Hg Hj H.
  destruct (firefox_run _ _ H)
    as (es' & text' & m & m' & s2 & Hsrc' & Hg' & Hj' & Hf & Hst & E & Hrest).
  rewrite Hsrc in Hsrc'. injection Hsrc' as <-.
  rewrite Hg in Hg'. injection Hg' as <-. rewrite Hj in Hj'. injection Hj' as <-.
  destruct (fix_manifest_frame d m' Hf) as [d' [-> Hframe]].
  pose proof (wf_dict_set_file es manifest_json text (json_dumps (JDict d')) Hg Hwf) as Hwf'.
  set (es2 := dict_set es manifest_json (File (json_dumps (JDict d')))) in *.
  exists d', (members_of build_firefox_extension.skip (Dir es2)).
  split; [refine (archive_after _ _ es2 s2 s' _ Hwf' _ Hrest); now subst s2|].
  assert (Hl : lookup_path (Dir es2) [manifest_json] = Some (File (json_dumps (JDict d')))).
  { simpl. unfold es2. now rewrite dict_get_set_same. }
  destruct (members_of_archive build_firefox_extension.skip es2 Hwf') as [Hfiles _].
  specialize (Hfiles _ _ Hl). simpl in Hfiles. destruct Hfiles as [Hin Hone].
  split; [exact Hin|]. split; [exact Hone|]. split; [exact Hf|]. split; [exact Hframe|].
  intros bg bg' k Hbg Hbg' Hk1 Hk2.
  destruct (fix_manifest_cases _ _ Hf) as [E'|(d0 & bg0 & bg0' & E0 & Hbg0 & E0' & _ & Hrest')].
  - injection E' as ->. congruence.
  - injection E0 as <-. injection E0' as ->.
    rewrite dict_get_set_same in Hbg'. injection Hbg' as <-.
    rewrite Hbg in Hbg0. injection Hbg0 as <-. now apply Hrest'.
Qed.

Lemma archived_manifest_is_reserialized_witness :
  exists d' members,
    archive_members (snd (build_firefox_extension.build_firefox_zip Fixtures.fs_stale))
    = Some members
    /\ In (manifest_json, json_dumps (JDict d')) members
    /\ exactly_one manifest_json members
    /\ fix_manifest (JDict [(py "name", JStr (py "kurate"));
                            (background, JDict [(service_worker, JStr (py "bg.js"))])])
       = inr (JDict d')
    /\ same_but_background [(py "name", JStr (py "kurate"));
                            (background, JDict [(service_worker, JStr (py "bg.js"))])] d'
    /\ same_background_rest [(py "name", JStr (py "kurate"));
                             (background, JDict [(service_worker, JStr (py "bg.js"))])] d'.
Proof.
  apply (archived_manifest_is_reserialized Fixtures.fs_stale _ Fixtures.extension_tree
           Fixtures.compact_manifest _ eq_refl eq_refl eq_refl);
    vm_compute; reflexivity.
Defined.

(** C2 as stated fails: the archived [manifest.json] is laid out anew, so
    the bytes of a field the transformation does not touch differ from
    the source.  The source holds the field ["name":"kurate"]; the
    archived file holds it with a space after the colon. *)
Lemma archived_manifest_not_byte_identical :
  exists members archived,
    archive_members (snd (build_firefox_extension.build_firefox_zip Fixtures.fs_fresh))
    = Some members
    /\ fst (build_firefox_extension.build_firefox_zip Fixtures.fs_fresh) = inr tt
    /\ dict_get members manifest_json = Some archived
    /\ find Fixtures.compact_manifest (Fixtures.json_text "'name':'kurate'") = 1
    /\ find archived (Fixtures.json_text "'name':'kurate'") = -1
    /\ find archived (Fixtures.json_text "'name': 'kurate'") = 6.
Proof.
  eexists. eexists. split; [vm_compute; reflexivity|].
  split; [vm_compute; reflexivity|].
  split; [vm_compute; reflexivity|].
  split; [vm_compute; reflexivity|].
  split; vm_compute; reflexivity.
Qed.

(** ** Further properties of the patch scripts *)

Section MorePatchFacts.
Import Patch.

Lemma slice_to_minus_one (s : str) : slice_to s (-1) = removelast s.
Proof.
  unfold slice_to, norm_index. change (-1 <? 0) with true. cbv iota.
  rewrite removelast_firstn_len. f_equal.
  destruct s as [|c s]; [reflexivity|]. cbn [length Nat.pred]. lia.
Qed.

(** An occurrence of a marker, as a decomposition of the buffer. *)
Lemma find_split (s m : str) (a : nat) :
  find s m = Z.of_nat a ->
  exists rest, skipn a s = m ++ rest /\ (a <= length s)%nat.
Proof.
  intros H. assert (Hne : find s m <> -1) by lia.
  destruct (find_found s m Hne) as [a' (Ea & Ha & Hs & _)].
  assert (a' = a) by lia. subst a'.
  apply startswith_spec in Hs as [rest Hs]. now exists rest.
Qed.

(** The strict end marker ends with the loose one, so wherever the
    strict one occurs the loose one occurs too. *)
Lemma strict_found_loose_found (content : str) :
  find content update_js.end_marker <> -1 ->
  find content update_js.loose_end_marker <> -1.
Proof.
  intros H. destruct (find_found _ _ H) as [a (_ & _ & Hs & _)].
  apply startswith_spec in Hs as [rest Hs].
  rewrite <- (firstn_skipn a content), Hs.
  change update_js.end_marker with (py "async " ++ update_js.loose_end_marker).
  rewrite <- app_assoc, app_assoc. apply find_occurs.
Qed.

(** What [update_js.py] does, by the three searches. *)
Lemma update_js_run_cases (w : world) (content new_func : str) :
  index_js w = Some content ->
  new_render_links_snippet_js w = Some new_func ->
  let start_found := negb (find content update_js.start_marker =? -1) in
  let strict_found := negb (find content update_js.end_marker =? -1) in
  let report :=
    [py "Error: Could not find markers";
     py "Start found: " ++ fmt_bool start_found;
     py "End found: " ++ fmt_bool strict_found] in
  let lines :=
    if start_found && strict_found then [] else report in
  update_js.run w
  = if found_end_idx content =? -1
    then Exited 1 (mkWorld (index_js w) (new_styles_snippet_js w)
                     (new_render_links_snippet_js w)
                     (stdout w ++ lines
                      ++ [py "Error: Could not find end marker strict or loose"]))
    else Finished (mkWorld
                     (Some (update_js.new_content content new_func
                              (find content update_js.start_marker)
                              (found_end_idx content)))
                     (new_styles_snippet_js w) (new_render_links_snippet_js w)
                     (stdout w ++ lines
                      ++ [py "Successfully updated renderLinks in index.js"])).
Proof.
  destruct w as [ix st rl out]. cbn [index_js new_render_links_snippet_js].
  intros -> ->. unfold update_js.run, found_end_idx.
  cbn [index_js new_styles_snippet_js new_render_links_snippet_js stdout]. cbv zeta.
  destruct (find content update_js.start_marker =? -1) eqn:Es;
    destruct (find content update_js.end_marker =? -1) eqn:Ee;
    cbn [negb andb orb]; cbv iota; rewrite ?Ee;
    try destruct (find content update_js.loose_end_marker =? -1) eqn:El;
    unfold update_js.splice_and_write, print, write_index;
    cbn [index_js new_styles_snippet_js new_render_links_snippet_js stdout];
    rewrite <- ?app_assoc; cbn [app]; reflexivity.
Qed.

End MorePatchFacts.

(** X1: [update_index.py] does not compare the two offsets.  When the end
    marker is found before the start marker the run still finishes, and
    the buffer it writes repeats the text from the end marker up to the
    start marker on either side of the snippet; nothing of the old buffer
    is removed, and the old function, start marker first, still follows. *)
Theorem update_index_markers_out_of_order (w : Patch.world) (content R : str) (i j : Z) :
  Patch.index_js w = Some content ->
  Patch.new_styles_snippet_js w = Some R ->
  find content update_index.start_marker = i ->
  find content update_index.end_marker = j ->
  0 <= j <= i ->
  exists w' pre mid post,
    content = pre ++ mid ++ post
    /\ len pre = j /\ len (pre ++ mid) = i
    /\ startswith post update_index.start_marker = true
    /\ update_index.run w = Patch.Finished w'
    /\ Patch.index_js w'
       = Some (pre ++ mid ++ R ++ update_index.separator ++ mid ++ post).
Proof.
  intros Hc HR Hi Hj Hord.
  destruct (find_split content update_index.start_marker (Z.to_nat i)) as [rs [Hs Ha]];
    [rewrite Hi; lia|].
  destruct (find_split content update_index.end_marker (Z.to_nat j)) as [re [He Hb]];
    [rewrite Hj; lia|].
  set (a := Z.to_nat i) in *. set (b := Z.to_nat j) in *.
  assert (Hba : (b <= a)%nat) by (unfold a, b; lia).
  assert (Ei : i = Z.of_nat a) by (unfold a; lia).
  assert (Ej : j = Z.of_nat b) by (unfold b; lia).
  assert (Emid : skipn b content = firstn (a - b) (skipn b content) ++ skipn a content).
  { rewrite <- (firstn_skipn (a - b) (skipn b content)) at 1.
    rewrite skipn_skipn. now replace (a - b + b)%nat with a by lia. }
  assert (Epre : firstn a content = firstn b content ++ firstn (a - b) (skipn b content)).
  { rewrite <- (firstn_skipn b (firstn a content)).
    rewrite firstn_firstn, Nat.min_l by assumption.
    now rewrite skipn_firstn_comm. }
  assert (Hpost : startswith (skipn a content) update_index.start_marker = true)
    by (rewrite Hs; apply startswith_app).
  assert (Hlen : length (firstn b content) = b) by (rewrite length_firstn; lia).
  assert (Hlen' : length (firstn a content) = a) by (rewrite length_firstn; lia).
  assert (Ec : content = firstn b content ++ firstn (a - b) (skipn b content)
                         ++ skipn a content)
    by (rewrite <- Emid; symmetry; apply firstn_skipn).
  remember (skipn a content) as post eqn:Epost.
  remember (firstn (a - b) (skipn b content)) as mid eqn:Emid'.
  remember (firstn b content) as pre eqn:Epre'.
  clear Epost Emid' Epre'.
  exists (Patch.print (py "Successfully updated index.js")
            (Patch.write_index (update_index.new_content content R i j) w)),
    pre, mid, post.
  split; [exact Ec|].
  split; [unfold len; lia|].
  split; [rewrite <- Epre; unfold len; lia|].
  split; [exact Hpost|].
  split.
  - unfold update_index.run. rewrite Hc, HR. cbv zeta. rewrite Hi, Hj.
    destruct (Z.eqb_spec i (-1)); [lia|]. destruct (Z.eqb_spec j (-1)); [lia|].
    reflexivity.
  - simpl. unfold update_index.new_content.
    rewrite Ei, Ej, slice_to_nat, slice_from_nat, Epre, Emid.
    now rewrite <- !app_assoc.
Qed.

Lemma update_index_markers_out_of_order_witness :
  exists w' pre mid post,
    MoreFixtures.index_reversed = pre ++ mid ++ post
    /\ len pre = 0 /\ len (pre ++ mid) = 35
    /\ startswith post update_index.start_marker = true
    /\ update_index.run MoreFixtures.w_reversed = Patch.Finished w'
    /\ Patch.index_js w'
       = Some (pre ++ mid ++ Fixtures.styles_snippet ++ update_index.separator
               ++ mid ++ post).
Proof.
  apply (update_index_markers_out_of_order MoreFixtures.w_reversed
           MoreFixtures.index_reversed Fixtures.styles_snippet 35 0);
    try reflexivity.
  lia.
Defined.

(** X2: when the start marker is missing but an end marker is found,
    [update_js.py] reports the error and writes all the same: the buffer
    without its last character, then the snippet, the separator and the
    buffer from the end marker on. *)
Theorem update_js_missing_start_still_writes (w : Patch.world) (content new_func : str) :
  Patch.index_js w = Some content ->
  Patch.new_render_links_snippet_js w = Some new_func ->
  find content update_js.start_marker = -1 ->
  found_end_idx content <> -1 ->
  exists w',
    update_js.run w = Patch.Finished w'
    /\ Patch.index_js w'
       = Some (removelast content ++ new_func ++ update_js.separator
               ++ slice_from content (found_end_idx content))
    /\ In (py "Error: Could not find markers") (Patch.stdout w')
    /\ In (py "Start found: False") (Patch.stdout w').
Proof.
  intros Hc Hn Hs He.
  rewrite (update_js_run_cases w content new_func Hc Hn). cbv zeta.
  apply Z.eqb_neq in He. rewrite He, Hs. simpl (negb (-1 =? -1)). cbn [andb].
  eexists. split; [reflexivity|]. cbn [Patch.index_js Patch.stdout].
  split; [|split].
  - unfold update_js.new_content. now rewrite slice_to_minus_one.
  - apply in_or_app. right. now left.
  - apply in_or_app. right. right. now left.
Qed.

Lemma update_js_missing_start_still_writes_witness :
  exists w',
    update_js.run Fixtures.w_no_start = Patch.Finished w'
    /\ Patch.index_js w'
       = Some (removelast Fixtures.index_no_start ++ Fixtures.links_snippet
               ++ update_js.separator
               ++ slice_from Fixtures.index_no_start
                    (found_end_idx Fixtures.index_no_start))
    /\ In (py "Error: Could not find markers") (Patch.stdout w')
    /\ In (py "Start found: False") (Patch.stdout w').
Proof.
  apply (update_js_missing_start_still_writes Fixtures.w_no_start
           Fixtures.index_no_start Fixtures.links_snippet eq_refl eq_refl eq_refl).
  discriminate.
Defined.

(** X3: with both files readable, [update_js.py] exits exactly when
    ['copyLink(url) {'] occurs nowhere in the buffer: the strict end
    marker ends with the loose one, so the strict search adds no further
    way to stop. *)
Theorem update_js_exits_iff_no_copyLink (w : Patch.world) (content new_func : str) :
  Patch.index_js w = Some content ->
  Patch.new_render_links_snippet_js w = Some new_func ->
  (exists code w', update_js.run w = Patch.Exited code w')
  <-> find content update_js.loose_end_marker = -1.
Proof.
  intros Hc Hn. rewrite (update_js_run_cases w content new_func Hc Hn). cbv zeta.
  unfold found_end_idx.
  destruct (Z.eqb_spec (find content update_js.end_marker) (-1)) as [Ee|Ee].
  - destruct (Z.eqb_spec (find content update_js.loose_end_marker) (-1)) as [El|El].
    + split; [intros _; exact El|]. intros _. eexists. eexists. reflexivity.
    + split; [intros (c & w' & H); discriminate H|contradiction].
  - apply Z.eqb_neq in Ee. rewrite Ee. apply Z.eqb_neq in Ee.
    split; [intros (c & w' & H); discriminate H|].
    intros El. exfalso. exact (strict_found_loose_found content Ee El).
Qed.

Lemma update_js_exits_iff_no_copyLink_witness :
  (exists code w', update_js.run Fixtures.w_no_markers = Patch.Exited code w')
  <-> find (py "const app = 1;") update_js.loose_end_marker = -1.
Proof.
  exact (update_js_exits_iff_no_copyLink Fixtures.w_no_markers _ _ eq_refl eq_refl).
Defined.

(** X4: what [update_js.py] prints.  It prints its success line exactly
    when it writes [index.js], and the line
    ['Error: Could not find markers'] exactly when the start marker or the
    strict end marker is missing; a run that falls back to the loose
    marker therefore prints both. *)
Theorem update_js_printed_lines (w : Patch.world) (content new_func : str) :
  Patch.index_js w = Some content ->
  Patch.new_render_links_snippet_js w = Some new_func ->
  exists lines,
    Patch.stdout (outcome_world (update_js.run w)) = Patch.stdout w ++ lines
    /\ (In (py "Successfully updated renderLinks in index.js") lines
        <-> exists w', update_js.run w = Patch.Finished w')
    /\ (In (py "Error: Could not find markers") lines
        <-> find content update_js.start_marker = -1
            \/ find content update_js.end_marker = -1).
Proof.
  intros Hc Hn. rewrite (update_js_run_cases w content new_func Hc Hn). cbv zeta.
  destruct (Z.eqb_spec (find content update_js.start_marker) (-1)) as [Es|Es];
    destruct (Z.eqb_spec (find content update_js.end_marker) (-1)) as [Ee|Ee];
    destruct (found_end_idx content =? -1);
    cbn [negb andb outcome_world Patch.stdout];
    eexists; (split; [reflexivity|]); split; split;
    try (intros _; eexists; reflexivity);
    try (intros _; auto; fail);
    try (intros [w' H]; discriminate H);
    try (intros [H|H]; contradiction);
    cbn [app In]; intros H;
    repeat (destruct H as [H|H]; try discriminate H); try contradiction;
    auto 10.
Qed.

Lemma update_js_printed_lines_witness :
  exists lines,
    Patch.stdout (outcome_world (update_js.run Fixtures.w_loose_end)) = [] ++ lines
    /\ (In (py "Successfully updated renderLinks in index.js") lines
        <-> exists w', update_js.run Fixtures.w_loose_end = Patch.Finished w')
    /\ (In (py "Error: Could not find markers") lines
        <-> find Fixtures.index_loose_end update_js.start_marker = -1
            \/ find Fixtures.index_loose_end update_js.end_marker = -1).
Proof.
  exact (update_js_printed_lines Fixtures.w_loose_end _ _ eq_refl eq_refl).
Defined.



(** ** Further properties of the manifest transformation *)

Section MoreManifestFacts.

Ltac unfold_fix_manifest :=
  cbv beta iota delta [fix_manifest rbind py_contains py_getitem py_pop
                         py_setitem py_append].

Lemma json_ind_nested (P : json -> Prop) :
  P JNull -> (forall b, P (JBool b)) -> (forall n, P (JInt n)) ->
  (forall s, P (JStr s)) ->
  (forall l, Forall P l -> P (JList l)) ->
  (forall d, Forall (fun e => P (snd e)) d -> P (JDict d)) ->
  forall v, P v.
Proof.
  intros HN HB HI HS HL HD. fix IH 1. intros [| b | n | s | l | d].
  - exact HN.
  - apply HB.
  - apply HI.
  - apply HS.
  - apply HL. induction l as [|x l IHl]; constructor; [apply IH|assumption].
  - apply HD. induction d as [|[k x] d IHd]; constructor; [apply IH|assumption].
Qed.

(** Python's [==] holds between a value and itself. *)
Lemma py_eq_refl (v : json) : unique_keys v = true -> py_eq v v = true.
Proof.
  induction v as [| b | n | s | l IH | d IH] using json_ind_nested; intros Hu.
  - reflexivity.
  - simpl. now destruct b.
  - simpl. apply Z.eqb_refl.
  - simpl. apply str_eqb_refl.
  - simpl in *. induction l as [|x l IHl]; [reflexivity|].
    simpl in Hu. apply andb_true_iff in Hu as [Hx Hl].
    inversion IH as [|? ? IHx IH']; subst.
    rewrite (IHx Hx). simpl. now apply IHl.
  - cbn [unique_keys] in Hu. apply andb_true_iff in Hu as [Hd Hu].
    apply distinct_NoDup in Hd.
    cbn [py_eq]. rewrite Nat.eqb_refl. cbn [andb].
    assert (Hsub : forall d0,
               (forall k x, In (k, x) d0 -> In (k, x) d) ->
               (fix all (d1 : list (str * json)) : bool :=
                  match d1 with
                  | [] => true
                  | (k, v) :: d2 =>
                      match dict_get d k with
                      | Some v' => py_eq v v'
                      | None => false
                      end && all d2
                  end) d0 = true).
    { induction d0 as [|[k x] d0 IHd0]; intros Hin; [reflexivity|].
      rewrite (In_dict_get d k x Hd (Hin k x (or_introl eq_refl))).
      rewrite Forall_forall in IH. rewrite forallb_forall in Hu.
      pose proof (Hin k x (or_introl eq_refl)) as Hkx.
      pose proof (IH _ Hkx (Hu _ Hkx)) as Hx. cbn [snd] in Hx.
      rewrite Hx. cbn [andb].
      apply IHd0. intros. apply Hin. now right. }
    apply Hsub. auto.
Qed.

Lemma map_fst_dict_remove {V} (d : list (str * V)) (k : str) :
  map fst (dict_remove d k) = filter (fun k' => negb (str_eqb k' k)) (map fst d).
Proof.
  induction d as [|[k' v] d IH]; simpl; [reflexivity|].
  destruct (str_eqb k' k); simpl; now rewrite IH.
Qed.

Lemma map_fst_dict_set {V} (d : list (str * V)) (k : str) (v : V) :
  map fst (dict_set d k v)
  = map fst d ++ match dict_get d k with Some _ => [] | None => [k] end.
Proof.
  induction d as [|[k' v'] d IH]; simpl; [reflexivity|].
  destruct (str_eqb k' k); simpl; [now rewrite app_nil_r|now rewrite IH].
Qed.

(** The errors of the transformation. *)
Lemma fix_manifest_errors (m : json) (e : exn) :
  fix_manifest m = inl e -> e = TypeError \/ e = AttributeError.
Proof.
  unfold_fix_manifest. intros H.
  destruct m as [| | | s | l | d]; try (injection H as <-; auto; fail).
  - destruct (negb (find s background =? -1)); [|discriminate H].
    injection H as <-. auto.
  - destruct (existsb (py_eq (JStr background)) l); [|discriminate H].
    injection H as <-. auto.
  - destruct (dict_get d background) as [bgv|] eqn:Hbg; [|discriminate H].
    destruct bgv as [| | | s | l | bg]; try (injection H as <-; auto; fail).
    + destruct (negb (find s service_worker =? -1)); [|discriminate H].
      injection H as <-. auto.
    + destruct (existsb (py_eq (JStr service_worker)) l); [|discriminate H].
      injection H as <-. auto.
    + destruct (dict_get bg service_worker) as [sw|] eqn:Hsw; [|discriminate H].
      destruct (dict_get (dict_remove bg service_worker) scripts) as [sc|] eqn:Hsc;
        cbn [negb] in H; cbv iota in H; [|discriminate H].
      destruct sc as [| | | s | l | sd]; try (injection H as <-; auto; fail).
      * destruct sw; try (injection H as <-; auto; fail).
        destruct (negb (find s s0 =? -1)); cbn [negb] in H; cbv iota in H;
          [discriminate H|]. injection H as <-. auto.
      * destruct (existsb (py_eq sw) l); discriminate H.
      * destruct sw; try (injection H as <-; auto; fail);
          cbn [negb] in H; cbv iota in H; try (injection H as <-; auto; fail).
        destruct (dict_get sd s); cbn [negb] in H; cbv iota in H;
          [discriminate H|]. injection H as <-. auto.
Qed.

(** The three ways [scripts] ends up, from [fix_manifest_moves]. *)
Lemma scripts_after_move (d bg : list (str * json)) (sw : json) :
  dict_get d background = Some (JDict bg) ->
  dict_get bg service_worker = Some sw ->
  (dict_get bg scripts = None -> transforms_to_scripts d [sw])
  /\ (forall l, dict_get bg scripts = Some (JList l) ->
                existsb (py_eq sw) l = false -> transforms_to_scripts d (l ++ [sw]))
  /\ (forall l, dict_get bg scripts = Some (JList l) ->
                existsb (py_eq sw) l = true -> transforms_to_scripts d l).
Proof.
  intros Hbg Hsw.
  destruct (fix_manifest_moves d bg sw Hbg Hsw) as [Habsent Hlist].
  pose proof (dict_get_remove_same bg service_worker) as Hrm.
  assert (Hno : forall v, dict_get (dict_set (dict_remove bg service_worker) scripts v)
                            service_worker = None).
  { intros v. rewrite dict_get_set_other; [assumption|].
    intros E. symmetry in E. revert E. apply service_worker_neq_scripts. }
  unfold transforms_to_scripts. split; [|split].
  - intros Hsc. eexists. eexists. split; [exact (Habsent Hsc)|].
    rewrite dict_get_set_same. split; [reflexivity|]. split; [apply Hno|].
    apply dict_get_set_same.
  - intros l Hsc Hin. eexists. eexists. split; [exact (Hlist l Hsc)|].
    rewrite dict_get_set_same, Hin. split; [reflexivity|]. split; [apply Hno|].
    apply dict_get_set_same.
  - intros l Hsc Hin. eexists. eexists. split; [exact (Hlist l Hsc)|].
    rewrite dict_get_set_same, Hin. split; [reflexivity|]. split; [assumption|].
    rewrite dict_get_remove_other; [assumption|apply service_worker_neq_scripts].
Qed.

End MoreManifestFacts.

(** X6: whatever JSON value it is given, the manifest transformation
    raises nothing but [TypeError] or [AttributeError]: every subscript and
    every [pop] is guarded by a membership test, so no [KeyError] can
    escape. *)
Theorem fix_manifest_never_key_error (m : json) :
  fix_manifest m <> inl KeyError
  /\ forall e, fix_manifest m = inl e -> e = TypeError \/ e = AttributeError.
Proof.
  split.
  - intros H. destruct (fix_manifest_errors m _ H); discriminate.
  - exact (fix_manifest_errors m).
Qed.

Lemma fix_manifest_never_key_error_witness :
  fix_manifest (JDict [(background, JInt 5)]) <> inl KeyError
  /\ (TypeError = TypeError \/ TypeError = AttributeError).
Proof.
  destruct (fix_manifest_never_key_error (JDict [(background, JInt 5)])) as [Hk He].
  split; [exact Hk|]. apply He. reflexivity.
Defined.

(** X7: on a manifest of the usual shape (an object whose [background],
    if present, is an object whose [scripts], if present, is a list) the
    transformation never raises, and its result has that shape again. *)
Theorem fix_manifest_well_shaped (m : json) :
  well_shaped m = true ->
  exists m', fix_manifest m = inr m' /\ well_shaped m' = true.
Proof.
  destruct m as [| | | | | d]; try discriminate. intros Hw.
  assert (Hsame : fix_manifest (JDict d) = inr (JDict d) ->
                  exists m', fix_manifest (JDict d) = inr m' /\ well_shaped m' = true)
    by (intros E; exists (JDict d); now split).
  cbn [well_shaped] in Hw.
  destruct (dict_get d background) as [bgv|] eqn:Hbg;
    [|apply Hsame; now apply fix_manifest_no_background].
  destruct bgv as [| | | | | bg]; try discriminate.
  destruct (dict_get bg service_worker) as [sw|] eqn:Hsw;
    [|apply Hsame; now apply (fix_manifest_no_service_worker d bg)].
  destruct (fix_manifest_moves d bg sw Hbg Hsw) as [Habsent Hlist].
  destruct (dict_get bg scripts) as [sc|] eqn:Hsc.
  - destruct sc as [| | | | l |]; try discriminate.
    eexists. split; [exact (Hlist l eq_refl)|].
    cbn [well_shaped]. rewrite dict_get_set_same.
    destruct (existsb (py_eq sw) l).
    + rewrite dict_get_remove_other by exact service_worker_neq_scripts.
      now rewrite Hsc.
    + now rewrite dict_get_set_same.
  - eexists. split; [exact (Habsent eq_refl)|].
    cbn [well_shaped]. now rewrite !dict_get_set_same.
Qed.

Lemma fix_manifest_well_shaped_witness :
  exists m', fix_manifest (JDict Fixtures.manifest_sw_and_other) = inr m'
             /\ well_shaped m' = true.
Proof.
  exact (fix_manifest_well_shaped (JDict Fixtures.manifest_sw_and_other) eq_refl).
Defined.

(** X8: after the transformation [scripts] holds the migrated value, and
    holds it no more often than needed: the number of items equal to it
    was raised to one if it was zero and is otherwise what it was.  (The
    value is any JSON value whose objects have distinct keys.) *)
Theorem scripts_holds_service_worker_once
    (d bg : list (str * json)) (sw : json) (l : list json) :
  dict_get d background = Some (JDict bg) ->
  dict_get bg service_worker = Some sw ->
  unique_keys sw = true ->
  dict_get bg scripts = None /\ l = [] \/ dict_get bg scripts = Some (JList l) ->
  exists l',
    transforms_to_scripts d l'
    /\ existsb (py_eq sw) l' = true
    /\ py_count sw l' = Nat.max 1 (py_count sw l).
Proof.
  intros Hbg Hsw Hu Hsc.
  pose proof (py_eq_refl sw Hu) as Hrefl.
  destruct (scripts_after_move d bg sw Hbg Hsw)
    as (Habsent & Hlacks & Hhas).
  assert (Hcount : forall l0, existsb (py_eq sw) l0 = false -> py_count sw l0 = 0%nat).
  { unfold py_count. induction l0 as [|x l0 IH]; simpl; [reflexivity|].
    destruct (py_eq sw x); simpl; [discriminate|exact IH]. }
  assert (Hpos : forall l0, existsb (py_eq sw) l0 = true -> (1 <= py_count sw l0)%nat).
  { unfold py_count. induction l0 as [|x l0 IH]; simpl; [discriminate|].
    destruct (py_eq sw x); simpl; [lia|exact IH]. }
  destruct Hsc as [[Hsc ->]|Hsc].
  - exists [sw]. split; [exact (Habsent Hsc)|].
    unfold py_count. cbn [existsb filter]. rewrite Hrefl. now split.
  - destruct (existsb (py_eq sw) l) eqn:Hin.
    + exists l. split; [exact (Hhas l Hsc Hin)|]. split; [exact Hin|].
      specialize (Hpos l Hin). lia.
    + exists (l ++ [sw]). split; [exact (Hlacks l Hsc Hin)|].
      split.
      * rewrite existsb_app. simpl. rewrite Hrefl. now rewrite !orb_true_r.
      * specialize (Hcount l Hin). unfold py_count in *.
        rewrite filter_app, length_app. cbn [filter].
        rewrite Hrefl. cbn [length]. lia.
Qed.

Lemma scripts_holds_service_worker_once_witness :
  exists l',
    transforms_to_scripts MoreFixtures.manifest_sw_object l'
    /\ existsb (py_eq (JDict [(py "file", JStr (py "bg.js"))])) l' = true
    /\ py_count (JDict [(py "file", JStr (py "bg.js"))]) l'
       = Nat.max 1 (py_count (JDict [(py "file", JStr (py "bg.js"))])
                      [JDict [(py "file", JStr (py "bg.js"))]]).
Proof.
  apply (scripts_holds_service_worker_once MoreFixtures.manifest_sw_object
           _ _ _ eq_refl eq_refl eq_refl).
  right. reflexivity.
Defined.

(** X9: the order of the keys of [background] after the transformation:
    the old keys without [service_worker], in their old order, followed by
    [scripts] when that key had to be created. *)
Theorem background_key_order (d bg : list (str * json)) (sw : json) :
  dict_get d background = Some (JDict bg) ->
  dict_get bg service_worker = Some sw ->
  (dict_get bg scripts = None \/ exists l, dict_get bg scripts = Some (JList l)) ->
  exists d' bg',
    fix_manifest (JDict d) = inr (JDict d')
    /\ dict_get d' background = Some (JDict bg')
    /\ map fst bg'
       = filter (fun k => negb (str_eqb k service_worker)) (map fst bg)
         ++ match dict_get bg scripts with Some _ => [] | None => [scripts] end.
Proof.
  intros Hbg Hsw Hsc.
  destruct (fix_manifest_moves d bg sw Hbg Hsw) as [Habsent Hlist].
  assert (Hget : dict_get (dict_remove bg service_worker) scripts = dict_get bg scripts)
    by (apply dict_get_remove_other; exact service_worker_neq_scripts).
  destruct Hsc as [Hsc|[l Hsc]].
  - eexists. eexists. split; [exact (Habsent Hsc)|].
    split; [apply dict_get_set_same|].
    rewrite map_fst_dict_set, map_fst_dict_remove, Hget, Hsc. reflexivity.
  - eexists. eexists. split; [exact (Hlist l Hsc)|].
    split; [apply dict_get_set_same|].
    rewrite Hsc, app_nil_r.
    destruct (existsb (py_eq sw) l).
    + apply map_fst_dict_remove.
    + rewrite map_fst_dict_set, map_fst_dict_remove, Hget, Hsc.
      now rewrite app_nil_r.
Qed.

Lemma background_key_order_witness :
  exists d' bg',
    fix_manifest (JDict Fixtures.manifest_sw_only) = inr (JDict d')
    /\ dict_get d' background = Some (JDict bg')
    /\ map fst bg' = [py "type"] ++ [scripts].
Proof.
  apply (background_key_order Fixtures.manifest_sw_only _ _ eq_refl eq_refl).
  left. reflexivity.
Defined.

(** ** Further properties of the build scripts *)

Section MoreRuns.

Lemma keeps_ret {A} (a : A) : keeps_sources_and_output (ret a).
Proof. intros s r s' H. unfold ret in H. injection H as _ <-. now split. Qed.

Lemma keeps_bind {A B} (m : M A) (k : A -> M B) :
  keeps_sources_and_output m -> (forall a, keeps_sources_and_output (k a)) ->
  keeps_sources_and_output (bind m k).
Proof.
  intros Hm Hk s r s' H. unfold bind in H.
  destruct (m s) as [[e|a] s1] eqn:E.
  - injection H as _ <-. exact (Hm _ _ _ E).
  - destruct (Hm _ _ _ E) as [H1 H2]. destruct (Hk a _ _ _ H) as [H3 H4].
    split; congruence.
Qed.

Lemma keeps_for_each {A} (l : list A) (body : A -> M unit) :
  (forall x, keeps_sources_and_output (body x)) ->
  keeps_sources_and_output (for_each l body).
Proof.
  intros Hb. induction l as [|x l IH]; simpl.
  - apply keeps_ret.
  - apply keeps_bind; [apply Hb|intros _; exact IH].
Qed.

Ltac keeps_by_cases :=
  intros s r s' H; cbv beta in H;
  repeat match type of H with
         | context [match ?x with _ => _ end] => destruct x eqn:?
         end;
  injection H as _ <-; now split.

Lemma keeps_clean_up : keeps_sources_and_output clean_up.
Proof.
  unfold clean_up. repeat (apply keeps_bind; [|intros []]);
    try apply keeps_ret;
    unfold exists_dist_dir, exists_zip_path, rmtree_dist_dir, remove_zip_path;
    keeps_by_cases.
Qed.

Lemma keeps_copy_files : keeps_sources_and_output copy_files.
Proof. unfold copy_files, copytree. keeps_by_cases. Qed.

Lemma keeps_fix_manifest_json :
  keeps_sources_and_output build_firefox_extension.fix_manifest_json.
Proof.
  unfold build_firefox_extension.fix_manifest_json.
  apply keeps_bind; [unfold load_manifest; keeps_by_cases|]. intros m.
  apply keeps_bind; [unfold lift; keeps_by_cases|]. intros m'.
  unfold dump_manifest. keeps_by_cases.
Qed.

Lemma keeps_create_zip (skip : str -> bool) : keeps_sources_and_output (create_zip skip).
Proof.
  unfold create_zip.
  apply keeps_bind; [unfold zip_open; keeps_by_cases|]. intros _.
  apply keeps_bind; [unfold walk_dist_dir; keeps_by_cases|]. intros triples.
  apply keeps_for_each. intros [[root dirs] files].
  apply keeps_for_each. intros file.
  destruct (skip file); [apply keeps_ret|]. unfold zip_write. keeps_by_cases.
Qed.

Lemma keeps_final_cleanup : keeps_sources_and_output final_cleanup.
Proof. unfold final_cleanup, rmtree_dist_dir. keeps_by_cases. Qed.

Lemma prints_print (line : str) : prints_on_success line (print line).
Proof. intros s r s' H. unfold print in H. injection H as <- <-. now split. Qed.

Lemma prints_bind {A B} (line : str) (m : M A) (k : A -> M B) :
  keeps_sources_and_output m -> (forall a, prints_on_success line (k a)) ->
  prints_on_success line (bind m k).
Proof.
  intros Hm Hk s r s' H. unfold bind in H.
  destruct (m s) as [[e|a] s1] eqn:E.
  - injection H as <- <-. destruct (Hm _ _ _ E) as [H1 H2].
    split; [assumption|]. now rewrite app_nil_r.
  - destruct (Hm _ _ _ E) as [H1 H2]. destruct (Hk a _ _ _ H) as [H3 H4].
    split; congruence.
Qed.

Lemma clean_up_succeeds (s : fs) :
  removable_leftovers s = true -> clean_up s = (inr tt, cleaned s).
Proof.
  unfold removable_leftovers, cleaned, clean_up, bind, exists_dist_dir,
    exists_zip_path, rmtree_dist_dir, remove_zip_path, ret.
  destruct s as [sr d z out]. simpl.
  destruct d as [[data|sub]|]; simpl; try discriminate;
    destruct z as [[ms| |]|]; simpl; try discriminate; reflexivity.
Qed.

Lemma cleaned_removable (s : fs) : removable_leftovers (cleaned s) = true.
Proof. reflexivity. Qed.

(** Paths other than the rewritten file resolve as before. *)
Lemma lookup_dict_set_other (es : list (str * node)) (name text data : str)
    (p : list str) (d : str) :
  dict_get es name = Some (File text) ->
  p <> [name] ->
  lookup_path (Dir es) p = Some (File d) ->
  lookup_path (Dir (dict_set es name (File data))) p = Some (File d).
Proof.
  intros Hg Hp. destruct p as [|x p]; [discriminate|]. simpl.
  destruct (list_eq_dec ascii_dec name x) as [->|Hne].
  - rewrite Hg. destruct p; [congruence|discriminate].
  - now rewrite (dict_get_set_other _ _ _ _ Hne).
Qed.

(** Rewriting a regular file of the top directory leaves the list of
    file paths as it was. *)
Lemma rel_paths_dict_set (es : list (str * node)) (name text data : str) :
  dict_get es name = Some (File text) ->
  map fst (rel_files (Dir (dict_set es name (File data))))
  = map fst (rel_files (Dir es)).
Proof.
  intros Hg. cbn [rel_files]. rewrite !map_app. f_equal.
  - induction es as [|[k v] es IH]; simpl in *; [discriminate|].
    destruct (str_eqb k name) eqn:E.
    + injection Hg as ->. reflexivity.
    + simpl. rewrite !map_app. now rewrite IH.
  - induction es as [|[k v] es IH]; simpl in *; [discriminate|].
    destruct (str_eqb k name) eqn:E.
    + injection Hg as ->. reflexivity.
    + simpl. rewrite !map_app. now rewrite IH.
Qed.

Lemma map_fst_filter_keep (skip : str -> bool) (l : list (list str * str)) :
  map fst (filter (keep skip) l)
  = filter (fun p : list str => negb (skip (@last str p []))) (map fst l).
Proof.
  induction l as [|qd l IH]; [reflexivity|].
  cbn [filter map]. unfold keep in *.
  destruct (skip (last (fst qd) [])); cbn [negb map]; now rewrite IH.
Qed.

Lemma member_names (skip : str -> bool) (n : node) :
  map fst (members_of skip n)
  = map arcname (filter (fun p : list str => negb (skip (@last str p [])))
                (map fst (rel_files n))).
Proof.
  unfold members_of. rewrite map_map. cbn [fst].
  rewrite <- (map_map fst arcname). now rewrite map_fst_filter_keep.
Qed.

(** A slash name is the name of the file, preceded by nothing or by
    text that ends in a slash. *)
Lemma slash_name_split (p : list str) :
  p <> [] ->
  exists prefix, slash_name p = prefix ++ last p []
                 /\ (prefix = [] \/ exists q, prefix = q ++ py "/").
Proof.
  unfold slash_name. induction p as [|x p IH]; [congruence|]. intros _.
  rewrite join_cons. destruct p as [|y p].
  - exists []. split; [now rewrite app_nil_r|now left].
  - destruct IH as [prefix [E Hp]]; [discriminate|].
    exists (x ++ py "/" ++ prefix). split.
    + rewrite E. cbn [last]. now rewrite <- !app_assoc.
    + right. destruct Hp as [->|[q ->]].
      * exists x. now rewrite app_nil_r.
      * exists (x ++ py "/" ++ q). now rewrite <- !app_assoc.
Qed.

(** Whether a slash name ends in [.md] is decided by the file name. *)
Lemma endswith_md_slash_name (p : list str) :
  p <> [] -> last p [] <> [] ->
  endswith (slash_name p) (py ".md") = endswith (last p []) (py ".md").
Proof.
  intros Hp Hn. destruct (slash_name_split p Hp) as [prefix [-> Hpre]].
  unfold endswith. rewrite rev_app_distr.
  destruct Hpre as [->|[q ->]]; [now rewrite app_nil_r|].
  rewrite rev_app_distr. change (rev (py "/")) with (py "/").
  assert (Hr : rev (last p []) <> []).
  { intros E. apply Hn. rewrite <- (rev_involutive (last p [])), E. reflexivity. }
  destruct (rev (last p [])) as [|c1 [|c2 [|c3 r]]]; [congruence| | |].
  - simpl. now rewrite !andb_false_r.
  - simpl. now rewrite !andb_false_r.
  - simpl. reflexivity.
Qed.

Lemma filter_map_commute {A B} (f : A -> B) (g : B -> bool) (h : A -> bool)
    (l : list A) :
  (forall x, In x l -> g (f x) = h x) ->
  filter g (map f l) = map f (filter h l).
Proof.
  induction l as [|a l IH]; simpl; intros H; [reflexivity|].
  rewrite (H a (or_introl eq_refl)). destruct (h a); simpl; rewrite IH; auto.
Qed.

End MoreRuns.

(** X10: neither build script ever changes the sources, and each prints
    its one line when and only when it runs to completion: a run that
    raises has printed nothing. *)
Theorem builds_keep_sources (s : fs) :
  (src_dir (snd (build_chrome_extension.build_chrome_zip s)) = src_dir s
   /\ stdout (snd (build_chrome_extension.build_chrome_zip s))
      = stdout s ++ match fst (build_chrome_extension.build_chrome_zip s) with
                    | inr _ => [chrome_done]
                    | inl _ => []
                    end)
  /\
  (src_dir (snd (build_firefox_extension.build_firefox_zip s)) = src_dir s
   /\ stdout (snd (build_firefox_extension.build_firefox_zip s))
      = stdout s ++ match fst (build_firefox_extension.build_firefox_zip s) with
                    | inr _ => [firefox_done]
                    | inl _ => []
                    end).
Proof.
  split.
  - assert (H : prints_on_success chrome_done build_chrome_extension.build_chrome_zip).
    { unfold build_chrome_extension.build_chrome_zip.
      apply prints_bind; [exact keeps_clean_up|]. intros _.
      apply prints_bind; [exact keeps_copy_files|]. intros _.
      apply prints_bind; [apply keeps_create_zip|]. intros _.
      apply prints_bind; [exact keeps_final_cleanup|]. intros _.
      apply prints_print. }
    destruct (build_chrome_extension.build_chrome_zip s) as [r s'] eqn:E.
    exact (H _ _ _ E).
  - assert (H : prints_on_success firefox_done build_firefox_extension.build_firefox_zip).
    { unfold build_firefox_extension.build_firefox_zip.
      apply prints_bind; [exact keeps_clean_up|]. intros _.
      apply prints_bind; [exact keeps_copy_files|]. intros _.
      apply prints_bind; [exact keeps_fix_manifest_json|]. intros _.
      apply prints_bind; [apply keeps_create_zip|]. intros _.
      apply prints_bind; [exact keeps_final_cleanup|]. intros _.
      apply prints_print. }
    destruct (build_firefox_extension.build_firefox_zip s) as [r s'] eqn:E.
    exact (H _ _ _ E).
Qed.

(** X11: leftovers of an earlier build that can be removed have no effect
    on a run: it ends exactly as the run from the cleaned file system
    does. *)
Theorem removable_leftovers_do_not_matter (s : fs) :
  removable_leftovers s = true ->
  build_chrome_extension.build_chrome_zip s
  = build_chrome_extension.build_chrome_zip (cleaned s)
  /\ build_firefox_extension.build_firefox_zip s
     = build_firefox_extension.build_firefox_zip (cleaned s).
Proof.
  intros H.
  pose proof (clean_up_succeeds s H) as E1.
  pose proof (clean_up_succeeds (cleaned s) (cleaned_removable s)) as E2.
  unfold build_chrome_extension.build_chrome_zip,
    build_firefox_extension.build_firefox_zip.
  rewrite !(bind_step _ _ _ _ _ E1), !(bind_step _ _ _ _ _ E2). now split.
Qed.

Lemma removable_leftovers_do_not_matter_witness :
  build_chrome_extension.build_chrome_zip Fixtures.fs_stale
  = build_chrome_extension.build_chrome_zip Fixtures.fs_fresh
  /\ build_firefox_extension.build_firefox_zip Fixtures.fs_stale
     = build_firefox_extension.build_firefox_zip Fixtures.fs_fresh.
Proof.
  exact (removable_leftovers_do_not_matter Fixtures.fs_stale eq_refl).
Defined.

(** X12: when the sources are missing (or are not a directory) either
    script raises [OSError] only after its clean-up: the staging
    directory and the archive of the earlier build are gone. *)
Theorem missing_sources_lose_old_archive (s : fs) :
  no_source_dir s = true ->
  removable_leftovers s = true ->
  build_chrome_extension.build_chrome_zip s = (inl OSError, cleaned s)
  /\ build_firefox_extension.build_firefox_zip s = (inl OSError, cleaned s).
Proof.
  intros Hn H. pose proof (clean_up_succeeds s H) as E1.
  assert (E2 : copy_files (cleaned s) = (inl OSError, cleaned s)).
  { unfold copy_files, copytree, cleaned, no_source_dir in *. simpl.
    destruct (src_dir s) as [[data|es]|]; try reflexivity. discriminate. }
  unfold build_chrome_extension.build_chrome_zip,
    build_firefox_extension.build_firefox_zip.
  rewrite !(bind_step _ _ _ _ _ E1), !(bind_fail _ _ _ _ _ E2). now split.
Qed.

Lemma missing_sources_lose_old_archive_witness :
  build_chrome_extension.build_chrome_zip MoreFixtures.fs_no_sources
  = (inl OSError, mkFs None None None [])
  /\ build_firefox_extension.build_firefox_zip MoreFixtures.fs_no_sources
     = (inl OSError, mkFs None None None []).
Proof.
  exact (missing_sources_lose_old_archive MoreFixtures.fs_no_sources eq_refl eq_refl).
Defined.

(** X13: leftovers that cannot be removed stop either script with
    [OSError] before anything is copied.  A regular file at the staging
    path stops it at once, with nothing changed; a directory at the
    archive path stops it after the staging directory has been removed. *)
Theorem unremovable_leftovers_stop_the_build (s : fs) :
  (forall data,
      dist_dir s = Some (File data) ->
      build_chrome_extension.build_chrome_zip s = (inl OSError, s)
      /\ build_firefox_extension.build_firefox_zip s = (inl OSError, s))
  /\
  ((dist_dir s = None \/ exists es, dist_dir s = Some (Dir es)) ->
   zip_path s = Some OtherDir ->
   build_chrome_extension.build_chrome_zip s = (inl OSError, set_dist_dir None s)
   /\ build_firefox_extension.build_firefox_zip s = (inl OSError, set_dist_dir None s)).
Proof.
  split.
  - intros data Hd.
    assert (E : clean_up s = (inl OSError, s)).
    { destruct s as [sr d z out]. simpl in Hd. subst d. reflexivity. }
    unfold build_chrome_extension.build_chrome_zip,
      build_firefox_extension.build_firefox_zip.
    rewrite !(bind_fail _ _ _ _ _ E). now split.
  - intros Hd Hz.
    assert (E : clean_up s = (inl OSError, set_dist_dir None s)).
    { unfold clean_up, bind, exists_dist_dir, rmtree_dist_dir, exists_zip_path,
        remove_zip_path, ret.
      destruct s as [sr d z out]. simpl in *. subst z.
      destruct Hd as [->|[es ->]]; reflexivity. }
    unfold build_chrome_extension.build_chrome_zip,
      build_firefox_extension.build_firefox_zip.
    rewrite !(bind_fail _ _ _ _ _ E). now split.
Qed.

Lemma unremovable_leftovers_stop_the_build_witness :
  (build_chrome_extension.build_chrome_zip MoreFixtures.fs_dist_is_file
   = (inl OSError, MoreFixtures.fs_dist_is_file)
   /\ build_firefox_extension.build_firefox_zip MoreFixtures.fs_dist_is_file
      = (inl OSError, MoreFixtures.fs_dist_is_file))
  /\
  (build_chrome_extension.build_chrome_zip MoreFixtures.fs_zip_is_dir
   = (inl OSError, set_dist_dir None MoreFixtures.fs_zip_is_dir)
   /\ build_firefox_extension.build_firefox_zip MoreFixtures.fs_zip_is_dir
      = (inl OSError, set_dist_dir None MoreFixtures.fs_zip_is_dir)).
Proof.
  split.
  - exact (proj1 (unremovable_leftovers_stop_the_build MoreFixtures.fs_dist_is_file)
             (py "x") eq_refl).
  - apply (proj2 (unremovable_leftovers_stop_the_build MoreFixtures.fs_zip_is_dir));
      [right; eexists; reflexivity|reflexivity].
Defined.

(** X14: in the Firefox archive every file other than the top-level
    [manifest.json] is stored, once, with the bytes it has in the
    sources. *)
Theorem firefox_keeps_other_files (s s' : fs) (es : list (str * node)) :
  src_dir s = Some (Dir es) ->
  wf_node (Dir es) = true ->
  build_firefox_extension.build_firefox_zip s = (inr tt, s') ->
  exists members,
    archive_members s' = Some members
    /\ forall p data,
         lookup_path (Dir es) p = Some (File data) ->
         p <> [manifest_json] ->
         In (slash_name p, data) members /\ exactly_one (slash_name p) members.
Proof.
  intros Hsrc Hwf H.
  destruct (firefox_run _ _ H)
    as (es' & text & m & m' & s2 & Hsrc' & Hg & Hj & Hf & Hst & E & Hrest).
  rewrite Hsrc in Hsrc'. injection Hsrc' as <-.
  pose proof (wf_dict_set_file es manifest_json text (json_dumps m') Hg Hwf) as Hwf'.
  set (es2 := dict_set es manifest_json (File (json_dumps m'))) in *.
  exists (members_of build_firefox_extension.skip (Dir es2)).
  split; [refine (archive_after _ _ es2 s2 s' _ Hwf' _ Hrest); now subst s2|].
  intros p data Hl Hp.
  pose proof (lookup_dict_set_other es manifest_json text (json_dumps m') p data Hg Hp Hl)
    as Hl'.
  exact (proj1 (members_of_archive build_firefox_extension.skip es2 Hwf') p data Hl').
Qed.

Lemma firefox_keeps_other_files_witness :
  exists members,
    archive_members (snd (build_firefox_extension.build_firefox_zip Fixtures.fs_stale))
    = Some members
    /\ In (py "lib/bg.js", py "run();") members
    /\ exactly_one (py "lib/bg.js") members.
Proof.
  assert (Hrun : build_firefox_extension.build_firefox_zip Fixtures.fs_stale
                 = (inr tt, snd (build_firefox_extension.build_firefox_zip Fixtures.fs_stale)))
    by (vm_compute; reflexivity).
  destruct (firefox_keeps_other_files Fixtures.fs_stale _ Fixtures.extension_tree
              eq_refl eq_refl Hrun) as [members [Hm Hfiles]].
  exists members. split; [exact Hm|].
  apply (Hfiles [py "lib"; py "bg.js"] (py "run();")); [reflexivity|discriminate].
Defined.

(** X15: the two archives of the same sources have the same member names
    in the same order, except that the Chrome archive leaves out the
    names ending in [.md]. *)
Theorem chrome_archive_is_firefox_without_md (s sc sf : fs) (es : list (str * node)) :
  src_dir s = Some (Dir es) ->
  wf_node (Dir es) = true ->
  build_chrome_extension.build_chrome_zip s = (inr tt, sc) ->
  build_firefox_extension.build_firefox_zip s = (inr tt, sf) ->
  exists mc mf,
    archive_members sc = Some mc
    /\ archive_members sf = Some mf
    /\ map fst mc = filter (fun name => negb (endswith name (py ".md"))) (map fst mf).
Proof.
  intros Hsrc Hwf Hc Hf.
  destruct (chrome_run _ _ Hc) as (es' & s1 & Hsrc' & _ & E1 & Hrest1).
  rewrite Hsrc in Hsrc'. injection Hsrc' as <-.
  destruct (firefox_run _ _ Hf)
    as (es' & text & m & m' & s2 & Hsrc' & Hg & _ & _ & _ & E2 & Hrest2).
  rewrite Hsrc in Hsrc'. injection Hsrc' as <-.
  pose proof (wf_dict_set_file es manifest_json text (json_dumps m') Hg Hwf) as Hwf'.
  set (es2 := dict_set es manifest_json (File (json_dumps m'))) in *.
  exists (members_of build_chrome_extension.skip (Dir es)),
    (members_of build_firefox_extension.skip (Dir es2)).
  split; [refine (archive_after _ _ es s1 sc _ Hwf _ Hrest1); now subst s1|].
  split; [refine (archive_after _ _ es2 s2 sf _ Hwf' _ Hrest2); now subst s2|].
  rewrite !member_names.
  unfold es2. rewrite (rel_paths_dict_set es manifest_json text (json_dumps m') Hg).
  assert (Hall : forall (l : list (list str)),
             filter (fun p : list str => negb (build_firefox_extension.skip (@last str p []))) l
             = l).
  { induction l as [|x l IH]; [reflexivity|]. cbn [filter].
    unfold build_firefox_extension.skip at 1. cbn [negb]. now rewrite IH. }
  rewrite Hall. symmetry. apply filter_map_commute.
  intros p Hp. apply in_map_iff in Hp as [[q d] [E Hq]]. simpl in E. subst q.
  pose proof (rel_files_names_ok (Dir es) p d Hwf Hq) as Hok.
  pose proof (rel_files_nonempty _ _ _ Hq) as Hne.
  rewrite arcname_slash_name by assumption.
  unfold build_chrome_extension.skip. f_equal.
  apply endswith_md_slash_name; [assumption|].
  destruct (exists_last Hne) as [p0 [x ->]]. rewrite last_last.
  apply Forall_app in Hok as [_ Hx]. inversion Hx as [|? ? Hxo _]; subst.
  apply name_ok_spec in Hxo as [Hxo _]. exact Hxo.
Qed.

Lemma chrome_archive_is_firefox_without_md_witness :
  exists mc mf,
    archive_members (snd (build_chrome_extension.build_chrome_zip Fixtures.fs_stale))
    = Some mc
    /\ archive_members (snd (build_firefox_extension.build_firefox_zip Fixtures.fs_stale))
       = Some mf
    /\ map fst mc = filter (fun name => negb (endswith name (py ".md"))) (map fst mf).
Proof.
  apply (chrome_archive_is_firefox_without_md Fixtures.fs_stale _ _
           Fixtures.extension_tree eq_refl eq_refl); vm_compute; reflexivity.
Defined.

(** X16: sources without a regular file [manifest.json] at their top are
    archived by the Chrome script, while the Firefox script raises
    [OSError] at its manifest step, leaving the staging directory behind
    and no archive. *)
Theorem sources_without_manifest (s : fs) (es : list (str * node)) :
  src_dir s = Some (Dir es) ->
  wf_node (Dir es) = true ->
  removable_leftovers s = true ->
  (forall data, dict_get es manifest_json <> Some (File data)) ->
  (exists sc, build_chrome_extension.build_chrome_zip s = (inr tt, sc)
              /\ archive_members sc = Some (members_of build_chrome_extension.skip (Dir es)))
  /\ build_firefox_extension.build_firefox_zip s
     = (inl OSError, mkFs (Some (Dir es)) (Some (Dir es)) None (stdout s)).
Proof.
  intros Hsrc Hwf Hl Hno. split.
  - eexists. split; [exact (chrome_succeeds s es Hsrc Hwf Hl)|reflexivity].
  - unfold build_firefox_extension.build_firefox_zip.
    rewrite <- (bind_assoc clean_up (fun _ => copy_files)). fold stage.
    rewrite (bind_step _ _ _ _ _ (stage_succeeds s es Hsrc Hl)).
    apply bind_fail.
    unfold build_firefox_extension.fix_manifest_json, bind, load_manifest.
    cbn [dist_dir].
    destruct (dict_get es manifest_json) as [[data|sub]|] eqn:Hg; try reflexivity.
    exfalso. exact (Hno data eq_refl).
Qed.

Lemma sources_without_manifest_witness :
  (exists sc,
      build_chrome_extension.build_chrome_zip MoreFixtures.fs_no_manifest = (inr tt, sc)
      /\ archive_members sc
         = Some (members_of build_chrome_extension.skip
                   (Dir [(py "icon.png", File (py "PNG"))])))
  /\ build_firefox_extension.build_firefox_zip MoreFixtures.fs_no_manifest
     = (inl OSError,
        mkFs (Some (Dir [(py "icon.png", File (py "PNG"))]))
             (Some (Dir [(py "icon.png", File (py "PNG"))])) None []).
Proof.
  apply (sources_without_manifest MoreFixtures.fs_no_manifest
           [(py "icon.png", File (py "PNG"))] eq_refl eq_refl eq_refl).
  intros data. discriminate.
Defined.

Section Rebuild.


End Rebuild.


